(** * The mnemos browser extension: popup.js and background.js

    A shallow embedding of the two scripts of the mnemos browser extension.
    The popup script: the search flow against the memory service, the
    rendering of the results and the event listeners.  It is asynchronous:
    its [async] functions are embedded as coroutines in a resumption monad,
    a suspension standing for an [await] (or a promise callback) and
    carrying the request the script has just issued.  The background
    script: its three listeners, as the calls of the extension API they
    make.

    [JS] holds the parts of ECMAScript the scripts rely on (strings of
    UTF-16 code units, JSON values and their conversions, [trim],
    [encodeURIComponent], [toFixed]); [Browser] the page, the asynchronous
    calls and the coroutines; [Popup] the popup script, function by
    function, and the popup as a state machine; [Background] the background
    script and the part of the browser it acts on; [PopupSpec] and
    [BackgroundSpec] their properties. *)

From Stdlib Require Import String Ascii List NArith ZArith QArith Qround Bool.
From Stdlib Require Import Floats Uint63 Lia Lqa.
From Stdlib Require DecimalN.
Import ListNotations.
Close Scope Q_scope.

Set Implicit Arguments.

(* A decimal literal denotes the nearest double, as it does in JavaScript. *)
Set Warnings "-inexact-float".

(* ===================================================================== *)
(** * ECMAScript data and built-ins                                       *)
(* ===================================================================== *)

Module JS.

(** ** Strings: sequences of UTF-16 code units *)

Definition code_unit := N.
Definition jsstring := list code_unit.

(** An ASCII literal of the source text. *)
Definition lit (s : string) : jsstring :=
  map N_of_ascii (list_ascii_of_string s).

Fixpoint str_eqb (a b : jsstring) : bool :=
  match a, b with
  | [], [] => true
  | x :: a', y :: b' => N.eqb x y && str_eqb a' b'
  | _, _ => false
  end.

(** WhiteSpace and LineTerminator code points of ECMAScript: TAB, LF, VT,
    FF, CR, SP, NBSP, the Unicode space separators, LS, PS and ZWNBSP.  All
    lie in the basic plane, so each is a single code unit. *)
Definition is_whitespace (c : code_unit) : bool :=
  ((9 <=? c) && (c <=? 13) || (c =? 32) || (c =? 160) || (c =? 5760)
   || (8192 <=? c) && (c <=? 8202) || (c =? 8232) || (c =? 8233)
   || (c =? 8239) || (c =? 8287) || (c =? 12288) || (c =? 65279))%N.

Fixpoint trimStart (s : jsstring) : jsstring :=
  match s with
  | c :: s' => if is_whitespace c then trimStart s' else s
  | [] => []
  end.

Definition trimEnd (s : jsstring) : jsstring := rev (trimStart (rev s)).

(** [String.prototype.trim] *)
Definition trim (s : jsstring) : jsstring := trimEnd (trimStart s).

(** Decimal digits of a natural number, most significant first. *)
Fixpoint uint_units (d : Decimal.uint) : jsstring :=
  match d with
  | Decimal.Nil => []
  | Decimal.D0 d => 48%N :: uint_units d
  | Decimal.D1 d => 49%N :: uint_units d
  | Decimal.D2 d => 50%N :: uint_units d
  | Decimal.D3 d => 51%N :: uint_units d
  | Decimal.D4 d => 52%N :: uint_units d
  | Decimal.D5 d => 53%N :: uint_units d
  | Decimal.D6 d => 54%N :: uint_units d
  | Decimal.D7 d => 55%N :: uint_units d
  | Decimal.D8 d => 56%N :: uint_units d
  | Decimal.D9 d => 57%N :: uint_units d
  end.

Definition decimal (n : N) : jsstring := uint_units (N.to_uint n).

(** ** Errors *)

Record js_error := mkError { name : jsstring; message : jsstring }.

(** [new Error(msg)] *)
Definition Error (msg : jsstring) : js_error := mkError (lit "Error") msg.

(** Errors raised by the engine itself.  The message texts are those of V8,
    the engine that runs the extension. *)
Definition TypeError (msg : jsstring) : js_error := mkError (lit "TypeError") msg.
Definition URIError_malformed : js_error :=
  mkError (lit "URIError") (lit "URI malformed").

(** The outcome of evaluating an expression: a value or a thrown error. *)
Inductive completion (A : Type) : Type :=
| Normal (a : A)
| Abrupt (e : js_error).
Arguments Normal {A} a.
Arguments Abrupt {A} e.

Definition cbind {A B} (c : completion A) (f : A -> completion B) : completion B :=
  match c with
  | Normal a => f a
  | Abrupt e => Abrupt e
  end.

(** ** [encodeURIComponent] *)

(** Characters left as they are: ASCII letters, digits and [-_.!~*'()]. *)
Definition uri_unescaped (c : code_unit) : bool :=
  ((65 <=? c) && (c <=? 90) || (97 <=? c) && (c <=? 122)
   || (48 <=? c) && (c <=? 57)
   || (c =? 45) || (c =? 95) || (c =? 46) || (c =? 33) || (c =? 126)
   || (c =? 42) || (c =? 39) || (c =? 40) || (c =? 41))%N.

Definition hex_digit (n : N) : code_unit :=
  (if n <? 10 then 48 + n else 55 + n)%N.

(** [%XX], upper-case hexadecimal. *)
Definition percent (byte : N) : jsstring :=
  [37%N; hex_digit (byte / 16); hex_digit (byte mod 16)].

(** UTF-8 octets of a code point. *)
Definition utf8 (cp : N) : list N :=
  (if cp <? 128 then [cp]
   else if cp <? 2048 then [192 + cp / 64; 128 + cp mod 64]
   else if cp <? 65536 then
     [224 + cp / 4096; 128 + (cp / 64) mod 64; 128 + cp mod 64]
   else
     [240 + cp / 262144; 128 + (cp / 4096) mod 64;
      128 + (cp / 64) mod 64; 128 + cp mod 64])%N.

Definition is_high_surrogate (c : code_unit) : bool := ((55296 <=? c) && (c <=? 56319))%N.
Definition is_low_surrogate (c : code_unit) : bool := ((56320 <=? c) && (c <=? 57343))%N.

Fixpoint encodeURIComponent (s : jsstring) : completion jsstring :=
  match s with
  | [] => Normal []
  | c :: rest =>
      if uri_unescaped c then
        cbind (encodeURIComponent rest) (fun r => Normal (c :: r))
      else if is_low_surrogate c then Abrupt URIError_malformed
      else if is_high_surrogate c then
        match rest with
        | d :: rest' =>
            if is_low_surrogate d then
              let cp := ((c - 55296) * 1024 + (d - 56320) + 65536)%N in
              cbind (encodeURIComponent rest')
                    (fun r => Normal (flat_map percent (utf8 cp) ++ r))
            else Abrupt URIError_malformed
        | [] => Abrupt URIError_malformed
        end
      else
        cbind (encodeURIComponent rest)
              (fun r => Normal (flat_map percent (utf8 c) ++ r))
  end.

(** ** Numbers: IEEE 754 binary64 *)

(** The exact value of a finite double [m * 2^e], as a fraction. *)
Definition dyadic (m : positive) (e : Z) : Q :=
  match e with
  | Zneg k => (Z.pos m # Pos.pow 2 k)%Q
  | _ => inject_Z (Z.pos m * 2 ^ e)
  end.

Definition Qpow10 (p : Z) : Q := Qpower (inject_Z 10) p.

(** *** [Number::toString], radix 10 *)

(** The reals that round to the double [m * 2^e] form an interval around
    it, closed exactly when [m] is even. *)
Definition rounding_interval (m : positive) (e : Z) : Q * Q :=
  let half_up := dyadic 1 (e - 1) in
  let half_down :=
    if (Z.pos m =? 2 ^ 52)%Z && (-1074 <? e)%Z then dyadic 1 (e - 2)
    else dyadic 1 (e - 1) in
  (dyadic m e - half_down, dyadic m e + half_up)%Q.

(** The multiple [s * 10^p] inside the interval that is closest to the
    double, if there is one. *)
Definition shortest_at (m : positive) (e : Z) (p : Z) : option Z :=
  let x := dyadic m e in
  let (lo, hi) := rounding_interval m e in
  let closed := Z.even (Z.pos m) in
  let unit := Qpow10 p in
  let s_min := if closed then Qceiling (lo / unit) else (Qfloor (lo / unit) + 1)%Z in
  let s_max := if closed then Qfloor (hi / unit) else (Qceiling (hi / unit) - 1)%Z in
  if (s_min <=? s_max)%Z then
    let r := (x / unit)%Q in
    let down := Qfloor r in
    let nearest :=
      match (r - inject_Z down ?= 1 # 2)%Q with
      | Lt => down
      | Gt => (down + 1)%Z
      | Eq => if Z.even down then down else (down + 1)%Z
      end in
    Some (Z.max s_min (Z.min s_max nearest))
  else None.

(** The digits [s] and the exponent [p] of the shortest decimal that rounds
    to the double: the largest [p] that admits one. *)
Fixpoint shortest_from (fuel : nat) (m : positive) (e : Z) (p : Z) : Z * Z :=
  match fuel with
  | O => (Z.pos m, 0%Z)
  | S fuel' =>
      match shortest_at m e p with
      | Some s => (s, p)
      | None => shortest_from fuel' m e (p - 1)
      end
  end.

Definition zeros (n : Z) : jsstring := repeat 48%N (Z.to_nat n).

(** An upper bound of the decimal exponent, from the binary one. *)
Definition exponent_bound (m : positive) (e : Z) : Z :=
  ((Z.log2 (Z.pos m) + e + 1) * 30103 / 100000 + 2)%Z.

Definition positive_to_string (m : positive) (e : Z) : jsstring :=
  let (s, p) := shortest_from 400 m e (exponent_bound m e) in
  let digits := decimal (Z.to_N s) in
  let k := Z.of_nat (length digits) in
  let n := (k + p)%Z in
  if (k <=? n)%Z && (n <=? 21)%Z then digits ++ zeros (n - k)
  else if (0 <? n)%Z && (n <=? 21)%Z then
    firstn (Z.to_nat n) digits ++ lit "." ++ skipn (Z.to_nat n) digits
  else if (-6 <? n)%Z && (n <=? 0)%Z then lit "0." ++ zeros (- n) ++ digits
  else
    let exponent :=
      (if (n - 1 <? 0)%Z then lit "e-" else lit "e+") ++ decimal (Z.abs_N (n - 1)) in
    match digits with
    | [d] => [d] ++ exponent
    | d :: more => [d] ++ lit "." ++ more ++ exponent
    | [] => exponent
    end.

Definition NumberToString (x : float) : jsstring :=
  match Prim2SF x with
  | S754_nan => lit "NaN"
  | S754_zero _ => lit "0"
  | S754_infinity false => lit "Infinity"
  | S754_infinity true => lit "-Infinity"
  | S754_finite sign m e =>
      (if sign then lit "-" else []) ++ positive_to_string m e
  end.

(** *** [Number.prototype.toFixed] with one fraction digit *)

(** The integer [n] for which [n / 10] is closest to [m * 2^e], the larger
    one of two. *)
Definition nearest_tenth (m : positive) (e : Z) : Z :=
  Qfloor (inject_Z 10 * dyadic m e + (1 # 2))%Q.

Definition toFixed1 (x : float) : jsstring :=
  match Prim2SF x with
  | S754_nan => lit "NaN"
  | S754_zero _ => lit "0.0"
  | S754_infinity false => lit "Infinity"
  | S754_infinity true => lit "-Infinity"
  | S754_finite sign m e =>
      let s := if sign then lit "-" else [] in
      if Qle_bool (Qpow10 21) (dyadic m e) then s ++ positive_to_string m e
      else
        let n := nearest_tenth m e in
        s ++ decimal (Z.to_N (n / 10)) ++ lit "." ++ decimal (Z.to_N (n mod 10))
  end.

(** *** [StringToNumber] *)

(** The double nearest to the fraction [num / den], ties to even. *)
Definition round_to_double (num den : positive) : float :=
  let q := (Z.pos num # den)%Q in
  let l := (Z.log2 (Z.pos num) - Z.log2 (Z.pos den))%Z in
  let l := if Qle_bool (Qpower (inject_Z 2) l) q then l else (l - 1)%Z in
  let e := Z.max (l - 52) (-1074) in
  let r := (q / Qpower (inject_Z 2) e)%Q in
  let down := Qfloor r in
  let mant :=
    match (r - inject_Z down ?= 1 # 2)%Q with
    | Lt => down
    | Gt => (down + 1)%Z
    | Eq => if Z.even down then down else (down + 1)%Z
    end in
  Z.ldexp (of_uint63 (of_Z mant)) e.

Definition is_digit (c : code_unit) : bool := ((48 <=? c) && (c <=? 57))%N.

Fixpoint span_digits (s : jsstring) : jsstring * jsstring :=
  match s with
  | c :: s' =>
      if is_digit c then let (d, r) := span_digits s' in (c :: d, r) else ([], s)
  | [] => ([], [])
  end.

Definition digit_value (radix : N) (c : code_unit) : option N :=
  let v := (if (48 <=? c) && (c <=? 57) then Some (c - 48)
            else if (97 <=? c) && (c <=? 102) then Some (c - 87)
            else if (65 <=? c) && (c <=? 70) then Some (c - 55)
            else None)%N in
  match v with
  | Some d => if (d <? radix)%N then Some d else None
  | None => None
  end.

(** Value of a digit string in a radix; [None] unless every character is a
    digit of that radix. *)
Fixpoint digits_value (radix : N) (acc : N) (s : jsstring) : option N :=
  match s with
  | [] => Some acc
  | c :: s' =>
      match digit_value radix c with
      | Some d => digits_value radix (acc * radix + d)%N s'
      | None => None
      end
  end.

Definition integer_to_double (n : N) : float :=
  match n with
  | N0 => zero
  | Npos p => round_to_double p 1
  end.

(** An unsigned decimal literal: digits, optional fraction, optional
    exponent. *)
Definition unsigned_decimal (s : jsstring) : option float :=
  let (int_part, r1) := span_digits s in
  let '(has_dot, (frac_part, r2)) :=
    match r1 with
    | 46%N :: r => (true, span_digits r)
    | _ => (false, ([], r1))
    end in
  let exponent : option Z :=
    match r2 with
    | [] => Some 0%Z
    | c :: r =>
        if ((c =? 101) || (c =? 69))%N then
          let '(negative, ds) :=
            match r with
            | 45%N :: r' => (true, r')
            | 43%N :: r' => (false, r')
            | _ => (false, r)
            end in
          match ds, digits_value 10 0 ds with
          | _ :: _, Some v => Some (if negative then (- Z.of_N v)%Z else Z.of_N v)
          | _, _ => None
          end
        else None
    end in
  match int_part ++ frac_part, digits_value 10 0 (int_part ++ frac_part), exponent with
  | _ :: _, Some mantissa, Some ex =>
      if negb has_dot && Nat.eqb (length int_part) 0 then None
      else
        let p := (ex - Z.of_nat (length frac_part))%Z in
        match mantissa with
        | N0 => Some zero
        | Npos mp =>
            match p with
            | Zneg k => Some (round_to_double mp (10 ^ k))
            | _ => Some (round_to_double (mp * Z.to_pos (10 ^ p)) 1)
            end
        end
  | _, _, _ => None
  end.

Definition StringToNumber (s : jsstring) : float :=
  match trim s with
  | [] => zero
  | 48%N :: c :: ds =>
      let radix : option N :=
        (if (c =? 120) || (c =? 88) then Some 16
         else if (c =? 111) || (c =? 79) then Some 8
         else if (c =? 98) || (c =? 66) then Some 2
         else None)%N in
      match radix, ds with
      | Some r, _ :: _ =>
          match digits_value r 0 ds with
          | Some v => integer_to_double v
          | None => nan
          end
      | Some _, [] => nan
      | None, _ =>
          match unsigned_decimal (trim s) with Some x => x | None => nan end
      end
  | c :: t =>
      let '(negative, body) :=
        (if (c =? 45)%N then (true, t)
         else if (c =? 43)%N then (false, t) else (false, c :: t)) in
      let magnitude :=
        if str_eqb body (lit "Infinity") then infinity
        else match unsigned_decimal body with Some x => x | None => nan end in
      if negative then (- magnitude)%float else magnitude
  end.

(** ** Values: what [response.json()] yields, and [undefined] *)

#[warnings="-register-all"]
Inductive value : Type :=
| VUndefined
| VNull
| VBool (b : bool)
| VNum (x : float)
| VStr (s : jsstring)
| VArr (items : list value)
| VObj (props : list (jsstring * value)).

(** Own property of an object. *)
Fixpoint own (props : list (jsstring * value)) (key : jsstring) : option value :=
  match props with
  | [] => None
  | (k, v) :: rest => if str_eqb k key then Some v else own rest key
  end.

Definition ToBoolean (v : value) : bool :=
  match v with
  | VUndefined | VNull => false
  | VBool b => b
  | VNum x => negb (PrimFloat.eqb x zero || is_nan x)
  | VStr s => match s with [] => false | _ :: _ => true end
  | VArr _ | VObj _ => true
  end.

(** Property read [v.key], for the names the script reads ([results],
    [chunk_text], [text], [score]): none of them is defined on a prototype,
    so only an object's own property can answer; reading a property of
    [null] or [undefined] throws. *)
Definition Get (v : value) (key : jsstring) : completion value :=
  match v with
  | VUndefined =>
      Abrupt (TypeError (lit "Cannot read properties of undefined (reading '"
                           ++ key ++ lit "')"))
  | VNull =>
      Abrupt (TypeError (lit "Cannot read properties of null (reading '"
                           ++ key ++ lit "')"))
  | VObj props =>
      Normal (match own props key with Some w => w | None => VUndefined end)
  | VBool _ | VNum _ | VStr _ | VArr _ => Normal VUndefined
  end.

(** [ToString].  An array is joined with commas ([null] and [undefined]
    elements give the empty string); a plain object gives
    ["[object Object]"], unless an own [toString] property, which cannot be
    a function in parsed JSON, shadows the inherited method. *)
Fixpoint ToString (v : value) : completion jsstring :=
  match v with
  | VUndefined => Normal (lit "undefined")
  | VNull => Normal (lit "null")
  | VBool true => Normal (lit "true")
  | VBool false => Normal (lit "false")
  | VNum x => Normal (NumberToString x)
  | VStr s => Normal s
  | VArr items =>
      (fix join (l : list value) : completion jsstring :=
         let element (w : value) : completion jsstring :=
           match w with
           | VUndefined | VNull => Normal []
           | _ => ToString w
           end in
         match l with
         | [] => Normal []
         | [w] => element w
         | w :: rest =>
             cbind (element w) (fun a =>
             cbind (join rest) (fun b => Normal (a ++ lit "," ++ b)))
         end) items
  | VObj props =>
      match own props (lit "toString") with
      | Some _ => Abrupt (TypeError (lit "Cannot convert object to primitive value"))
      | None => Normal (lit "[object Object]")
      end
  end.

Definition ToNumber (v : value) : completion float :=
  match v with
  | VUndefined => Normal nan
  | VNull => Normal zero
  | VBool true => Normal one
  | VBool false => Normal zero
  | VNum x => Normal x
  | VStr s => Normal (StringToNumber s)
  | VArr _ | VObj _ => cbind (ToString v) (fun s => Normal (StringToNumber s))
  end.

(** [v.length === 0], for [v] neither [null] nor [undefined].  The length
    of an array or a string is its number of elements or code units; on a
    plain object [length] is an own property like any other. *)
Definition length_is_0 (v : value) : bool :=
  match v with
  | VArr items => Nat.eqb (length items) 0
  | VStr s => Nat.eqb (length s) 0
  | VObj props =>
      match own props (lit "length") with
      | Some (VNum x) => PrimFloat.eqb x zero
      | _ => false
      end
  | VUndefined | VNull | VBool _ | VNum _ => false
  end.

(** [v.length > 0], for [v] neither [null] nor [undefined]. *)
Definition length_gt_0 (v : value) : completion bool :=
  match v with
  | VArr items => Normal (Nat.ltb 0 (length items))
  | VStr s => Normal (Nat.ltb 0 (length s))
  | VObj props =>
      match own props (lit "length") with
      | Some w => cbind (ToNumber w) (fun x => Normal (PrimFloat.ltb zero x))
      | None => Normal false
      end
  | VUndefined | VNull | VBool _ | VNum _ => Normal false
  end.

(** [a || b]: [b] is evaluated only when [a] is falsy. *)
Definition or_else (a : completion value) (b : completion value) : completion value :=
  cbind a (fun x => if ToBoolean x then Normal x else b).

End JS.

(* ===================================================================== *)
(** * The popup's page and the asynchronous calls of the browser          *)
(* ===================================================================== *)

Module Browser.
Import JS.

(** ** The page *)

(** A result card: the [div] that [displayMemories] creates.  [memory] is
    the record its click listener has captured. *)
Record card := mkCard {
  uid : nat;
  className : jsstring;
  innerHTML : jsstring;
  backgroundColor : jsstring;
  memory : value
}.

(** A child of the memories container: the nodes parsed from markup
    assigned to [innerHTML], kept as that markup, or an appended card. *)
Inductive node : Type :=
| Html (markup : jsstring)
| Card (c : card).

Inductive log_arg : Type :=
| LStr (s : jsstring)
| LVal (v : value)
| LErr (e : js_error).

Inductive log_level : Type := level_log | level_error.

(** The mutable state of the popup: the [isSearching] variable of the
    script, the three elements it looks up, the console, and the number of
    elements created so far, which gives each card its identity. *)
Record ui := mkUI {
  isSearching : bool;
  searchInput_value : jsstring;
  searchButton_disabled : bool;
  searchButton_textContent : jsstring;
  memoriesContainer : list node;
  console : list (log_level * list log_arg);
  created : nat
}.

Definition set_isSearching (b : bool) (u : ui) : ui :=
  mkUI b (searchInput_value u) (searchButton_disabled u)
       (searchButton_textContent u) (memoriesContainer u) (console u) (created u).

(** The user edits the search input. *)
Definition typed (text : jsstring) (u : ui) : ui :=
  mkUI (isSearching u) text (searchButton_disabled u)
       (searchButton_textContent u) (memoriesContainer u) (console u) (created u).

Definition set_disabled (b : bool) (u : ui) : ui :=
  mkUI (isSearching u) (searchInput_value u) b
       (searchButton_textContent u) (memoriesContainer u) (console u) (created u).

Definition set_textContent (t : jsstring) (u : ui) : ui :=
  mkUI (isSearching u) (searchInput_value u) (searchButton_disabled u)
       t (memoriesContainer u) (console u) (created u).

Definition set_container (c : list node) (u : ui) : ui :=
  mkUI (isSearching u) (searchInput_value u) (searchButton_disabled u)
       (searchButton_textContent u) c (console u) (created u).

Definition add_log (entry : log_level * list log_arg) (u : ui) : ui :=
  mkUI (isSearching u) (searchInput_value u) (searchButton_disabled u)
       (searchButton_textContent u) (memoriesContainer u)
       (console u ++ [entry]) (created u).

Definition set_created (n : nat) (u : ui) : ui :=
  mkUI (isSearching u) (searchInput_value u) (searchButton_disabled u)
       (searchButton_textContent u) (memoriesContainer u) (console u) n.

(** [memoriesContainer.innerHTML = markup]: the children are replaced by
    what the parser builds from the markup, nothing for the empty string. *)
Definition container_of_markup (markup : jsstring) : list node :=
  match markup with
  | [] => []
  | _ :: _ => [Html markup]
  end.

(** [element.style.backgroundColor = colour], on the card if it is still
    in the container. *)
Definition paint (id : nat) (colour : jsstring) (n : node) : node :=
  match n with
  | Card c =>
      if Nat.eqb (uid c) id
      then Card (mkCard (uid c) (className c) (innerHTML c) colour (memory c))
      else n
  | Html _ => n
  end.

(** ** Serialisation of a text node

    [innerHTML] of an element whose only child is a text node is the
    escaped text: the HTML fragment serialisation algorithm replaces [&],
    U+00A0, [<] and [>]. *)
Definition escape_unit (c : code_unit) : jsstring :=
  (if c =? 38 then lit "&amp;"
   else if c =? 160 then lit "&nbsp;"
   else if c =? 60 then lit "&lt;"
   else if c =? 62 then lit "&gt;"
   else [c])%N.

(** Conversion of a value to the nullable string a DOM attribute takes:
    [null] and [undefined] stand for the empty string. *)
Definition nullable_DOMString (v : value) : completion jsstring :=
  match v with
  | VUndefined | VNull => Normal []
  | _ => ToString v
  end.

(** [div.textContent = v] on a fresh [div]: its text nodes afterwards, one
    holding the string, or none when the string is empty. *)
Definition textContent_set (v : value) : completion (list jsstring) :=
  cbind (nullable_DOMString v) (fun s =>
  Normal (match s with [] => [] | _ :: _ => [s] end)).

(** [div.innerHTML] of a [div] holding these text nodes. *)
Definition innerHTML_get (text_nodes : list jsstring) : jsstring :=
  flat_map (flat_map escape_unit) text_nodes.

(** ** Requests *)

Record request := mkRequest {
  url : jsstring;
  method : jsstring;
  headers : list (jsstring * jsstring)
}.

Record response := mkResponse { status : N }.

(** [response.ok] *)
Definition ok (r : response) : bool := ((200 <=? status r) && (status r <=? 299))%N.

(** ** Coroutines

    A piece of script run from a state of the page either finishes, or
    throws, or is suspended on an asynchronous call of the browser: the
    call has been issued, and the continuation takes the settlement of the
    promise and the state of the page at the time the script is resumed. *)
Inductive outcome (A : Type) : Type :=
| Done (a : A) (u : ui)
| Thrown (e : js_error) (u : ui)
| AwaitFetch (req : request) (u : ui) (k : completion response -> ui -> outcome A)
| AwaitJson (r : response) (u : ui) (k : completion value -> ui -> outcome A)
| AwaitClipboard (text : jsstring) (u : ui) (k : completion unit -> ui -> outcome A)
| AwaitTimeout (ms : N) (u : ui) (k : ui -> outcome A).
Arguments Done {A} a u.
Arguments Thrown {A} e u.
Arguments AwaitFetch {A} req u k.
Arguments AwaitJson {A} r u k.
Arguments AwaitClipboard {A} text u k.
Arguments AwaitTimeout {A} ms u k.

Definition proc (A : Type) : Type := ui -> outcome A.

Definition ret {A} (a : A) : proc A := fun u => Done a u.
Definition throw {A} (e : js_error) : proc A := fun u => Thrown e u.

Fixpoint obind {A B} (o : outcome A) (f : A -> proc B) : outcome B :=
  match o with
  | Done a u => f a u
  | Thrown e u => Thrown e u
  | AwaitFetch req u k => AwaitFetch req u (fun r u' => obind (k r u') f)
  | AwaitJson r u k => AwaitJson r u (fun x u' => obind (k x u') f)
  | AwaitClipboard t u k => AwaitClipboard t u (fun x u' => obind (k x u') f)
  | AwaitTimeout ms u k => AwaitTimeout ms u (fun u' => obind (k u') f)
  end.

Definition bind {A B} (m : proc A) (f : A -> proc B) : proc B :=
  fun u => obind (m u) f.

(** [try { m } catch (error) { h error }] *)
Fixpoint ocatch {A} (o : outcome A) (h : js_error -> proc A) : outcome A :=
  match o with
  | Done a u => Done a u
  | Thrown e u => h e u
  | AwaitFetch req u k => AwaitFetch req u (fun r u' => ocatch (k r u') h)
  | AwaitJson r u k => AwaitJson r u (fun x u' => ocatch (k x u') h)
  | AwaitClipboard t u k => AwaitClipboard t u (fun x u' => ocatch (k x u') h)
  | AwaitTimeout ms u k => AwaitTimeout ms u (fun u' => ocatch (k u') h)
  end.

Definition try_catch {A} (m : proc A) (h : js_error -> proc A) : proc A :=
  fun u => ocatch (m u) h.

(** [try { m } finally { f }]: [f] runs on both exits and the exit of [m]
    is kept, unless [f] itself throws. *)
Fixpoint ofinally {A} (o : outcome A) (f : proc unit) : outcome A :=
  match o with
  | Done a u => obind (f u) (fun _ => ret a)
  | Thrown e u => obind (f u) (fun _ => throw e)
  | AwaitFetch req u k => AwaitFetch req u (fun r u' => ofinally (k r u') f)
  | AwaitJson r u k => AwaitJson r u (fun x u' => ofinally (k x u') f)
  | AwaitClipboard t u k => AwaitClipboard t u (fun x u' => ofinally (k x u') f)
  | AwaitTimeout ms u k => AwaitTimeout ms u (fun u' => ofinally (k u') f)
  end.

Definition try_finally {A} (m : proc A) (f : proc unit) : proc A :=
  fun u => ofinally (m u) f.

(** Evaluation of an expression that may throw. *)
Definition eval {A} (c : completion A) : proc A :=
  fun u => match c with Normal a => Done a u | Abrupt e => Thrown e u end.

Definition read {A} (field : ui -> A) : proc A := fun u => Done (field u) u.
Definition update (f : ui -> ui) : proc unit := fun u => Done tt (f u).

(** [await fetch(url, options)] *)
Definition fetch (req : request) : proc response :=
  fun u => AwaitFetch req u eval.

(** [await response.json()] *)
Definition json (r : response) : proc value :=
  fun u => AwaitJson r u eval.

(** [navigator.clipboard.writeText(text)], up to its settlement. *)
Definition writeText (text : jsstring) : proc (completion unit) :=
  fun u => AwaitClipboard text u ret.

(** [setTimeout(callback, ms)], up to the start of the callback. *)
Definition setTimeout (ms : N) : proc unit :=
  fun u => AwaitTimeout ms u (ret tt).

Definition console_log (args : list log_arg) : proc unit := update (add_log (level_log, args)).
Definition console_error (args : list log_arg) : proc unit := update (add_log (level_error, args)).

(** ** Runs

    The browser resumes a suspended coroutine when the call it waits for
    settles.  Other listeners may have run in between: the coroutine is
    resumed in the state [u'] of the page at that time. *)
Inductive io_event : Type :=
| FetchSettled (req : request) (r : completion response)
| JsonSettled (resp : response) (r : completion value)
| ClipboardSettled (text : jsstring) (r : completion unit)
| TimeoutFired (ms : N).

Inductive resume {A : Type} : outcome A -> io_event -> ui -> outcome A -> Prop :=
| resume_fetch req u k r u' :
    resume (AwaitFetch req u k) (FetchSettled req r) u' (k r u')
| resume_json resp u k r u' :
    resume (AwaitJson resp u k) (JsonSettled resp r) u' (k r u')
| resume_clipboard text u k r u' :
    resume (AwaitClipboard text u k) (ClipboardSettled text r) u' (k r u')
| resume_timeout ms u k u' :
    resume (AwaitTimeout ms u k) (TimeoutFired ms) u' (k u').

Inductive run {A : Type} : outcome A -> list (io_event * ui) -> outcome A -> Prop :=
| run_here o : run o [] o
| run_step o e u' o1 tr o2 :
    resume o e u' o1 -> run o1 tr o2 -> run o ((e, u') :: tr) o2.

Definition finished {A} (o : outcome A) : bool :=
  match o with
  | Done _ _ | Thrown _ _ => true
  | _ => false
  end.

(** The state of the page a coroutine has left behind. *)
Definition page {A} (o : outcome A) : ui :=
  match o with
  | Done _ u | Thrown _ u | AwaitFetch _ u _ | AwaitJson _ u _
  | AwaitClipboard _ u _ | AwaitTimeout _ u _ => u
  end.

(** The requests a run has sent: those that have settled, and the one the
    coroutine is waiting for. *)
Definition settled_request (step : io_event * ui) : list request :=
  match fst step with
  | FetchSettled req _ => [req]
  | _ => []
  end.

Definition pending_request {A} (o : outcome A) : list request :=
  match o with
  | AwaitFetch req _ _ => [req]
  | _ => []
  end.

Definition requests {A} (tr : list (io_event * ui)) (o : outcome A) : list request :=
  flat_map settled_request tr ++ pending_request o.

(** A run to the end against a service that answers each call as [env]
    says, with no other listener in between. *)
Record environment := mkEnv {
  on_fetch : request -> completion response;
  on_json : response -> completion value;
  on_clipboard : jsstring -> completion unit
}.

Fixpoint exec {A} (env : environment) (o : outcome A) : list (io_event * ui) * outcome A :=
  match o with
  | Done _ _ | Thrown _ _ => ([], o)
  | AwaitFetch req u k =>
      let r := on_fetch env req in
      let (tr, o') := exec env (k r u) in ((FetchSettled req r, u) :: tr, o')
  | AwaitJson resp u k =>
      let r := on_json env resp in
      let (tr, o') := exec env (k r u) in ((JsonSettled resp r, u) :: tr, o')
  | AwaitClipboard text u k =>
      let r := on_clipboard env text in
      let (tr, o') := exec env (k r u) in ((ClipboardSettled text r, u) :: tr, o')
  | AwaitTimeout ms u k =>
      let (tr, o') := exec env (k u) in ((TimeoutFired ms, u) :: tr, o')
  end.

Declare Scope proc_scope.
Delimit Scope proc_scope with proc.
Notation "x <- m ;; k" := (bind m (fun x => k))
  (at level 61, m at next level, right associativity) : proc_scope.
Notation "m ;; k" := (bind m (fun _ => k))
  (at level 61, right associativity) : proc_scope.

End Browser.

(* ===================================================================== *)
(** * popup.js                                                            *)
(* ===================================================================== *)

Module Popup.
Import JS Browser.
Local Open Scope proc_scope.

Definition quote : jsstring := [34%N].
Definition newline : jsstring := [10%N].

(** [<div class="name">] *)
Definition div_open (class : string) : jsstring :=
  lit "<div class=" ++ quote ++ lit class ++ quote ++ lit ">".

Definition GET (url : jsstring) : request :=
  mkRequest url (lit "GET") [(lit "Content-Type", lit "application/json")].

Definition test_url : jsstring := lit "http://localhost:8000/api/test".
Definition cascading_url (encoded : jsstring) : jsstring :=
  lit "http://localhost:8000/api/cascading-retrieval?text_query=" ++ encoded.
Definition semantic_url (encoded : jsstring) : jsstring :=
  lit "http://localhost:8000/api/semantic-search?text_query=" ++ encoded.

(** [function escapeHtml(text)] *)
Definition escapeHtml (text : value) : completion jsstring :=
  cbind (textContent_set text) (fun div => Normal (innerHTML_get div)).

(** [function setLoading(loading)] *)
Definition loading_markup : jsstring :=
  div_open "loading" ++ lit "Searching your memories...</div>".

Definition setLoading (loading : bool) : proc unit :=
  update (set_isSearching loading) ;;
  update (set_disabled loading) ;;
  update (set_textContent (if loading then lit "Searching..." else lit "Search Memories")) ;;
  if loading then update (set_container (container_of_markup loading_markup))
  else ret tt.

(** [function showError(message)] *)
Definition showError (message : jsstring) : proc unit :=
  escaped <- eval (escapeHtml (VStr message)) ;;
  update (set_container
            (container_of_markup (div_open "error" ++ escaped ++ lit "</div>"))).

(** [function showEmptyState(message)] *)
Definition showEmptyState (message : jsstring) : proc unit :=
  escaped <- eval (escapeHtml (VStr message)) ;;
  update (set_container
            (container_of_markup (div_open "empty-state" ++ escaped ++ lit "</div>"))).

(** [async function checkServiceStatus()] *)
Definition checkServiceStatus : proc bool :=
  try_catch
    (response <- fetch (GET test_url) ;;
     if ok response then
       console_log [LStr (lit "Memory service is running")] ;;
       ret true
     else
       console_log [LStr (lit "Memory service responded but with error")] ;;
       ret false)
    (fun error =>
       console_error [LStr (lit "Memory service is not available:"); LErr error] ;;
       showError (lit "Memory service is not available. Please make sure it's running on localhost:8000") ;;
       ret false).

(** The template literal assigned to [memoryElement.innerHTML]. *)
Definition card_markup (text score ordinal : jsstring) : jsstring :=
  newline ++ lit "        " ++ div_open "memory-text" ++ text ++ lit "</div>"
  ++ newline ++ lit "        " ++ div_open "memory-meta"
  ++ newline ++ lit "          <span>Score: " ++ score ++ lit "%</span>"
  ++ newline ++ lit "          <span>Memory #" ++ ordinal ++ lit "</span>"
  ++ newline ++ lit "        </div>"
  ++ newline ++ lit "      ".

(** [memory.chunk_text || memory.text || fallback] *)
Definition memory_text (memory : value) (fallback : jsstring) : completion value :=
  or_else (Get memory (lit "chunk_text"))
          (or_else (Get memory (lit "text")) (Normal (VStr fallback))).

(** [(memory.score * 100).toFixed(1)] *)
Definition score_percent (memory : value) : completion jsstring :=
  cbind (Get memory (lit "score")) (fun score =>
  cbind (ToNumber score) (fun x =>
  Normal (toFixed1 (x * 100)%float))).

(** The value of that template literal for a record and its index. *)
Definition memory_markup (memory : value) (index : nat) : completion jsstring :=
  cbind (cbind (memory_text memory (lit "No text available")) escapeHtml) (fun text =>
  cbind (score_percent memory) (fun score =>
  Normal (card_markup text score (decimal (N.of_nat (index + 1)))))).

(** The body of the [forEach] callback of [displayMemories]: create the
    [div], fill it, attach the click listener and append it. *)
Definition displayMemory (memory : value) (index : nat) : proc unit :=
  id <- read created ;;
  update (set_created (S id)) ;;
  markup <- eval (memory_markup memory index) ;;
  children <- read memoriesContainer ;;
  update (set_container (children ++ [Card (mkCard id (lit "memory-item") markup [] memory)])).

Fixpoint forEach (items : list value) (index : nat)
         (callback : value -> nat -> proc unit) : proc unit :=
  match items with
  | [] => ret tt
  | item :: rest => callback item index ;; forEach rest (S index) callback
  end.

(** [function displayMemories(memories)] *)
Definition displayMemories (memories : value) : proc unit :=
  update (set_container (container_of_markup [])) ;;
  match memories with
  | VArr items => forEach items 0 displayMemory
  | _ => throw (TypeError (lit "memories.forEach is not a function"))
  end.

(** The click listener of a card. *)
Definition memory_click (c : card) : proc unit :=
  text <- eval (memory_text (memory c) []) ;;
  written <- match ToString text with
             | Normal s => writeText s
             | Abrupt e => ret (Abrupt e)
             end ;;
  match written with
  | Normal _ =>
      children <- read memoriesContainer ;;
      update (set_container (map (paint (uid c) (lit "#34a853")) children)) ;;
      setTimeout 500 ;;
      children <- read memoriesContainer ;;
      update (set_container (map (paint (uid c) []) children))
  | Abrupt err =>
      console_error [LStr (lit "Failed to copy text: "); LErr err]
  end.

(** [!data.results || data.results.length === 0] *)
Definition no_results (data : value) : completion bool :=
  cbind (Get data (lit "results")) (fun results =>
  if negb (ToBoolean results) then Normal true
  else Normal (length_is_0 results)).

(** [data.results && data.results.length > 0] *)
Definition has_results (data : value) : completion bool :=
  cbind (Get data (lit "results")) (fun results =>
  if ToBoolean results then length_gt_0 results
  else Normal false).

(** The [catch] block of [searchMemories]. *)
Definition search_failed (error : js_error) : proc unit :=
  console_error [LStr (lit "Error searching memories:"); LErr error] ;;
  console_error [LStr (lit "Error details:"); LStr (message error)] ;;
  showError (lit "Failed to search memories: " ++ message error).

(** [async function searchMemories(query)] *)
Definition searchMemories (query : jsstring) : proc unit :=
  if negb (ToBoolean (VStr (trim query))) then
    showEmptyState (lit "Please enter a search query")
  else
    setLoading true ;;
    try_finally
      (try_catch
         (encoded <- eval (encodeURIComponent query) ;;
          response <- fetch (GET (cascading_url encoded)) ;;
          if negb (ok response) then
            throw (Error (lit "HTTP error! status: " ++ decimal (status response)))
          else
          data <- json response ;;
          console_log [LStr (lit "Cascading API Response:"); LVal data] ;;
          empty <- eval (no_results data) ;;
          data <- (if empty then
                     console_log [LStr (lit "No results from cascading, trying semantic search...")] ;;
                     encoded <- eval (encodeURIComponent query) ;;
                     response <- fetch (GET (semantic_url encoded)) ;;
                     if negb (ok response) then
                       throw (Error (lit "HTTP error! status: " ++ decimal (status response)))
                     else
                     data <- json response ;;
                     console_log [LStr (lit "Semantic API Response:"); LVal data] ;;
                     ret data
                   else ret data) ;;
          found <- eval (has_results data) ;;
          if found then
            results <- eval (Get data (lit "results")) ;;
            displayMemories results
          else showEmptyState (lit "No memories found for your search"))
         search_failed)
      (setLoading false).

(** The click listener of the search button. *)
Definition searchButton_click : proc unit :=
  searching <- read isSearching ;;
  if negb searching then
    query <- read searchInput_value ;;
    searchMemories query
  else ret tt.

(** The keypress listener of the search input. *)
Definition searchInput_keypress (key : jsstring) : proc unit :=
  searching <- read isSearching ;;
  if str_eqb key (lit "Enter") && negb searching then
    query <- read searchInput_value ;;
    searchMemories query
  else ret tt.

(** The [DOMContentLoaded] listener, the popup as it opens:
    [let isSearching = false], then [checkServiceStatus()], whose promise
    is dropped. *)
Definition DOMContentLoaded : proc bool :=
  update (set_isSearching false) ;;
  checkServiceStatus.

(** ** The popup as a whole

    The page, and the coroutines that wait for a call of theirs to settle.
    A listener runs from the page as it is up to its first suspension, and a
    coroutine whose call settles runs from the page as it is by then up to
    its next one; whatever has not finished waits on. *)
Inductive task : Type :=
| Search (o : outcome unit)
| Check (o : outcome bool)
| Copy (o : outcome unit).

Definition task_finished (t : task) : bool :=
  match t with
  | Search o | Copy o => finished o
  | Check o => finished o
  end.

Definition task_page (t : task) : ui :=
  match t with
  | Search o | Copy o => page o
  | Check o => page o
  end.

Inductive task_resume : task -> io_event -> ui -> task -> Prop :=
| resume_search o ev u o' : resume o ev u o' -> task_resume (Search o) ev u (Search o')
| resume_check o ev u o' : resume o ev u o' -> task_resume (Check o) ev u (Check o')
| resume_copy o ev u o' : resume o ev u o' -> task_resume (Copy o) ev u (Copy o').

Record popup := mkPopup { dom : ui; tasks : list task }.

Definition still_waiting (t : task) : list task :=
  if task_finished t then [] else [t].

(** A listener has run. *)
Definition spawn (t : task) (p : popup) : popup :=
  mkPopup (task_page t) (tasks p ++ still_waiting t).

Inductive react : popup -> popup -> Prop :=
| react_input p text :
    react p (mkPopup (typed text (dom p)) (tasks p))
| react_click p :
    react p (spawn (Search (searchButton_click (dom p))) p)
| react_keypress p key :
    react p (spawn (Search (searchInput_keypress key (dom p))) p)
| react_card p c :
    In (Card c) (memoriesContainer (dom p)) ->
    react p (spawn (Copy (memory_click c (dom p))) p)
| react_settle p before t after ev t' :
    tasks p = before ++ t :: after ->
    task_resume t ev (dom p) t' ->
    react p (mkPopup (task_page t') (before ++ still_waiting t' ++ after)).

(** The states of the popup opened on a page [u]. *)
Inductive reachable : popup -> Prop :=
| reach_opened u : reachable (spawn (Check (DOMContentLoaded u)) (mkPopup u []))
| reach_react p p' : reachable p -> react p p' -> reachable p'.

(** The searches in flight. *)
Definition searches (p : popup) : list (outcome unit) :=
  flat_map (fun t => match t with Search o => [o] | _ => [] end) (tasks p).

End Popup.

(* ===================================================================== *)
(** * background.js                                                       *)
(* ===================================================================== *)

Module Background.
Import JS.

(** The calls of the extension API the script makes.  The callback handed
    to [chrome.storage.sync.set] takes no argument and reads nothing: it is
    the calls it makes in its turn. *)
#[warnings="-register-all"]
Inductive api_call : Type :=
| tabs_sendMessage (tabId : value) (message : value)
| storage_sync_set (items : list (jsstring * value)) (callback : list api_call)
| tabs_create (createProperties : value)
| log (args : list value).

(** [v === s] for a string literal [s]. *)
Definition is_string (v : value) (s : jsstring) : bool :=
  match v with
  | VStr t => str_eqb t s
  | _ => false
  end.

(** The listener of [chrome.action.onClicked].  [id], like [action] and
    [url] below, is on no prototype: [Get] reads it. *)
Definition onClicked (tab : value) : completion (list api_call) :=
  cbind (Get tab (lit "id")) (fun id =>
  Normal [tabs_sendMessage id (VObj [(lit "action", VStr (lit "toggleSidebar"))])]).

(** The listener of [chrome.runtime.onInstalled]. *)
Definition onInstalled : list api_call :=
  [storage_sync_set [(lit "memory_enabled", VBool true)]
     [log [VStr (lit "Memory enabled set to true on install/update")]]].

(** The listener of [chrome.runtime.onMessage]. *)
Definition onMessage (request sender : value) : completion (list api_call) :=
  cbind (Get request (lit "action")) (fun action =>
  if is_string action (lit "openDashboard") then
    cbind (Get request (lit "url")) (fun url =>
    Normal [tabs_create (VObj [(lit "url", url)])])
  else Normal []).

(** ** What the calls do

    The part of the browser the calls act on: the synced storage area, the
    messages sent to tabs, the tabs opened and the console. *)
Record extension := mkExtension {
  storage : list (jsstring * value);
  messages : list (value * value);
  tabs : list value;
  console : list (list value)
}.

(** One item written to a storage area: the value of the key is replaced,
    a new key is added. *)
Fixpoint put (key : jsstring) (v : value) (area : list (jsstring * value))
  : list (jsstring * value) :=
  match area with
  | [] => [(key, v)]
  | (k, w) :: rest =>
      if str_eqb k key then (k, v) :: rest else (k, w) :: put key v rest
  end.

Definition put_all (items area : list (jsstring * value)) : list (jsstring * value) :=
  fold_left (fun a item => put (fst item) (snd item) a) items area.

(** A call carried out.  A write to the synced storage may fail, over
    quota for one; [written] tells whether writes go through.  The
    callback runs in both cases. *)
Fixpoint perform (written : bool) (c : api_call) (b : extension) : extension :=
  match c with
  | tabs_sendMessage id message =>
      mkExtension (storage b) (messages b ++ [(id, message)]) (tabs b) (console b)
  | storage_sync_set items callback =>
      let b' := if written
                then mkExtension (put_all items (storage b)) (messages b) (tabs b) (console b)
                else b in
      fold_left (fun b c => perform written c b) callback b'
  | tabs_create properties =>
      mkExtension (storage b) (messages b) (tabs b ++ [properties]) (console b)
  | log args =>
      mkExtension (storage b) (messages b) (tabs b) (console b ++ [args])
  end.

Definition perform_all (written : bool) (calls : list api_call) (b : extension) : extension :=
  fold_left (fun b c => perform written c b) calls b.

End Background.

(* ===================================================================== *)
(** * Properties of the popup                                             *)
(* ===================================================================== *)

Module PopupSpec.
Import JS Browser Popup.

(** ** Vocabulary of the statements *)

(** *** Pages *)

(** The page after [setLoading(true)] and after [setLoading(false)]. *)
Definition loading (u : ui) : ui :=
  set_container [Html loading_markup]
    (set_textContent (lit "Searching...")
       (set_disabled true (set_isSearching true u))).

Definition idle (u : ui) : ui :=
  set_textContent (lit "Search Memories")
    (set_disabled false (set_isSearching false u)).

(** The markup of the error and of the empty state for an escaped text. *)
Definition error_markup (escaped : jsstring) : jsstring :=
  div_open "error" ++ escaped ++ lit "</div>".

Definition empty_markup (escaped : jsstring) : jsstring :=
  div_open "empty-state" ++ escaped ++ lit "</div>".

(** The fixed message of the health check. *)
Definition service_unavailable : jsstring :=
  lit "Memory service is not available. Please make sure it's running on localhost:8000".

(** The page after the [catch] block of [searchMemories]. *)
Definition failed (e : js_error) (u : ui) : ui :=
  set_container
    [Html (error_markup
             (flat_map escape_unit (lit "Failed to search memories: " ++ message e)))]
    (add_log (level_error, [LStr (lit "Error details:"); LStr (message e)])
       (add_log (level_error, [LStr (lit "Error searching memories:"); LErr e]) u)).

(** The page a piece of script that has run to its end leaves once the
    [catch] block has dealt with what it threw. *)
Definition recovered (o : outcome unit) : ui :=
  match o with
  | Thrown e u => failed e u
  | _ => page o
  end.

(** The page with the card [id] painted. *)
Definition painted (id : nat) (colour : jsstring) (u : ui) : ui :=
  set_container (map (paint id colour) (memoriesContainer u)) u.

(** The page after [displayMemories] has put [cards] into the container
    and created [n] elements. *)
Definition displayed (cards : list node) (n : nat) (u : ui) : ui :=
  set_container cards (set_created (created u + n) u).

(** *** Rendering *)

(** The cards [displayMemories] appends for the records [items], the first
    with ordinal [index + 1] and identity [id], up to the first record that
    cannot be rendered, and what that record throws. *)
Fixpoint rendered (items : list value) (index id : nat) : list node * option js_error :=
  match items with
  | [] => ([], None)
  | memory :: rest =>
      match memory_markup memory index with
      | Normal markup =>
          let (cards, e) := rendered rest (S index) (S id) in
          (Card (mkCard id (lit "memory-item") markup [] memory) :: cards, e)
      | Abrupt e => ([], Some e)
      end
  end.

(** The [div] of the record that throws has been created too. *)
Definition thrown_count (e : option js_error) : nat :=
  match e with Some _ => 1 | None => 0 end.

(** The page once [searchMemories] has dealt with the answer [data]: the
    cards, the empty state, or the error message of the [catch] block. *)
Definition shown (data : value) (u : ui) : ui :=
  match has_results data with
  | Normal true =>
      match Get data (lit "results") with
      | Normal results => recovered (displayMemories results u)
      | Abrupt e => failed e u
      end
  | Normal false =>
      set_container
        [Html (empty_markup (lit "No memories found for your search"))] u
  | Abrupt e => failed e u
  end.

(** *** Runs of [searchMemories] *)

(** The error a settlement makes [searchMemories] throw: the rejection of
    the promise, or the status of a response that is not [ok]. *)
Definition settlement_error (ev : io_event) : option js_error :=
  match ev with
  | FetchSettled _ (Abrupt e) => Some e
  | FetchSettled _ (Normal r) =>
      if ok r then None
      else Some (Error (lit "HTTP error! status: " ++ decimal (status r)))
  | JsonSettled _ (Abrupt e) => Some e
  | _ => None
  end.

(** The last settlement of a run. *)
Fixpoint last_settlement (tr : list (io_event * ui)) : option io_event :=
  match tr with
  | [] => None
  | [(ev, _)] => Some ev
  | _ :: rest => last_settlement rest
  end.

(** The page a run was last resumed in, [u] for a run still at its start. *)
Fixpoint last_page (u : ui) (tr : list (io_event * ui)) : ui :=
  match tr with
  | [] => u
  | (_, u1) :: rest => last_page u1 rest
  end.

(** The runs of [searchMemories] from the settlement [r] of a [fetch],
    resumed in the page [u1], up to the parsed answer, which [next] takes
    over: the request is rejected, or the status is not a success, or the
    body is awaited, and then is rejected or read. *)
Definition exchange (r : completion response) (u1 : ui)
    (tr : list (io_event * ui)) (o' : outcome unit)
    (next : value -> ui -> list (io_event * ui) -> Prop) : Prop :=
  match r with
  | Abrupt e => tr = [] /\ o' = Done tt (idle (failed e u1))
  | Normal resp =>
      if ok resp then
        (tr = [] /\ exists k, o' = AwaitJson resp u1 k) \/
        (exists r2 u2 tr2,
           tr = (JsonSettled resp r2, u2) :: tr2 /\
           match r2 with
           | Abrupt e => tr2 = [] /\ o' = Done tt (idle (failed e u2))
           | Normal data => next data u2 tr2
           end)
      else
        tr = [] /\
        o' = Done tt (idle (failed (Error (lit "HTTP error! status: "
                                           ++ decimal (status resp))) u1))
  end.

(** All the runs of [searchMemories query] from the page [u]: where each
    run stands after the settlements [tr], and the page it has left. *)
Definition search_flow (query : jsstring) (u : ui)
    (tr : list (io_event * ui)) (o' : outcome unit) : Prop :=
  if negb (ToBoolean (VStr (trim query))) then
    tr = [] /\
    o' = Done tt (set_container
                    [Html (empty_markup (lit "Please enter a search query"))] u)
  else
    match encodeURIComponent query with
    | Abrupt e => tr = [] /\ o' = Done tt (idle (failed e (loading u)))
    | Normal encoded =>
        (tr = [] /\
         exists k, o' = AwaitFetch (GET (cascading_url encoded)) (loading u) k) \/
        (exists r1 u1 tr1,
           tr = (FetchSettled (GET (cascading_url encoded)) r1, u1) :: tr1 /\
           exchange r1 u1 tr1 o' (fun data u2 tr2 =>
             let u2 := add_log (level_log, [LStr (lit "Cascading API Response:");
                                            LVal data]) u2 in
             match no_results data with
             | Abrupt e => tr2 = [] /\ o' = Done tt (idle (failed e u2))
             | Normal false => tr2 = [] /\ o' = Done tt (idle (shown data u2))
             | Normal true =>
                 let u2 := add_log (level_log,
                   [LStr (lit "No results from cascading, trying semantic search...")])
                   u2 in
                 (tr2 = [] /\
                  exists k, o' = AwaitFetch (GET (semantic_url encoded)) u2 k) \/
                 (exists r3 u3 tr3,
                    tr2 = (FetchSettled (GET (semantic_url encoded)) r3, u3) :: tr3 /\
                    exchange r3 u3 tr3 o' (fun data u4 tr4 =>
                      let u4 := add_log (level_log,
                        [LStr (lit "Semantic API Response:"); LVal data]) u4 in
                      tr4 = [] /\ o' = Done tt (idle (shown data u4))))
             end))
    end.

(** *** Escaped text *)

Fixpoint starts_with (prefix s : jsstring) : bool :=
  match prefix, s with
  | [], _ => true
  | p :: prefix', c :: s' => N.eqb p c && starts_with prefix' s'
  | _ :: _, [] => false
  end.

(** The character reference that follows an ampersand: the character it
    denotes and the number of characters it takes. *)
Definition reference (s : jsstring) : option (code_unit * nat) :=
  if starts_with (lit "amp;") s then Some (38%N, 4)
  else if starts_with (lit "lt;") s then Some (60%N, 3)
  else if starts_with (lit "gt;") s then Some (62%N, 3)
  else if starts_with (lit "nbsp;") s then Some (160%N, 5)
  else None.

(** An escaped text read back: [&amp;], [&lt;], [&gt;] and [&nbsp;] give
    the characters they denote.  [skip] counts the characters of a
    reference still to pass over. *)
Fixpoint decode_references (skip : nat) (s : jsstring) : jsstring :=
  match s with
  | [] => []
  | c :: rest =>
      match skip with
      | S k => decode_references k rest
      | O =>
          if (c =? 38)%N then
            match reference rest with
            | Some (d, n) => d :: decode_references n rest
            | None => c :: decode_references 0 rest
            end
          else c :: decode_references 0 rest
      end
  end.

(** The escaping as the specification words it: only [&], [<] and [>] are
    replaced. *)
Definition escape_three (c : code_unit) : jsstring :=
  (if c =? 38 then lit "&amp;"
   else if c =? 60 then lit "&lt;"
   else if c =? 62 then lit "&gt;"
   else [c])%N.

(** *** Rounded scores *)

(** Rounding to one decimal place, in the words of the specification:
    [n] tenths is the multiple of a tenth nearest to [q], the larger of two
    that are as near; the numeral has a sign, the digits of the integer
    part, a point and one digit.  A value that is not a finite number has
    no such numeral. *)
Definition nearest_tenths (q : Q) (n : Z) : Prop :=
  (inject_Z n - (1 # 2) <= inject_Z 10 * q /\ inject_Z 10 * q < inject_Z n + (1 # 2))%Q.

Definition one_decimal (negative : bool) (n : Z) : jsstring :=
  (if negative then lit "-" else [])
  ++ decimal (Z.to_N (n / 10)) ++ lit "." ++ decimal (Z.to_N (n mod 10)).

Definition rounded_to_one_decimal (x : float) (s : jsstring) : Prop :=
  match Prim2SF x with
  | S754_finite negative m e =>
      exists n, nearest_tenths (dyadic m e) n /\ s = one_decimal negative n
  | S754_zero _ => s = lit "0.0"
  | S754_infinity _ | S754_nan => False
  end.

(** The score shown for a record is its [score] times 100, rounded to one
    decimal place. *)
Definition displays_rounded_score (memory : value) : Prop :=
  forall score x shown,
    Get memory (lit "score") = Normal score ->
    ToNumber score = Normal x ->
    score_percent memory = Normal shown ->
    rounded_to_one_decimal (x * 100)%float shown.

(** *** States of the popup *)

(** A task of the popup is a run, not finished, of one of the three
    coroutines of the script. *)
Definition genuine (t : task) : Prop :=
  task_finished t = false /\
  match t with
  | Search o =>
      exists q u tr, ToBoolean (VStr (trim q)) = true /\ run (searchMemories q u) tr o
  | Check o => exists u tr, run (checkServiceStatus u) tr o
  | Copy o => exists c u tr, run (memory_click c u) tr o
  end.

(** What holds of every state of the popup: its tasks are genuine, and
    [isSearching] tells whether a search is in flight, one at most. *)
Definition consistent (p : popup) : Prop :=
  Forall genuine (tasks p) /\
  length (searches p) = (if isSearching (dom p) then 1 else 0).

(** *** Queries and their encoding *)

(** A string in which every surrogate has its partner, as
    [String.prototype.isWellFormed] tells. *)
Fixpoint well_formed (s : jsstring) : bool :=
  match s with
  | [] => true
  | c :: rest =>
      if is_low_surrogate c then false
      else if is_high_surrogate c then
        match rest with
        | d :: rest' => is_low_surrogate d && well_formed rest'
        | [] => false
        end
      else well_formed rest
  end.

(** Code units are numbers of sixteen bits. *)
Definition utf16 (s : jsstring) : bool := forallb (fun c => (c <? 65536)%N) s.

(** An encoded component read back, as the service reads the query: the
    plain characters and the octets written [%XX], then the code points the
    octets spell in UTF-8, then their code units. *)
Inductive token : Type :=
| Plain (c : code_unit)
| Octet (b : N).

Fixpoint tokens (s : jsstring) : list token :=
  match s with
  | [] => []
  | c :: rest =>
      if (c =? 37)%N then
        match rest with
        | h :: l :: rest' =>
            match digit_value 16 h, digit_value 16 l with
            | Some x, Some y => Octet (16 * x + y) :: tokens rest'
            | _, _ => Plain c :: tokens rest
            end
        | _ => Plain c :: tokens rest
        end
      else Plain c :: tokens rest
  end.

Definition code_point_units (cp : N) : jsstring :=
  (if cp <? 65536 then [cp]
   else [55296 + (cp - 65536) / 1024; 56320 + (cp - 65536) mod 1024])%N.

Fixpoint spell (ts : list token) : jsstring :=
  match ts with
  | [] => []
  | Plain c :: rest => c :: spell rest
  | Octet b :: rest =>
      (if b <? 128 then b :: spell rest
       else if b <? 224 then
         match rest with
         | Octet b2 :: rest' => ((b - 192) * 64 + (b2 - 128)) :: spell rest'
         | _ => []
         end
       else if b <? 240 then
         match rest with
         | Octet b2 :: Octet b3 :: rest' =>
             ((b - 224) * 4096 + (b2 - 128) * 64 + (b3 - 128)) :: spell rest'
         | _ => []
         end
       else
         match rest with
         | Octet b2 :: Octet b3 :: Octet b4 :: rest' =>
             code_point_units ((b - 240) * 262144 + (b2 - 128) * 4096
                               + (b3 - 128) * 64 + (b4 - 128))
             ++ spell rest'
         | _ => []
         end)%N
  end.

Definition read_back (encoded : jsstring) : jsstring := spell (tokens encoded).

(** *** Text without markup *)

(** An angle bracket, and a string that has none. *)
Definition bracket (c : code_unit) : bool := ((c =? 60) || (c =? 62))%N.

Definition bracket_free (s : jsstring) : bool := forallb (fun c => negb (bracket c)) s.

(** *** Records *)

(** A value that is neither an array nor an object. *)
Definition primitive (v : value) : bool :=
  match v with
  | VArr _ | VObj _ => false
  | _ => true
  end.

(** A record whose [chunk_text], [text] and [score] can be read and are
    primitive or missing. *)
Definition plain_field (memory : value) (key : jsstring) : bool :=
  match Get memory key with
  | Normal v => primitive v
  | Abrupt _ => false
  end.

Definition plain_record (memory : value) : bool :=
  plain_field memory (lit "chunk_text") && plain_field memory (lit "text")
  && plain_field memory (lit "score").

(** *** Cards *)

(** The cards in the container, and the texts a run has handed to the
    clipboard: those whose write has settled and the one that is pending. *)
Definition card_of (n : node) : list card :=
  match n with
  | Card c => [c]
  | Html _ => []
  end.

Definition cards (u : ui) : list card := flat_map card_of (memoriesContainer u).

Definition settled_write (step : io_event * ui) : list jsstring :=
  match fst step with
  | ClipboardSettled text _ => [text]
  | _ => []
  end.

Definition pending_write {A} (o : outcome A) : list jsstring :=
  match o with
  | AwaitClipboard text _ _ => [text]
  | _ => []
  end.

Definition clipboard_writes {A} (tr : list (io_event * ui)) (o : outcome A) : list jsstring :=
  flat_map settled_write tr ++ pending_write o.

(** Every card of the container is an element of its own, created before
    now. *)
Definition identified (u : ui) : Prop :=
  NoDup (map uid (cards u)) /\ Forall (fun c => uid c < created u) (cards u).

(** A page in order: the cards are elements of their own, the button is
    disabled exactly when [isSearching] is true and then reads
    [Searching...], and the loading indicator is there only then. *)
Definition tidy (u : ui) : Prop :=
  identified u /\
  searchButton_disabled u = isSearching u /\
  (isSearching u = true -> searchButton_textContent u = lit "Searching...") /\
  (In (Html loading_markup) (memoriesContainer u) -> isSearching u = true).

(** *** The popup opened on a given page *)

Inductive opened_on (u : ui) : popup -> Prop :=
| opened_first : opened_on u (spawn (Check (DOMContentLoaded u)) (mkPopup u []))
| opened_react p p' : opened_on u p -> react p p' -> opened_on u p'.

(** The page as popup.html gives it: the button enabled, no card and no
    loading indicator in the container. *)
Definition fresh_page (u : ui) : Prop :=
  searchButton_disabled u = false /\
  cards u = [] /\
  ~ In (Html loading_markup) (memoriesContainer u).

(** *** Examples *)

(** A page, a query, two records and two services for the examples: the
    popup with an empty container; a service that answers every search
    with the given results, and one that is down. *)
Definition sample_page : ui :=
  mkUI false [] false (lit "Search Memories") [] [] 0.

Definition sample_query : jsstring := lit "cats & dogs".

Definition sample_record : value :=
  VObj [(lit "id", VStr (lit "m-1"));
        (lit "chunk_text", VStr (lit "<script>alert(1)</script>"));
        (lit "score", VNum 0.953)].

Definition textless_record : value :=
  VObj [(lit "id", VStr (lit "m-2")); (lit "score", VNum 0.5)].

Definition service_with (results : list value) : environment :=
  mkEnv (fun _ => Normal (mkResponse 200))
        (fun _ => Normal (VObj [(lit "results", VArr results)]))
        (fun _ => Normal tt).

(** A service that answers every search with the given body; one that
    finds the given results with the fallback only, which it answers with
    the status 201; a card for [sample_record]; the popup opened on
    [sample_page] with [sample_query] typed in, and then with a search in
    flight. *)
Definition service_answering (data : value) : environment :=
  mkEnv (fun _ => Normal (mkResponse 200))
        (fun _ => Normal data)
        (fun _ => Normal tt).

Definition service_with_fallback (results : list value) : environment :=
  mkEnv (fun req =>
           Normal (mkResponse
                     (if starts_with (lit "http://localhost:8000/api/semantic-search")
                                     (url req)
                      then 201 else 200)))
        (fun resp =>
           Normal (VObj [(lit "results",
                          VArr (if (status resp =? 201)%N then results else []))]))
        (fun _ => Normal tt).

Definition sample_card : card :=
  mkCard 0 (lit "memory-item") [] [] sample_record.

Definition opened : popup :=
  spawn (Check (DOMContentLoaded (typed sample_query sample_page)))
        (mkPopup (typed sample_query sample_page) []).

Definition searching : popup :=
  spawn (Search (searchButton_click (dom opened))) opened.

Definition service_down : environment :=
  mkEnv (fun _ => Normal (mkResponse 503))
        (fun _ => Normal VNull)
        (fun _ => Abrupt (mkError (lit "NotAllowedError") (lit "Write permission denied."))).

(** ** The built-ins on examples *)

Example trim_example :
  trim (lit "  cats & dogs" ++ [160%N; 10%N]) = lit "cats & dogs".
Proof. reflexivity. Qed.

Example encodeURIComponent_example :
  encodeURIComponent (lit "cats & dogs" ++ [233%N; 55357%N; 56832%N]) =
  Normal (lit "cats%20%26%20dogs%C3%A9%F0%9F%98%80").
Proof. reflexivity. Qed.

Example encodeURIComponent_lone_surrogate :
  encodeURIComponent [55357%N] = Abrupt URIError_malformed.
Proof. reflexivity. Qed.

Example NumberToString_examples :
  map NumberToString [0.5; 100; 1e21; 1e-7; 123.456; (-1.5); 0x1p-1074; infinity]%float =
  map lit ["0.5"; "100"; "1e+21"; "1e-7"; "123.456"; "-1.5"; "5e-324"; "Infinity"]%string.
Proof. vm_compute. reflexivity. Qed.

Example toFixed1_examples :
  map toFixed1 [0.25; 2.5; 7; (-0.01); 99.95; 1e20; 1e21; nan; neg_zero]%float =
  map lit ["0.3"; "2.5"; "7.0"; "-0.0"; "100.0"; "100000000000000000000.0";
           "1e+21"; "NaN"; "0.0"]%string.
Proof. vm_compute. reflexivity. Qed.

Example StringToNumber_examples :
  map (fun s => NumberToString (StringToNumber (lit s)))
      [" 12 "; ""; "1e3"; ".5"; "0x1F"; "1.8e308"; "-Infinity"; "12px"; "0.953"]%string =
  map lit ["12"; "0"; "1000"; "0.5"; "31"; "Infinity"; "-Infinity"; "NaN"; "0.953"]%string.
Proof. vm_compute. reflexivity. Qed.

Example ToString_examples :
  map ToString [VArr [VNum 1; VNull; VArr [VStr (lit "a"); VBool true]];
                VObj [(lit "id", VNum 1)];
                VObj [(lit "toString", VNum 1)]] =
  [Normal (lit "1,,a,true"); Normal (lit "[object Object]");
   Abrupt (TypeError (lit "Cannot convert object to primitive value"))].
Proof. vm_compute. reflexivity. Qed.

(** ** Strings *)

Lemma trimStart_blank s : forallb is_whitespace s = true -> trimStart s = [].
Proof.
  induction s as [|c s IH]; simpl; [reflexivity|].
  intros H. apply andb_prop in H as [Hc Hs]. rewrite Hc. auto.
Qed.

Lemma trimStart_nil_blank s : trimStart s = [] -> forallb is_whitespace s = true.
Proof.
  induction s as [|c s IH]; simpl; [reflexivity|].
  destruct (is_whitespace c); [auto | discriminate].
Qed.

Lemma trimStart_head s c t : trimStart s = c :: t -> is_whitespace c = false.
Proof.
  induction s as [|d s IH]; simpl; [discriminate|].
  destruct (is_whitespace d) eqn:E; [auto|].
  intros H. injection H as <- _. exact E.
Qed.

Lemma forallb_reverse (A : Type) (f : A -> bool) (l : list A) :
  forallb f (rev l) = forallb f l.
Proof.
  induction l as [|a l IH]; simpl; [reflexivity|].
  rewrite forallb_app, IH. simpl. rewrite andb_true_r. apply andb_comm.
Qed.

(** [query.trim()] is empty exactly for a query of white space only. *)
Lemma trim_nil_iff s : trim s = [] <-> forallb is_whitespace s = true.
Proof.
  unfold trim, trimEnd. split.
  - intros H. apply (f_equal (@rev _)) in H. rewrite rev_involutive in H. simpl in H.
    apply trimStart_nil_blank in H. rewrite forallb_reverse in H.
    destruct (trimStart s) as [|c t] eqn:E.
    + now apply trimStart_nil_blank.
    + apply trimStart_head in E. simpl in H. rewrite E in H. discriminate.
  - intros H. rewrite (trimStart_blank _ H). reflexivity.
Qed.

Lemma blank_falsy q :
  forallb is_whitespace q = true -> ToBoolean (VStr (trim q)) = false.
Proof. intros H. apply trim_nil_iff in H. now rewrite H. Qed.

(** ** Escaping *)

Lemma escapeHtml_value v :
  escapeHtml v = cbind (nullable_DOMString v) (fun t => Normal (flat_map escape_unit t)).
Proof.
  unfold escapeHtml, textContent_set, innerHTML_get.
  destruct (nullable_DOMString v) as [[|c t]|e]; simpl; [reflexivity| |reflexivity].
  now rewrite app_nil_r.
Qed.

Lemma escapeHtml_string s : escapeHtml (VStr s) = Normal (flat_map escape_unit s).
Proof. now rewrite escapeHtml_value. Qed.

Lemma escape_app a b :
  flat_map escape_unit (a ++ b) = flat_map escape_unit a ++ flat_map escape_unit b.
Proof. apply flat_map_app. Qed.

Lemma escape_unit_other c :
  c <> 38%N -> c <> 60%N -> c <> 62%N -> c <> 160%N -> escape_unit c = [c].
Proof.
  intros H1 H2 H3 H4. unfold escape_unit.
  apply N.eqb_neq in H1, H2, H3, H4. now rewrite H1, H2, H3, H4.
Qed.

(** The shape of [escape_unit c]: one of the four references, or [c]. *)
Lemma escape_unit_cases c :
  (c = 38%N /\ escape_unit c = lit "&amp;") \/
  (c = 160%N /\ escape_unit c = lit "&nbsp;") \/
  (c = 60%N /\ escape_unit c = lit "&lt;") \/
  (c = 62%N /\ escape_unit c = lit "&gt;") \/
  (c <> 38%N /\ c <> 60%N /\ c <> 62%N /\ c <> 160%N /\ escape_unit c = [c]).
Proof.
  unfold escape_unit.
  destruct (N.eqb_spec c 38); [subst; auto|].
  destruct (N.eqb_spec c 160); [subst; auto|].
  destruct (N.eqb_spec c 60); [subst; auto 6|].
  destruct (N.eqb_spec c 62); [subst; auto 6|].
  do 4 right. auto.
Qed.

(** No angle bracket survives the escaping. *)
Lemma escape_no_bracket t c :
  In c (flat_map escape_unit t) -> c <> 60%N /\ c <> 62%N.
Proof.
  induction t as [|d t IH]; simpl; [tauto|].
  rewrite in_app_iff. intros [H|H]; [|auto].
  destruct (escape_unit_cases d) as [[-> E]|[[-> E]|[[-> E]|[[-> E]|(_ & N1 & N2 & _ & E)]]]];
    rewrite E in H; simpl in H;
    repeat (destruct H as [<-|H]; [split; congruence|]); tauto.
Qed.

(** Reading the references back gives the text that was escaped. *)
Lemma decode_escape t : decode_references 0 (flat_map escape_unit t) = t.
Proof.
  induction t as [|d t IH]; [reflexivity|].
  cbn [flat_map].
  destruct (escape_unit_cases d) as [[-> E]|[[-> E]|[[-> E]|[[-> E]|(N0 & _ & _ & _ & E)]]]];
    rewrite E.
  1-4: cbn; now rewrite IH.
  cbn [app decode_references]. apply N.eqb_neq in N0. now rewrite N0, IH.
Qed.

(** ** The functions that only touch the page *)

Lemma showError_is message u :
  showError message u =
  Done tt (set_container [Html (error_markup (flat_map escape_unit message))] u).
Proof. unfold showError, bind. now rewrite escapeHtml_string. Qed.

Lemma showEmptyState_is message u :
  showEmptyState message u =
  Done tt (set_container [Html (empty_markup (flat_map escape_unit message))] u).
Proof. unfold showEmptyState, bind. now rewrite escapeHtml_string. Qed.

Lemma setLoading_true_is u : setLoading true u = Done tt (loading u).
Proof. reflexivity. Qed.

Lemma setLoading_false_is u : setLoading false u = Done tt (idle u).
Proof. reflexivity. Qed.

Lemma search_failed_is e u : search_failed e u = Done tt (failed e u).
Proof.
  unfold search_failed, bind. cbn [console_error update obind].
  now rewrite showError_is.
Qed.

(** ** Runs of a coroutine *)

Lemma run_done_inv A (a : A) u tr o' :
  run (Done a u) tr o' -> tr = [] /\ o' = Done a u.
Proof.
  intros H. inversion H; subst; [auto|].
  match goal with R : resume _ _ _ _ |- _ => inversion R end.
Qed.

Lemma run_thrown_inv A e u tr (o' : outcome A) :
  run (Thrown e u) tr o' -> tr = [] /\ o' = Thrown e u.
Proof.
  intros H. inversion H; subst; [auto|].
  match goal with R : resume _ _ _ _ |- _ => inversion R end.
Qed.

Lemma run_fetch_inv A req u k tr (o' : outcome A) :
  run (AwaitFetch req u k) tr o' ->
  (tr = [] /\ o' = AwaitFetch req u k) \/
  exists r u' tr', tr = (FetchSettled req r, u') :: tr' /\ run (k r u') tr' o'.
Proof.
  intros H. inversion H; subst; [auto|].
  match goal with R : resume _ _ _ _ |- _ => inversion R; subst end.
  right. eauto.
Qed.

Lemma run_json_inv A resp u k tr (o' : outcome A) :
  run (AwaitJson resp u k) tr o' ->
  (tr = [] /\ o' = AwaitJson resp u k) \/
  exists r u' tr', tr = (JsonSettled resp r, u') :: tr' /\ run (k r u') tr' o'.
Proof.
  intros H. inversion H; subst; [auto|].
  match goal with R : resume _ _ _ _ |- _ => inversion R; subst end.
  right. eauto.
Qed.

Lemma run_clipboard_inv A text u k tr (o' : outcome A) :
  run (AwaitClipboard text u k) tr o' ->
  (tr = [] /\ o' = AwaitClipboard text u k) \/
  exists r u' tr', tr = (ClipboardSettled text r, u') :: tr' /\ run (k r u') tr' o'.
Proof.
  intros H. inversion H; subst; [auto|].
  match goal with R : resume _ _ _ _ |- _ => inversion R; subst end.
  right. eauto.
Qed.

Lemma run_timeout_inv A ms u k tr (o' : outcome A) :
  run (AwaitTimeout ms u k) tr o' ->
  (tr = [] /\ o' = AwaitTimeout ms u k) \/
  exists u' tr', tr = (TimeoutFired ms, u') :: tr' /\ run (k u') tr' o'.
Proof.
  intros H. inversion H; subst; [auto|].
  match goal with R : resume _ _ _ _ |- _ => inversion R; subst end.
  right. eauto.
Qed.

(** A run against an environment is a run, and it reaches the end: a
    coroutine is a finite tree, so it finishes once its calls settle. *)
Lemma exec_run A env (o : outcome A) :
  run o (fst (exec env o)) (snd (exec env o)) /\ finished (snd (exec env o)) = true.
Proof.
  induction o as [a u|e u|req u k IH|resp u k IH|text u k IH|ms u k IH]; cbn [exec].
  - split; [constructor | reflexivity].
  - split; [constructor | reflexivity].
  - specialize (IH (on_fetch env req) u). destruct (exec env (k (on_fetch env req) u)).
    destruct IH as [IH1 IH2]. split; [|exact IH2].
    eapply run_step; [constructor | exact IH1].
  - specialize (IH (on_json env resp) u). destruct (exec env (k (on_json env resp) u)).
    destruct IH as [IH1 IH2]. split; [|exact IH2].
    eapply run_step; [constructor | exact IH1].
  - specialize (IH (on_clipboard env text) u). destruct (exec env (k (on_clipboard env text) u)).
    destruct IH as [IH1 IH2]. split; [|exact IH2].
    eapply run_step; [constructor | exact IH1].
  - specialize (IH u). destruct (exec env (k u)).
    destruct IH as [IH1 IH2]. split; [|exact IH2].
    eapply run_step; [constructor | exact IH1].
Qed.


(** Symbolic execution inside a hypothesis [H : run o tr o']: unfold the
    monad, run the functions that only touch the page, and let the pending
    call settle. *)
Ltac crunch H :=
  unfold bind, try_catch, try_finally, eval, fetch, json, writeText,
         setTimeout, ret, throw, read, update, console_log, console_error in H;
  cbn [obind ocatch ofinally negb] in H.

Ltac sync H :=
  repeat progress
    (crunch H;
     rewrite ?search_failed_is, ?showError_is, ?showEmptyState_is,
             ?setLoading_true_is, ?setLoading_false_is in H).

Ltac trace_eq E :=
  first [ discriminate E
        | match type of E with
          | ?x = _ => is_var x; subst x
          | _ => inversion E; subst; clear E
          end ].

Tactic Notation "settle" hyp(H) "as" ident(r) ident(u) ident(tr) :=
  sync H;
  let E := fresh "E" in
  let E' := fresh "E" in
  lazymatch type of H with
  | run (Done _ _) _ _ => apply run_done_inv in H as [E E']; trace_eq E
  | run (Thrown _ _) _ _ => apply run_thrown_inv in H as [E E']; trace_eq E
  | run (AwaitFetch _ _ _) _ _ =>
      apply run_fetch_inv in H as [[E E']|(r & u & tr & E & H)]; trace_eq E
  | run (AwaitJson _ _ _) _ _ =>
      apply run_json_inv in H as [[E E']|(r & u & tr & E & H)]; trace_eq E
  | run (AwaitClipboard _ _ _) _ _ =>
      apply run_clipboard_inv in H as [[E E']|(r & u & tr & E & H)]; trace_eq E
  | run (AwaitTimeout _ _ _) _ _ =>
      apply run_timeout_inv in H as [[E E']|(u & tr & E & H)]; trace_eq E
  end;
  try (cbv beta in H; sync H).

Tactic Notation "settle" hyp(H) :=
  let r := fresh "r" in
  let u := fresh "u" in
  let tr := fresh "tr" in
  settle H as r u tr.

(** ** [displayMemories] *)

Lemma ui_eq (u v : ui) :
  isSearching u = isSearching v ->
  searchInput_value u = searchInput_value v ->
  searchButton_disabled u = searchButton_disabled v ->
  searchButton_textContent u = searchButton_textContent v ->
  memoriesContainer u = memoriesContainer v ->
  console u = console v ->
  created u = created v ->
  u = v.
Proof. destruct u, v; cbn; intros; subst; reflexivity. Qed.

Lemma displayMemory_is memory index u :
  displayMemory memory index u =
  match memory_markup memory index with
  | Normal markup =>
      Done tt (displayed (memoriesContainer u
                          ++ [Card (mkCard (created u) (lit "memory-item") markup [] memory)])
                         1 u)
  | Abrupt e => Thrown e (displayed (memoriesContainer u) 1 u)
  end.
Proof.
  unfold displayMemory, bind, read, update, eval. cbn [obind].
  destruct (memory_markup memory index); cbn [obind]; f_equal;
    apply ui_eq; cbn; auto using Nat.add_1_r.
Qed.

Lemma forEach_is items : forall index u,
  forEach items index displayMemory u =
  let (cards, e) := rendered items index (created u) in
  let u' := displayed (memoriesContainer u ++ cards) (length cards + thrown_count e) u in
  match e with
  | None => Done tt u'
  | Some e => Thrown e u'
  end.
Proof.
  induction items as [|memory rest IH]; intros index u.
  - cbn. unfold ret. f_equal. apply ui_eq; cbn; auto using app_nil_r.
  - cbn [forEach rendered]. unfold bind. rewrite displayMemory_is.
    destruct (memory_markup memory index) as [markup|e]; cbn [obind].
    + rewrite IH. cbn [displayed set_container set_created created memoriesContainer].
      rewrite (Nat.add_1_r (created u)).
      destruct (rendered rest (S index) (S (created u))) as [cards [e|]];
        cbn [length thrown_count]; f_equal; apply ui_eq; cbn;
        rewrite <- ?app_assoc; auto; lia.
    + cbn. f_equal. apply ui_eq; cbn; auto using app_nil_r.
Qed.

Lemma displayMemories_array items u :
  displayMemories (VArr items) u =
  let (cards, e) := rendered items 0 (created u) in
  let u' := displayed cards (length cards + thrown_count e) u in
  match e with
  | None => Done tt u'
  | Some e => Thrown e u'
  end.
Proof.
  unfold displayMemories, bind, update. cbn [obind container_of_markup].
  rewrite forEach_is.
  cbn [set_container created memoriesContainer app].
  destruct (rendered items 0 (created u)) as [cards [e|]]; f_equal; apply ui_eq; reflexivity.
Qed.

(** [displayMemories] never waits: it finishes, or throws, at once. *)
Lemma displayMemories_finished v u : finished (displayMemories v u) = true.
Proof.
  destruct v; try reflexivity.
  rewrite displayMemories_array.
  now destruct (rendered items 0 (created u)) as [cards [e|]].
Qed.

(** After [displayMemories] the container holds cards only. *)
Lemma rendered_cards items : forall index id n,
  In n (fst (rendered items index id)) -> exists c, n = Card c.
Proof.
  induction items as [|memory rest IH]; intros index id n; cbn; [tauto|].
  destruct (memory_markup memory index) as [markup|e]; [|cbn; tauto].
  specialize (IH (S index) (S id) n).
  destruct (rendered rest (S index) (S id)) as [cards e]. cbn in *.
  intros [<-|H]; eauto.
Qed.

Lemma displayMemories_container v u :
  exists cards,
    memoriesContainer (page (displayMemories v u)) = cards /\
    memoriesContainer (recovered (displayMemories v u)) <> [Html loading_markup] /\
    (forall n, In n cards -> exists c, n = Card c).
Proof.
  eexists. split; [reflexivity|].
  destruct v; try (split; [discriminate | cbn; tauto]).
  rewrite displayMemories_array.
  pose proof (rendered_cards items 0 (created u)) as H.
  destruct (rendered items 0 (created u)) as [cards [e|]]; cbn in *.
  - split; [discriminate | exact H].
  - split; [|exact H]. intros E. destruct (H (Html loading_markup)) as [c Hc]; [|discriminate].
    rewrite E. now left.
Qed.

(** The card at each position: the record at that position of the array,
    its markup for that index, a fresh identity. *)
Lemma rendered_nth items : forall index id i n,
  nth_error (fst (rendered items index id)) i = Some n ->
  exists memory markup,
    nth_error items i = Some memory /\
    memory_markup memory (index + i) = Normal markup /\
    n = Card (mkCard (id + i) (lit "memory-item") markup [] memory).
Proof.
  induction items as [|memory rest IH]; intros index id i n; cbn.
  - destruct i; discriminate.
  - destruct (memory_markup memory index) as [markup|e] eqn:E.
    2:{ destruct i; discriminate. }
    specialize (IH (S index) (S id)).
    destruct (rendered rest (S index) (S id)) as [cards e]. cbn in *.
    destruct i as [|i]; cbn.
    + intros [= <-]. exists memory, markup. rewrite !Nat.add_0_r. auto.
    + intros H. apply IH in H as (m & h & H1 & H2 & H3).
      exists m, h. rewrite <- !plus_n_Sm. auto.
Qed.

(** Every record is rendered unless one of them throws. *)
Lemma rendered_length items : forall index id,
  snd (rendered items index id) = None ->
  length (fst (rendered items index id)) = length items.
Proof.
  induction items as [|memory rest IH]; intros index id; cbn; [reflexivity|].
  destruct (memory_markup memory index) as [markup|e]; [|discriminate].
  specialize (IH (S index) (S id)).
  destruct (rendered rest (S index) (S id)) as [cards e]. cbn in *.
  intros H. now rewrite IH.
Qed.

(** ** The flow of [searchMemories] *)

(** The last stage, from the answer to the idle page, does not wait. *)
Ltac render H data :=
  sync H; unfold shown;
  destruct (has_results data) as [[|]|?e]; sync H;
  [ destruct (Get data (lit "results")) as [?results|?e]; sync H;
    [ match type of H with
      | context [displayMemories ?v ?u] =>
          pose proof (displayMemories_finished v u);
          destruct (displayMemories v u); try discriminate; sync H
      end | ]
  | | ];
  apply run_done_inv in H as [-> ->]; cbn [recovered page];
  repeat match goal with a : unit |- _ => destruct a end; auto.

Lemma searchMemories_flow q u tr o' :
  run (searchMemories q u) tr o' -> search_flow q u tr o'.
Proof.
  intros H. unfold search_flow, searchMemories in *.
  destruct (ToBoolean (VStr (trim q))); cbn [negb] in *.
  2:{ settle H. auto. }
  destruct (encodeURIComponent q) as [enc|e]; [|settle H; auto].
  settle H as r1 u1 tr1; [left; eauto|]. right. exists r1, u1, tr1. split; [reflexivity|].
  unfold exchange.
  destruct r1 as [resp|e]; [|settle H; auto].
  sync H. destruct (ok resp); [|settle H; auto].
  settle H as r2 u2 tr2; [left; eauto|]. right. exists r2, u2, tr2. split; [reflexivity|].
  destruct r2 as [data|e]; [|settle H; auto].
  sync H. cbv zeta.
  destruct (no_results data) as [[|]|e]; [| render H data | settle H; auto].
  settle H as r3 u3 tr3; [left; eauto|]. right. exists r3, u3, tr3. split; [reflexivity|].
  destruct r3 as [resp3|e]; [|settle H; auto].
  sync H. destruct (ok resp3); [|settle H; auto].
  settle H as r4 u4 tr4; [left; eauto|]. right. exists r4, u4, tr4. split; [reflexivity|].
  destruct r4 as [data4|e]; [|settle H; auto].
  render H data4.
Qed.

(** Case analysis on [H : search_flow q u tr o'], unfolded: one goal for
    each place where a run can stand. *)
Ltac flow_cases H :=
  repeat
    match type of H with
    | exchange ?r _ _ _ _ => unfold exchange in H; destruct r as [?resp|?e]
    | (if ok ?resp then _ else _) => destruct (ok resp) eqn:?Hok
    | _ \/ _ => destruct H as [[-> [?k ->]]|(?r & ?u & ?tr & -> & H)]
    | _ /\ _ => destruct H as [-> ->]
    | match no_results ?data with _ => _ end =>
        destruct (no_results data) as [[|]|?e] eqn:?Hno
    | match encodeURIComponent ?q with _ => _ end =>
        destruct (encodeURIComponent q) as [?encoded|?e] eqn:?Henc
    | match ?r with Normal _ => _ | Abrupt _ => _ end => destruct r as [?data|?e]
    | _ => progress cbv zeta in H
    end.


(** ** The search flow *)

Lemma missing_or_empty_results data :
  Get data (lit "results") = Normal VUndefined \/
  Get data (lit "results") = Normal (VArr []) ->
  no_results data = Normal true.
Proof. unfold no_results. now intros [-> | ->]. Qed.

Lemma some_results data first more :
  Get data (lit "results") = Normal (VArr (first :: more)) ->
  no_results data = Normal false /\ has_results data = Normal true.
Proof. unfold no_results, has_results. now intros ->. Qed.

(** C1.  A search whose primary request to [/api/cascading-retrieval]
    succeeds (the response is [ok] and its body parses to [data]) but whose
    [data.results] is missing or is an empty array sends exactly one more
    request, to [/api/semantic-search], with the same percent-encoded query,
    and none after it: however far the run has got, the requests sent are
    these two, each a [GET] with the header [Content-Type:
    application/json], the first to
    [http://localhost:8000/api/cascading-retrieval?text_query=] and the
    second to [http://localhost:8000/api/semantic-search?text_query=],
    followed by the encoded query. *)
Theorem fallback_called_once q u tr o' req resp resp' data u1 u2 rest :
  run (searchMemories q u) tr o' ->
  tr = (FetchSettled req (Normal resp), u1)
       :: (JsonSettled resp' (Normal data), u2) :: rest ->
  ok resp = true ->
  Get data (lit "results") = Normal VUndefined \/
  Get data (lit "results") = Normal (VArr []) ->
  exists encoded,
    encodeURIComponent q = Normal encoded /\
    requests tr o' =
      [mkRequest (lit "http://localhost:8000/api/cascading-retrieval?text_query=" ++ encoded)
                 (lit "GET") [(lit "Content-Type", lit "application/json")];
       mkRequest (lit "http://localhost:8000/api/semantic-search?text_query=" ++ encoded)
                 (lit "GET") [(lit "Content-Type", lit "application/json")]].
Proof.
  intros H -> Hok Hres. apply missing_or_empty_results in Hres.
  apply searchMemories_flow in H. unfold search_flow in H.
  destruct (negb (ToBoolean (VStr (trim q)))); [destruct H; discriminate|].
  destruct (encodeURIComponent q) as [enc|e]; [|destruct H; discriminate].
  exists enc. split; [reflexivity|].
  destruct H as [[? _]|(r1 & v1 & tr1 & [= -> <- <- <-] & H)]; [discriminate|].
  unfold exchange in H. rewrite Hok in H.
  destruct H as [[? _]|(r2 & v2 & tr2 & [= <- <- <- <-] & H)]; [discriminate|].
  cbv zeta in H. rewrite Hres in H.
  flow_cases H; reflexivity.
Qed.


(** When the fallback finds nothing either, the empty state is shown and
    nothing more is sent. *)
Lemma both_empty_shows_empty_state q u tr o' encoded resp resp' u1 u2 u3 u4 :
  run (searchMemories q u) tr o' ->
  tr = [(FetchSettled (GET (cascading_url encoded)) (Normal resp), u1);
        (JsonSettled resp (Normal (VObj [(lit "results", VArr [])])), u2);
        (FetchSettled (GET (semantic_url encoded)) (Normal resp'), u3);
        (JsonSettled resp' (Normal (VObj [(lit "results", VArr [])])), u4)] ->
  ok resp = true ->
  ok resp' = true ->
  exists u',
    o' = Done tt u' /\
    memoriesContainer u' =
    [Html (div_open "empty-state" ++ lit "No memories found for your search" ++ lit "</div>")] /\
    isSearching u' = false.
Proof.
  intros H -> Hok Hok'.
  apply searchMemories_flow in H. unfold search_flow in H.
  destruct (negb (ToBoolean (VStr (trim q)))); [destruct H; discriminate|].
  destruct (encodeURIComponent q) as [enc|e]; [|destruct H; discriminate].
  destruct H as [[? _]|(r1 & v1 & tr1 & [= _ <- <- <-] & H)]; [discriminate|].
  unfold exchange in H. rewrite Hok in H.
  destruct H as [[? _]|(r2 & v2 & tr2 & [= <- <- <-] & H)]; [discriminate|].
  cbv zeta in H. cbn [no_results Get own str_eqb lit cbind] in H.
  change (no_results (VObj [(lit "results", VArr [])])) with (Normal true) in H.
  destruct H as [[? _]|(r3 & v3 & tr3 & [= _ <- <- <-] & H)]; [discriminate|].
  rewrite Hok' in H.
  destruct H as [[? _]|(r4 & v4 & tr4 & [= <- <- <-] & H)]; [discriminate|].
  destruct H as [_ ->]. eexists. split; [reflexivity|]. split; reflexivity.
Qed.

(** A body that is the JSON value [null] has no [results] to read: the
    read throws, the error is shown, and no fallback request is sent. *)
Lemma null_answer_is_an_error q u tr o' req resp resp' u1 u2 rest :
  run (searchMemories q u) tr o' ->
  tr = (FetchSettled req (Normal resp), u1)
       :: (JsonSettled resp' (Normal VNull), u2) :: rest ->
  ok resp = true ->
  rest = [] /\
  requests tr o' = [req] /\
  memoriesContainer (page o') =
  [Html (div_open "error"
         ++ lit "Failed to search memories: Cannot read properties of null (reading 'results')"
         ++ lit "</div>")].
Proof.
  intros H -> Hok.
  apply searchMemories_flow in H. unfold search_flow in H.
  destruct (negb (ToBoolean (VStr (trim q)))); [destruct H; discriminate|].
  destruct (encodeURIComponent q) as [enc|e]; [|destruct H; discriminate].
  destruct H as [[? _]|(r1 & v1 & tr1 & [= -> <- <- <-] & H)]; [discriminate|].
  unfold exchange in H. rewrite Hok in H.
  destruct H as [[? _]|(r2 & v2 & tr2 & [= <- <- <- <-] & H)]; [discriminate|].
  cbv zeta in H. change (no_results VNull) with
    (@Abrupt bool (TypeError (lit "Cannot read properties of null (reading '"
                              ++ lit "results" ++ lit "')"))) in H.
  destruct H as [-> ->]. repeat split.
Qed.

(** ** Back to idle *)

Lemma failed_container e u :
  memoriesContainer (failed e u) =
  [Html (error_markup (lit "Failed to search memories: "
                       ++ flat_map escape_unit (message e)))].
Proof. unfold failed. now rewrite escape_app. Qed.

Lemma failed_not_loading e u :
  ~ In (Html loading_markup) (memoriesContainer (failed e u)).
Proof. cbn. intros [[=]|[]]. Qed.

Lemma shown_not_loading data u :
  ~ In (Html loading_markup) (memoriesContainer (shown data u)).
Proof.
  unfold shown.
  destruct (has_results data) as [[|]|e]; try apply failed_not_loading.
  - destruct (Get data (lit "results")) as [results|e]; try apply failed_not_loading.
    destruct (displayMemories_container results u) as (cards & Hc & _ & Hcards).
    destruct (displayMemories results u) eqn:D; cbn [recovered page] in *;
      try apply failed_not_loading;
      intros Hin; rewrite Hc in Hin; apply Hcards in Hin as [c Hin]; discriminate.
  - cbn. intros [[=]|[]].
Qed.

Lemma idle_failed_container e u :
  memoriesContainer (idle (failed e u)) =
  [Html (div_open "error" ++ lit "Failed to search memories: "
         ++ flat_map escape_unit (message e) ++ lit "</div>")].
Proof.
  change (memoriesContainer (idle (failed e u))) with (memoriesContainer (failed e u)).
  rewrite failed_container. unfold error_markup. now rewrite <- app_assoc.
Qed.


(** ** The listeners *)

(** What a click on the search button sends. *)
Lemma click_request u :
  pending_request (searchButton_click u) =
  if isSearching u then []
  else if ToBoolean (VStr (trim (searchInput_value u))) then
    match encodeURIComponent (searchInput_value u) with
    | Normal encoded => [GET (cascading_url encoded)]
    | Abrupt _ => []
    end
  else [].
Proof.
  unfold searchButton_click, bind, read. cbn [obind].
  destruct (isSearching u); [reflexivity|]. cbn [negb obind].
  unfold searchMemories.
  destruct (ToBoolean (VStr (trim (searchInput_value u)))); cbn [negb].
  2:{ now rewrite showEmptyState_is. }
  unfold bind, try_finally, try_catch. rewrite setLoading_true_is. cbn [obind].
  destruct (encodeURIComponent (searchInput_value u)) as [encoded|e];
    unfold eval, fetch; cbn [obind ocatch ofinally]; [reflexivity|].
  rewrite search_failed_is. cbn [ofinally]. now rewrite setLoading_false_is.
Qed.

(** C7.  A query that is empty or made of white space only is never
    dispatched: [searchMemories] ends at once, with no call pending, on the
    page it started from but for the container, which shows the empty-state
    message.  So a click or an Enter on the idle popup sends no request and
    leaves [isSearching] false and the button as it was. *)
Theorem blank_query_not_dispatched u :
  isSearching u = false ->
  forallb is_whitespace (searchInput_value u) = true ->
  let prompt :=
    [Html (div_open "empty-state" ++ lit "Please enter a search query" ++ lit "</div>")] in
  (forall q v, forallb is_whitespace q = true ->
               searchMemories q v = Done tt (set_container prompt v)) /\
  searchButton_click u = Done tt (set_container prompt u) /\
  searchInput_keypress (lit "Enter") u = Done tt (set_container prompt u) /\
  (forall tr o', run (searchButton_click u) tr o' -> requests tr o' = []) /\
  isSearching (set_container prompt u) = false /\
  searchButton_disabled (set_container prompt u) = searchButton_disabled u /\
  searchButton_textContent (set_container prompt u) = searchButton_textContent u.
Proof.
  intros Hidle Hblank prompt.
  assert (Hsearch : forall q v, forallb is_whitespace q = true ->
                      searchMemories q v = Done tt (set_container prompt v)).
  { intros q v Hq. unfold searchMemories. rewrite (blank_falsy _ Hq). cbn [negb].
    now rewrite showEmptyState_is. }
  assert (Hclick : searchButton_click u = Done tt (set_container prompt u)).
  { unfold searchButton_click, bind, read. cbn [obind]. rewrite Hidle. cbn [negb obind].
    now apply Hsearch. }
  split; [exact Hsearch|]. split; [exact Hclick|]. split; [|split].
  - unfold searchInput_keypress, bind, read. cbn [obind]. rewrite Hidle.
    cbn [str_eqb lit andb negb obind]. now apply Hsearch.
  - intros tr o' H. rewrite Hclick in H. apply run_done_inv in H as [-> ->]. reflexivity.
  - repeat split. exact Hidle.
Qed.

(** ** The health check *)

Lemma checkServiceStatus_flow u tr o' :
  run (checkServiceStatus u) tr o' ->
  (tr = [] /\ exists k, o' = AwaitFetch (GET test_url) u k) \/
  exists r u1,
    tr = [(FetchSettled (GET test_url) r, u1)] /\
    o' = match r with
         | Abrupt e =>
             Done false
               (set_container
                  [Html (div_open "error" ++ service_unavailable ++ lit "</div>")]
                  (add_log (level_error,
                            [LStr (lit "Memory service is not available:"); LErr e]) u1))
         | Normal resp =>
             Done (ok resp)
               (add_log (level_log,
                         [LStr (if ok resp then lit "Memory service is running"
                                else lit "Memory service responded but with error")]) u1)
         end.
Proof.
  intros H. unfold checkServiceStatus in H.
  settle H as r u1 tr1; [left; eauto|]. right. exists r, u1.
  destruct r as [resp|e].
  - sync H. destruct (ok resp); settle H; auto.
  - settle H. auto.
Qed.

(** C6, as the specification has it, fails: a response whose status is not
    a success does not bring up the error message.  With the status 500
    the container stays as it was, empty here. *)
Lemma health_check_http_error_is_silent :
  ~ (forall resp u u1 o',
       ok resp = false ->
       run (checkServiceStatus u) [(FetchSettled (GET test_url) (Normal resp), u1)] o' ->
       memoriesContainer (page o') =
       [Html (div_open "error" ++ service_unavailable ++ lit "</div>")]).
Proof.
  intros claim.
  specialize (claim (mkResponse 500) sample_page sample_page).
  specialize (claim _ eq_refl (run_step (resume_fetch _ _ _ _ _) (run_here _))).
  discriminate claim.
Qed.

(** C6, amended.  The health check [GET /api/test] brings up its fixed
    error message only when the request itself fails; an answer, whatever
    its status, is only logged and leaves the page as it is.  In no case
    does the check touch [isSearching], the query or the button, so a click
    after the check sends what it would have sent without it. *)
Theorem health_check_is_advisory u tr o' :
  run (checkServiceStatus u) tr o' ->
  finished o' = true ->
  exists r u1,
    tr = [(FetchSettled (GET test_url) r, u1)] /\
    match r with
    | Abrupt e =>
        o' = Done false
               (set_container
                  [Html (div_open "error" ++ service_unavailable ++ lit "</div>")]
                  (add_log (level_error,
                            [LStr (lit "Memory service is not available:"); LErr e]) u1))
    | Normal resp =>
        o' = Done (ok resp)
               (add_log (level_log,
                         [LStr (if ok resp then lit "Memory service is running"
                                else lit "Memory service responded but with error")]) u1)
    end /\
    isSearching (page o') = isSearching u1 /\
    searchInput_value (page o') = searchInput_value u1 /\
    searchButton_disabled (page o') = searchButton_disabled u1 /\
    searchButton_textContent (page o') = searchButton_textContent u1 /\
    pending_request (searchButton_click (page o')) = pending_request (searchButton_click u1).
Proof.
  intros H Hfin.
  apply checkServiceStatus_flow in H as [[-> [k ->]]|(r & u1 & -> & ->)]; [discriminate|].
  exists r, u1. split; [reflexivity|].
  rewrite !click_request.
  destruct r as [resp|e]; cbn [page]; repeat split.
Qed.

(** ** Escaping of what is shown *)

(** C9, as the specification has it, fails: [escapeHtml] does not leave
    every character other than [&], [<] and [>] unchanged.  The no-break
    space U+00A0 comes out as [&nbsp;]. *)
Lemma escapeHtml_rewrites_nbsp :
  escapeHtml (VStr [160%N]) = Normal (lit "&nbsp;") /\
  escapeHtml (VStr [160%N]) <> Normal (flat_map escape_three [160%N]).
Proof. split; [reflexivity | discriminate]. Qed.

(** C9, amended.  For every string [escapeHtml] replaces [&], [<], [>]
    and the no-break space U+00A0 by [&amp;], [&lt;], [&gt;] and [&nbsp;]
    and leaves every other character, the double and the single quote
    among them, as it is; [showError] and [showEmptyState] put their
    message into the container escaped in this way. *)
Theorem escapeHtml_replaces_four s u :
  escapeHtml (VStr s) = Normal (flat_map escape_unit s) /\
  escape_unit 38%N = lit "&amp;" /\
  escape_unit 60%N = lit "&lt;" /\
  escape_unit 62%N = lit "&gt;" /\
  escape_unit 160%N = lit "&nbsp;" /\
  (forall c, c <> 38%N -> c <> 60%N -> c <> 62%N -> c <> 160%N -> escape_unit c = [c]) /\
  escape_unit 34%N = [34%N] /\
  escape_unit 39%N = [39%N] /\
  showError s u =
    Done tt (set_container
               [Html (div_open "error" ++ flat_map escape_unit s ++ lit "</div>")] u) /\
  showEmptyState s u =
    Done tt (set_container
               [Html (div_open "empty-state" ++ flat_map escape_unit s ++ lit "</div>")] u).
Proof.
  split; [apply escapeHtml_string|].
  do 4 (split; [reflexivity|]).
  split; [exact escape_unit_other|].
  do 2 (split; [reflexivity|]).
  split; [apply showError_is | apply showEmptyState_is].
Qed.

(** The text of a card is never [null] or [undefined]: the placeholder is
    a non-empty string. *)
Lemma memory_text_truthy memory text :
  memory_text memory (lit "No text available") = Normal text ->
  ToBoolean text = true.
Proof.
  unfold memory_text, or_else.
  destruct (Get memory (lit "chunk_text")) as [a|e]; cbn [cbind]; [|discriminate].
  destruct (ToBoolean a) eqn:Ha; [now intros [= <-]|].
  destruct (Get memory (lit "text")) as [b|e]; cbn [cbind]; [|discriminate].
  destruct (ToBoolean b) eqn:Hb; now intros [= <-].
Qed.

Lemma truthy_DOMString text :
  ToBoolean text = true -> nullable_DOMString text = ToString text.
Proof. destruct text; (discriminate || reflexivity). Qed.

(** The parts of the markup of a card. *)
Lemma memory_markup_parts memory index markup :
  memory_markup memory index = Normal markup ->
  exists text t score x,
    memory_text memory (lit "No text available") = Normal text /\
    ToBoolean text = true /\
    ToString text = Normal t /\
    Get memory (lit "score") = Normal score /\
    ToNumber score = Normal x /\
    markup = card_markup (flat_map escape_unit t) (toFixed1 (x * 100)%float)
                         (decimal (N.of_nat (index + 1))).
Proof.
  unfold memory_markup, score_percent.
  destruct (memory_text memory (lit "No text available")) as [text|e] eqn:Htext;
    cbn [cbind]; [|discriminate].
  pose proof (memory_text_truthy _ Htext) as Htruthy.
  rewrite escapeHtml_value, (truthy_DOMString _ Htruthy).
  destruct (ToString text) as [t|e] eqn:Ht; cbn [cbind]; [|discriminate].
  destruct (Get memory (lit "score")) as [score|e] eqn:Hs; cbn [cbind]; [|discriminate].
  destruct (ToNumber score) as [x|e] eqn:Hx; cbn [cbind]; [|discriminate].
  intros [= <-]. exists text, t, score, x.
  repeat split; assumption || reflexivity.
Qed.

(** The card at a position of the container after [displayMemories]. *)
Lemma displayMemories_nth memories u i n :
  nth_error (memoriesContainer (page (displayMemories memories u))) i = Some n ->
  exists items memory markup,
    memories = VArr items /\
    nth_error items i = Some memory /\
    memory_markup memory i = Normal markup /\
    n = Card (mkCard (created u + i) (lit "memory-item") markup [] memory).
Proof.
  destruct memories; try (destruct i; discriminate).
  rewrite displayMemories_array.
  pose proof (@rendered_nth items 0 (created u) i n) as H.
  destruct (rendered items 0 (created u)) as [cards [e|]]; cbn [page fst] in *;
    intros Hn; change (memoriesContainer (displayed cards _ u)) with cards in Hn;
    apply H in Hn as (memory & markup & H1 & H2 & H3); eauto 7.
Qed.

(** C3.  Every record rendered into the container shows its text
    escaped.  The text is [chunk_text] if that is truthy, else [text] if
    that is truthy, else the placeholder; the markup of the card holds it
    with [&], [<] and [>] replaced by character references, so that no
    angle bracket of the text survives and reading the references back
    gives the text itself: [<script>] is shown, not run.  The escaped text
    is the whole content of the [div] of class [memory-text] with which the
    markup of the card begins; the [div] of class [memory-meta] with the
    score and the ordinal follows it. *)
Theorem rendered_text_is_escaped memories u n :
  In n (memoriesContainer (page (displayMemories memories u))) ->
  exists c index text t score,
    n = Card c /\
    memory_text (memory c) (lit "No text available") = Normal text /\
    (forall a b,
       Get (memory c) (lit "chunk_text") = Normal a ->
       Get (memory c) (lit "text") = Normal b ->
       text = if ToBoolean a then a
              else if ToBoolean b then b
              else VStr (lit "No text available")) /\
    ToString text = Normal t /\
    innerHTML c =
      [10%N] ++ lit "        <div class=" ++ [34%N] ++ lit "memory-text" ++ [34%N] ++ lit ">"
      ++ flat_map escape_unit t ++ lit "</div>"
      ++ [10%N] ++ lit "        <div class=" ++ [34%N] ++ lit "memory-meta" ++ [34%N] ++ lit ">"
      ++ [10%N] ++ lit "          <span>Score: " ++ score ++ lit "%</span>"
      ++ [10%N] ++ lit "          <span>Memory #" ++ decimal (N.of_nat (index + 1)) ++ lit "</span>"
      ++ [10%N] ++ lit "        </div>"
      ++ [10%N] ++ lit "      " /\
    (forall x, In x (flat_map escape_unit t) -> x <> 60%N /\ x <> 62%N) /\
    decode_references 0 (flat_map escape_unit t) = t /\
    escapeHtml (VStr (lit "<script>alert(1)</script>")) =
      Normal (lit "&lt;script&gt;alert(1)&lt;/script&gt;").
Proof.
  intros Hin. apply In_nth_error in Hin as [i Hi].
  apply displayMemories_nth in Hi as (items & memory & markup & -> & Hm & Hmarkup & ->).
  apply memory_markup_parts in Hmarkup as (text & t & score & x & Ht & _ & Hs & _ & _ & ->).
  eexists _, i, text, t, _. split; [reflexivity|].
  cbn [Browser.memory Browser.innerHTML].
  split; [exact Ht|]. split.
  { intros a b Ha Hb. unfold memory_text, or_else in Ht. rewrite Ha, Hb in Ht.
    cbn [cbind] in Ht. destruct (ToBoolean a); [now injection Ht|].
    destruct (ToBoolean b); now injection Ht. }
  split; [exact Hs|]. split; [reflexivity|].
  split; [intros c; apply escape_no_bracket|].
  split; [apply decode_escape | reflexivity].
Qed.

(** ** The score and the ordinal of a card *)

Lemma nearest_tenth_is_nearest m e : nearest_tenths (dyadic m e) (nearest_tenth m e).
Proof.
  unfold nearest_tenths, nearest_tenth.
  set (d := (inject_Z 10 * dyadic m e)%Q).
  pose proof (Qfloor_le (d + (1 # 2))) as Hle.
  pose proof (Qlt_floor (d + (1 # 2))) as Hlt.
  rewrite inject_Z_plus in Hlt.
  set (n := inject_Z (Qfloor (d + (1 # 2)))) in *.
  change (inject_Z 1) with 1%Q in Hlt.
  split; lra.
Qed.

(** Below ten to the twenty-first [toFixed(1)] writes the rounded value
    in decimal notation. *)
Lemma toFixed1_rounds x negative m e :
  Prim2SF x = S754_finite negative m e ->
  (dyadic m e < Qpow10 21)%Q ->
  toFixed1 x = one_decimal negative (nearest_tenth m e) /\
  rounded_to_one_decimal x (toFixed1 x).
Proof.
  intros Hx Hlt.
  assert (E : toFixed1 x = one_decimal negative (nearest_tenth m e)).
  { unfold toFixed1. rewrite Hx.
    destruct (Qle_bool (Qpow10 21) (dyadic m e)) eqn:Hle; [|reflexivity].
    apply Qle_bool_imp_le in Hle. lra. }
  split; [exact E|].
  unfold rounded_to_one_decimal. rewrite Hx.
  exists (nearest_tenth m e). split; [apply nearest_tenth_is_nearest | exact E].
Qed.

Lemma toFixed1_zero x negative :
  Prim2SF x = S754_zero negative ->
  toFixed1 x = lit "0.0" /\ rounded_to_one_decimal x (toFixed1 x).
Proof.
  intros Hx. unfold rounded_to_one_decimal, toFixed1. rewrite Hx. auto.
Qed.

Lemma one_decimal_has_point negative n : In 46%N (one_decimal negative n).
Proof.
  unfold one_decimal. rewrite !in_app_iff. right. right. left. now left.
Qed.

(** C8, as the specification has it, fails for some records: a score of
    ten to the nineteenth is shown as [1e+21%], in exponent notation and not
    with one decimal place, and a record without a score is shown [NaN%]. *)
Lemma huge_or_missing_score_is_not_rounded :
  (score_percent (VObj [(lit "score", VNum 1e19)]) = Normal (lit "1e+21") /\
   ~ displays_rounded_score (VObj [(lit "score", VNum 1e19)])) /\
  (score_percent (VObj []) = Normal (lit "NaN") /\
   ~ displays_rounded_score (VObj [])).
Proof.
  assert (E1 : score_percent (VObj [(lit "score", VNum 1e19)]) = Normal (lit "1e+21"))
    by (vm_compute; reflexivity).
  assert (E2 : score_percent (VObj []) = Normal (lit "NaN"))
    by (vm_compute; reflexivity).
  split; (split; [assumption|]); intros claim.
  - specialize (claim (VNum 1e19) 1e19%float (lit "1e+21") eq_refl eq_refl E1).
    unfold rounded_to_one_decimal in claim.
    destruct (Prim2SF (1e19 * 100)) eqn:P; vm_compute in P; try discriminate P.
    destruct claim as (n & _ & E).
    pose proof (one_decimal_has_point s n) as Hin. rewrite <- E in Hin.
    vm_compute in Hin. intuition discriminate.
  - specialize (claim VUndefined nan (lit "NaN") eq_refl eq_refl E2).
    unfold rounded_to_one_decimal in claim.
    destruct (Prim2SF (nan * 100)) eqn:P; vm_compute in P; try discriminate P.
    exact claim.
Qed.

(** The template of a card, around the score and the ordinal. *)
Lemma card_markup_score text score ordinal :
  exists before after,
    card_markup text score ordinal =
    before ++ lit "<span>Score: " ++ score ++ lit "%</span>"
    ++ after ++ lit "<span>Memory #" ++ ordinal ++ lit "</span>" ++ newline
    ++ lit "        </div>" ++ newline ++ lit "      ".
Proof.
  exists (newline ++ lit "        " ++ div_open "memory-text" ++ text ++ lit "</div>"
          ++ newline ++ lit "        " ++ div_open "memory-meta"
          ++ newline ++ lit "          "),
         (newline ++ lit "          ").
  unfold card_markup.
  change (lit "          <span>Score: ") with (lit "          " ++ lit "<span>Score: ").
  change (lit "          <span>Memory #") with (lit "          " ++ lit "<span>Memory #").
  now rewrite <- !app_assoc.
Qed.

(** C8, amended.  The card at position [i] of the container shows the
    ordinal [i + 1] and, followed by [%], what [toFixed(1)] gives for the
    score times 100.  Whenever that product is a finite number below ten to
    the twenty-first in magnitude, this is the product rounded to one
    decimal place; a score of 0.953 is shown as [95.3%]. *)
Theorem score_is_percentage memories u i n :
  nth_error (memoriesContainer (page (displayMemories memories u))) i = Some n ->
  exists c text score x before after,
    n = Card c /\
    Get (memory c) (lit "score") = Normal score /\
    ToNumber score = Normal x /\
    innerHTML c =
      card_markup text (toFixed1 (x * 100)) (decimal (N.of_nat (i + 1))) /\
    innerHTML c =
      before ++ lit "<span>Score: " ++ toFixed1 (x * 100) ++ lit "%</span>"
      ++ after ++ lit "<span>Memory #" ++ decimal (N.of_nat (i + 1)) ++ lit "</span>"
      ++ newline ++ lit "        </div>" ++ newline ++ lit "      " /\
    (forall negative m e,
       Prim2SF (x * 100) = S754_finite negative m e ->
       (dyadic m e < Qpow10 21)%Q ->
       rounded_to_one_decimal (x * 100) (toFixed1 (x * 100))) /\
    (forall negative,
       Prim2SF (x * 100) = S754_zero negative ->
       rounded_to_one_decimal (x * 100) (toFixed1 (x * 100))) /\
    toFixed1 (0.953 * 100) = lit "95.3".
Proof.
  intros Hn.
  apply displayMemories_nth in Hn as (items & memory & markup & -> & Hm & Hmarkup & ->).
  apply memory_markup_parts in Hmarkup as (text & t & score & x & _ & _ & _ & Hs & Hx & ->).
  destruct (card_markup_score (flat_map escape_unit t) (toFixed1 (x * 100))
              (decimal (N.of_nat (i + 1)))) as (before & after & Hshape).
  eexists _, (flat_map escape_unit t), score, x, before, after.
  split; [reflexivity|]. cbn [Browser.memory Browser.innerHTML].
  split; [exact Hs|]. split; [exact Hx|]. split; [reflexivity|]. split; [exact Hshape|].
  split; [intros negative m e H1 H2; now apply (toFixed1_rounds _ H1)|].
  split; [intros negative H1; now apply (toFixed1_zero _ H1)|].
  vm_compute. reflexivity.
Qed.

(** ** Copying a card *)

(** All the runs of the click listener of a card whose text converts to
    the string [s]. *)
Lemma memory_click_flow c u tr o' text s :
  memory_text (memory c) [] = Normal text ->
  ToString text = Normal s ->
  run (memory_click c u) tr o' ->
  (tr = [] /\ exists k, o' = AwaitClipboard s u k) \/
  (exists err u1,
     tr = [(ClipboardSettled s (Abrupt err), u1)] /\
     o' = Done tt (add_log (level_error,
                            [LStr (lit "Failed to copy text: "); LErr err]) u1)) \/
  (exists u1 k,
     tr = [(ClipboardSettled s (Normal tt), u1)] /\
     o' = AwaitTimeout 500 (painted (uid c) (lit "#34a853") u1) k) \/
  (exists u1 u2,
     tr = [(ClipboardSettled s (Normal tt), u1); (TimeoutFired 500, u2)] /\
     o' = Done tt (painted (uid c) [] u2)).
Proof.
  intros Htext Hs H. unfold memory_click in H. rewrite Htext in H.
  sync H. rewrite Hs in H.
  settle H as r u1 tr1; [left; eauto|]. right.
  destruct r as [[]|err].
  - settle H as r2 u2 tr2; [right; left; eauto|].
    settle H. right. right. eauto.
  - settle H. left. eauto.
Qed.


(** ** One search at a time *)

Lemma run_snoc A (o o1 o2 : outcome A) tr ev u1 :
  run o tr o1 -> resume o1 ev u1 o2 -> run o (tr ++ [(ev, u1)]) o2.
Proof.
  induction 1 as [o|o e u' o1 tr o3 Hr Hrun IH]; intros H; cbn.
  - eapply run_step; [exact H | constructor].
  - eapply run_step; [exact Hr | auto].
Qed.

Lemma last_page_snoc u tr ev u1 : last_page u (tr ++ [(ev, u1)]) = u1.
Proof.
  revert u. induction tr as [|[ev' u'] tr IH]; intros u; cbn; auto.
Qed.

(** [searchMemories] lowers the flag when it finishes, and leaves it as
    it finds it while it waits. *)
Lemma search_flag q u tr o' :
  ToBoolean (VStr (trim q)) = true ->
  run (searchMemories q u) tr o' ->
  isSearching (page o') =
  if finished o' then false
  else match tr with [] => true | _ :: _ => isSearching (last_page u tr) end.
Proof.
  intros Hq H.
  apply searchMemories_flow in H. unfold search_flow in H.
  rewrite Hq in H. cbn [negb] in H.
  flow_cases H; reflexivity.
Qed.

(** The health check and the copy of a card never write the flag. *)
Lemma check_flag u tr o' :
  run (checkServiceStatus u) tr o' ->
  isSearching (page o') = isSearching (last_page u tr).
Proof.
  intros H.
  apply checkServiceStatus_flow in H as [[-> [k ->]]|(r & u1 & -> & ->)];
    [reflexivity|].
  now destruct r.
Qed.

Lemma copy_flag c u tr o' :
  run (memory_click c u) tr o' ->
  isSearching (page o') = isSearching (last_page u tr).
Proof.
  intros H. unfold memory_click in H.
  destruct (memory_text (memory c) []) as [text|e]; [|settle H; subst; reflexivity].
  sync H. destruct (ToString text) as [s|e]; [|settle H; subst; reflexivity].
  settle H as r u1 tr1; [subst; reflexivity|].
  destruct r as [[]|err]; [|settle H; subst; reflexivity].
  settle H as r2 u2 tr2; [subst; reflexivity|].
  settle H. subst. reflexivity.
Qed.

(** A submission from the idle popup: nothing stays behind, or a search
    is in flight with the flag up. *)
Lemma submission u o :
  o = searchButton_click u \/ (exists key, o = searchInput_keypress key u) ->
  if isSearching u then o = Done tt u
  else (finished o = true /\ isSearching (page o) = false) \/
       (finished o = false /\ isSearching (page o) = true /\ genuine (Search o)).
Proof.
  intros Ho.
  assert (Hsearch : forall q,
            (finished (searchMemories q u) = true /\
             isSearching (page (searchMemories q u)) = isSearching u /\
             ToBoolean (VStr (trim q)) = false) \/
            (ToBoolean (VStr (trim q)) = true)).
  { intros q. destruct (ToBoolean (VStr (trim q))) eqn:Hq; [now right|left].
    unfold searchMemories. rewrite Hq. cbn [negb]. now rewrite showEmptyState_is. }
  assert (Hstart : forall q,
            ToBoolean (VStr (trim q)) = true ->
            isSearching (page (searchMemories q u)) =
            if finished (searchMemories q u) then false else true)
    by (intros q Hq; exact (@search_flag q u [] _ Hq (run_here _))).
  destruct (isSearching u) eqn:Hbusy.
  - destruct Ho as [->|[key ->]];
      unfold searchButton_click, searchInput_keypress, bind, read; cbn [obind];
      now rewrite Hbusy, ?andb_false_r.
  - assert (Ho' : o = Done tt u \/ o = searchMemories (searchInput_value u) u).
    { destruct Ho as [->|[key ->]];
        unfold searchButton_click, searchInput_keypress, bind, read; cbn [obind];
        rewrite Hbusy; cbn [negb]; [now right|].
      destruct (str_eqb key (lit "Enter")); cbn [andb obind]; auto. }
    destruct Ho' as [->| ->]; [left; auto|].
    destruct (Hsearch (searchInput_value u)) as [(Hf & Hflag & _)|Hq].
    + left. split; [exact Hf | now rewrite Hflag].
    + specialize (Hstart _ Hq).
      destruct (finished (searchMemories (searchInput_value u) u)) eqn:Hf.
      * left. auto.
      * right. repeat split; auto. exists (searchInput_value u), u, [].
        split; [exact Hq | constructor].
Qed.

(** Every state of the popup is consistent. *)
Lemma reachable_consistent p : reachable p -> consistent p.
Proof.
  induction 1 as [u|p p' Hreach [Hgen Hcount] Hreact].
  - (* the popup opens *)
    split.
    + repeat constructor. exists (set_isSearching false u), []. apply run_here.
    + reflexivity.
  - destruct Hreact as [p text|p|p key|p c Hc|p before t after ev t' Htasks Hres].
    + (* typing *) split; [exact Hgen | exact Hcount].
    + (* click *)
      pose proof (@submission (dom p) _ (or_introl eq_refl)) as Hs.
      unfold consistent, spawn, searches, still_waiting in *. cbn [dom tasks task_finished task_page].
      rewrite flat_map_app, length_app, Forall_app.
      destruct (isSearching (dom p)) eqn:Hbusy.
      * rewrite Hs. cbn. rewrite Hbusy, Nat.add_0_r. auto.
      * destruct Hs as [[Hf Hflag]|(Hf & Hflag & Hg)]; rewrite Hf, Hflag; cbn;
          rewrite Hcount; auto.
    + (* key press *)
      pose proof (@submission (dom p) _ (or_intror (ex_intro _ key eq_refl))) as Hs.
      unfold consistent, spawn, searches, still_waiting in *. cbn [dom tasks task_finished task_page].
      rewrite flat_map_app, length_app, Forall_app.
      destruct (isSearching (dom p)) eqn:Hbusy.
      * rewrite Hs. cbn. rewrite Hbusy, Nat.add_0_r. auto.
      * destruct Hs as [[Hf Hflag]|(Hf & Hflag & Hg)]; rewrite Hf, Hflag; cbn;
          rewrite Hcount; auto.
    + (* click on a card *)
      pose proof (@copy_flag c (dom p) [] _ (run_here _)) as Hflag. cbn in Hflag.
      unfold consistent, spawn, searches, still_waiting in *. cbn [dom tasks task_finished task_page].
      rewrite flat_map_app, length_app, Forall_app, Hflag.
      destruct (finished (memory_click c (dom p))) eqn:Hf; cbn; rewrite Nat.add_0_r.
      * auto.
      * split; [|exact Hcount]. split; [exact Hgen|].
        repeat constructor; [exact Hf|]. exists c, (dom p), []. constructor.
    + (* a call settles *)
      unfold consistent, searches, still_waiting in *. cbn [dom tasks].
      rewrite Htasks in *. apply Forall_app in Hgen as [Hb Ha].
      inversion Ha as [|t0 after0 [Hunf Ht] Hafter]; subst.
      rewrite !flat_map_app, !length_app in *. cbn [flat_map] in Hcount.
      rewrite !Forall_app.
      destruct Hres as [o ev u o' Hres|o ev u o' Hres|o ev u o' Hres];
        cbn [task_finished task_page] in *.
      * (* of the search *)
        destruct Ht as (q & u0 & tr & Hq & Hrun).
        pose proof (run_snoc Hrun Hres) as Hrun'.
        pose proof (@search_flag _ _ _ _ Hq Hrun') as Hflag.
        rewrite last_page_snoc in Hflag.
        assert (Hone : isSearching u = true /\
                       length (flat_map (fun t => match t with Search o => [o] | _ => [] end) before) = 0 /\
                       length (flat_map (fun t => match t with Search o => [o] | _ => [] end) after) = 0).
        { cbn [length app] in Hcount. destruct (isSearching u); [repeat split; lia | lia]. }
        destruct Hone as (Hbusy & Hb0 & Ha0).
        destruct (finished o') eqn:Hf.
        -- rewrite Hflag. cbn. split; [auto|]. lia.
        -- assert (Hflag' : isSearching (page o') = true).
           { rewrite Hflag. destruct (tr ++ [(ev, u)]) eqn:E; [|exact Hbusy].
             destruct tr; discriminate. }
           rewrite Hflag'. cbn. split; [|lia].
           repeat split; auto. constructor; [|constructor].
           split; [exact Hf|]. exists q, u0, (tr ++ [(ev, u)]). auto.
      * (* of the health check *)
        destruct Ht as (u0 & tr & Hrun).
        pose proof (@check_flag _ _ _ (run_snoc Hrun Hres)) as Hflag.
        rewrite last_page_snoc in Hflag. rewrite Hflag.
        cbn [app length] in Hcount.
        destruct (finished o') eqn:Hf; cbn; (split; [|exact Hcount]).
        -- auto.
        -- repeat split; auto. constructor; [|constructor].
           split; [exact Hf|]. exists u0, (tr ++ [(ev, u)]).
           exact (run_snoc Hrun Hres).
      * (* of a copy *)
        destruct Ht as (c & u0 & tr & Hrun).
        pose proof (@copy_flag _ _ _ _ (run_snoc Hrun Hres)) as Hflag.
        rewrite last_page_snoc in Hflag. rewrite Hflag.
        cbn [app length] in Hcount.
        destruct (finished o') eqn:Hf; cbn; (split; [|exact Hcount]).
        -- auto.
        -- repeat split; auto. constructor; [|constructor].
           split; [exact Hf|]. exists c, u0, (tr ++ [(ev, u)]).
           exact (run_snoc Hrun Hres).
Qed.

(** C4.  While a search is in flight a further submission is ignored.
    On a page where [isSearching] is true a click on the search button or a
    key press in the input, Enter or not, ends at once on the unchanged page
    and no run of it sends a request.  And in every state of the popup
    [isSearching] is true exactly when a search is in flight, one at most:
    the click or the key press then leaves the popup, its page and its
    pending calls, as it is. *)
Theorem second_submission_ignored key :
  (forall u,
     isSearching u = true ->
     searchButton_click u = Done tt u /\
     searchInput_keypress key u = Done tt u /\
     (forall tr o', run (searchButton_click u) tr o' -> requests tr o' = [] /\ page o' = u) /\
     (forall tr o', run (searchInput_keypress key u) tr o' -> requests tr o' = [] /\ page o' = u)) /\
  (forall p,
     reachable p ->
     length (searches p) <= 1 /\
     (searches p <> [] <-> isSearching (dom p) = true) /\
     (searches p <> [] ->
      spawn (Search (searchButton_click (dom p))) p = p /\
      spawn (Search (searchInput_keypress key (dom p))) p = p)).
Proof.
  assert (Hbusy : forall u, isSearching u = true ->
            searchButton_click u = Done tt u /\ searchInput_keypress key u = Done tt u).
  { intros u Hu.
    pose proof (@submission u _ (or_introl eq_refl)) as Hclick.
    pose proof (@submission u _ (or_intror (ex_intro _ key eq_refl))) as Hkey.
    rewrite Hu in Hclick, Hkey. auto. }
  split.
  - intros u Hu. destruct (Hbusy u Hu) as [Hclick Hkey].
    split; [exact Hclick|]. split; [exact Hkey|].
    split; intros tr o' H; rewrite ?Hclick, ?Hkey in H;
      apply run_done_inv in H as [-> ->]; split; reflexivity.
  - intros p Hp. apply reachable_consistent in Hp as [_ Hcount].
    split; [destruct (isSearching (dom p)); lia|].
    assert (Hiff : searches p <> [] <-> isSearching (dom p) = true).
    { destruct (searches p), (isSearching (dom p)); cbn in Hcount; split;
        congruence || discriminate || auto. }
    split; [exact Hiff|].
    intros Hflight. apply Hiff in Hflight.
    destruct (Hbusy _ Hflight) as [Hclick Hkey].
    unfold spawn, still_waiting. rewrite Hclick, Hkey. cbn.
    rewrite app_nil_r. now destruct p.
Qed.

(** ** The statements at work

    Each theorem above that has a premise, applied to a search for
    [sample_query] from [sample_page]. *)

Lemma fallback_called_once_witness :
  requests (fst (exec (service_with []) (searchMemories sample_query sample_page)))
           (snd (exec (service_with []) (searchMemories sample_query sample_page)))
  = [mkRequest
       (lit "http://localhost:8000/api/cascading-retrieval?text_query=cats%20%26%20dogs")
       (lit "GET") [(lit "Content-Type", lit "application/json")];
     mkRequest
       (lit "http://localhost:8000/api/semantic-search?text_query=cats%20%26%20dogs")
       (lit "GET") [(lit "Content-Type", lit "application/json")]].
Proof.
  destruct (@fallback_called_once sample_query sample_page _ _ _ _ _ _ _ _ _
              (proj1 (exec_run (service_with []) _)) eq_refl eq_refl
              (or_intror eq_refl))
    as (encoded & Henc & Hreq).
  vm_compute in Henc. injection Henc as <-. exact Hreq.
Defined.


Lemma rendered_text_is_escaped_witness :
  exists c t,
    In (Card c) (memoriesContainer
                   (page (displayMemories (VArr [sample_record]) sample_page))) /\
    ToString (VStr (lit "<script>alert(1)</script>")) = Normal t /\
    innerHTML c =
      [10%N] ++ lit "        <div class=" ++ [34%N] ++ lit "memory-text" ++ [34%N] ++ lit ">"
      ++ lit "&lt;script&gt;alert(1)&lt;/script&gt;" ++ lit "</div>"
      ++ [10%N] ++ lit "        <div class=" ++ [34%N] ++ lit "memory-meta" ++ [34%N] ++ lit ">"
      ++ [10%N] ++ lit "          <span>Score: " ++ lit "95.3" ++ lit "%</span>"
      ++ [10%N] ++ lit "          <span>Memory #" ++ lit "1" ++ lit "</span>"
      ++ [10%N] ++ lit "        </div>"
      ++ [10%N] ++ lit "      " /\
    decode_references 0 (flat_map escape_unit t) = t.
Proof.
  pose (c0 := mkCard 0 (lit "memory-item")
                ([10%N] ++ lit "        <div class=" ++ [34%N] ++ lit "memory-text" ++ [34%N] ++ lit ">"
                 ++ lit "&lt;script&gt;alert(1)&lt;/script&gt;" ++ lit "</div>"
                 ++ [10%N] ++ lit "        <div class=" ++ [34%N] ++ lit "memory-meta" ++ [34%N] ++ lit ">"
                 ++ [10%N] ++ lit "          <span>Score: " ++ lit "95.3" ++ lit "%</span>"
                 ++ [10%N] ++ lit "          <span>Memory #" ++ lit "1" ++ lit "</span>"
                 ++ [10%N] ++ lit "        </div>"
                 ++ [10%N] ++ lit "      ")
                [] sample_record).
  assert (Hin : In (Card c0)
                   (memoriesContainer
                      (page (displayMemories (VArr [sample_record]) sample_page))))
    by (vm_compute; left; reflexivity).
  destruct (rendered_text_is_escaped _ _ _ Hin)
    as (c & index & text & t & score & Hc & Htext & _ & Ht & _ & _ & Hback & _).
  injection Hc as <-.
  vm_compute in Htext. injection Htext as <-.
  exists c0, t. repeat split; [exact Hin | exact Ht | exact Hback].
Defined.

Lemma second_submission_ignored_witness :
  isSearching (loading sample_page) = true /\
  searchButton_click (loading sample_page) = Done tt (loading sample_page) /\
  searchInput_keypress (lit "Enter") (loading sample_page) = Done tt (loading sample_page).
Proof.
  split; [reflexivity|].
  destruct (second_submission_ignored (lit "Enter")) as [Hflag _].
  destruct (Hflag (loading sample_page) eq_refl) as (Hclick & Hkey & _).
  exact (conj Hclick Hkey).
Defined.


Lemma health_check_is_advisory_witness :
  exists u',
    snd (exec service_down (checkServiceStatus sample_page)) = Done false u' /\
    memoriesContainer u' = memoriesContainer sample_page /\
    isSearching u' = false.
Proof.
  destruct (@health_check_is_advisory sample_page _ _
              (proj1 (exec_run service_down _)) eq_refl)
    as (r & u1 & Htr & Hend & Hflag & _).
  injection Htr as <- <-. cbn in Hend.
  eexists. split; [exact Hend|]. split; reflexivity.
Defined.

Lemma blank_query_not_dispatched_witness :
  searchButton_click (typed (lit "   ") sample_page) =
  Done tt (set_container
             [Html (div_open "empty-state" ++ lit "Please enter a search query" ++ lit "</div>")]
             (typed (lit "   ") sample_page)).
Proof.
  destruct (@blank_query_not_dispatched (typed (lit "   ") sample_page) eq_refl eq_refl)
    as (_ & Hclick & _).
  exact Hclick.
Defined.

Lemma score_is_percentage_witness :
  exists c,
    nth_error (memoriesContainer
                 (page (displayMemories (VArr [textless_record; sample_record]) sample_page)))
              1 = Some (Card c) /\
    innerHTML c =
      card_markup (lit "&lt;script&gt;alert(1)&lt;/script&gt;") (lit "95.3") (lit "2") /\
    rounded_to_one_decimal (0.953 * 100) (lit "95.3").
Proof.
  pose (c0 := mkCard 1 (lit "memory-item")
                (card_markup (lit "&lt;script&gt;alert(1)&lt;/script&gt;")
                             (lit "95.3") (lit "2"))
                [] sample_record).
  assert (Hnth : nth_error
                   (memoriesContainer
                      (page (displayMemories (VArr [textless_record; sample_record])
                                             sample_page)))
                   1 = Some (Card c0))
    by (vm_compute; reflexivity).
  destruct (score_is_percentage _ _ _ Hnth)
    as (c & text & score & x & before & after & Hc & Hscore & Hx & _ & _ & Hround & _).
  injection Hc as <-.
  vm_compute in Hscore. injection Hscore as <-.
  vm_compute in Hx. injection Hx as <-.
  exists c0. split; [exact Hnth|]. split; [reflexivity|].
  assert (Hshown : toFixed1 (0.953 * 100) = lit "95.3") by (vm_compute; reflexivity).
  rewrite <- Hshown.
  eapply Hround; [vm_compute; reflexivity | vm_compute; reflexivity].
Defined.

Lemma escapeHtml_replaces_four_witness :
  escape_unit 34%N = [34%N] /\ escape_unit 39%N = [39%N] /\ escape_unit 8364%N = [8364%N].
Proof.
  destruct (escapeHtml_replaces_four [] sample_page) as (_ & _ & _ & _ & _ & Hother & _).
  repeat split; apply Hother; discriminate.
Defined.


(** ** The query in the request *)

Lemma unescaped_not_surrogate c :
  uri_unescaped c = true ->
  is_low_surrogate c = false /\ is_high_surrogate c = false /\ (c <? 128)%N = true /\ c <> 37%N.
Proof.
  unfold uri_unescaped, is_low_surrogate, is_high_surrogate. intros H.
  assert (Hc : (c <= 126)%N).
  { repeat match type of H with
           | (_ || _)%bool = true => apply orb_prop in H as [H|H]
           | (_ && _)%bool = true => apply andb_prop in H as [? H]
           end;
      rewrite ?N.leb_le, ?N.eqb_eq in *; lia. }
  repeat split.
  - apply andb_false_iff. left. apply N.leb_gt. lia.
  - apply andb_false_iff. left. apply N.leb_gt. lia.
  - apply N.ltb_lt. lia.
  - intros ->. discriminate H.
Qed.

(** [encodeURIComponent] throws for a string with a lone surrogate, and
    for no other. *)
Lemma encodeURIComponent_well_formed n : forall s,
  length s <= n ->
  if well_formed s then exists encoded, encodeURIComponent s = Normal encoded
  else encodeURIComponent s = Abrupt URIError_malformed.
Proof.
  induction n as [|n IH]; intros [|c rest] Hlen; cbn in Hlen; try lia.
  - cbn. eauto.
  - cbn. eauto.
  - cbn [well_formed encodeURIComponent].
    assert (Hrest : length rest <= n) by lia.
    pose proof (IH rest Hrest) as IHrest.
    destruct (uri_unescaped c) eqn:Hu.
    + destruct (unescaped_not_surrogate _ Hu) as (-> & -> & _).
      destruct (well_formed rest); [destruct IHrest as [e ->]; cbn; eauto|].
      now rewrite IHrest.
    + destruct (is_low_surrogate c); [reflexivity|].
      destruct (is_high_surrogate c).
      * destruct rest as [|d rest']; [reflexivity|].
        destruct (is_low_surrogate d); [|reflexivity]. cbn [andb].
        assert (Hrest' : length rest' <= n) by (cbn in Hrest; lia).
        specialize (IH rest' Hrest').
        destruct (well_formed rest'); [destruct IH as [e ->]; cbn; eauto|].
        now rewrite IH.
      * destruct (well_formed rest); [destruct IHrest as [e ->]; cbn; eauto|].
        now rewrite IHrest.
Qed.

Ltac Zify.zify_post_hook ::= Z.to_euclidean_division_equations.

Lemma hex_digit_reads n :
  (n < 16)%N ->
  uri_unescaped (hex_digit n) = true /\ digit_value 16 (hex_digit n) = Some n.
Proof.
  intros H. unfold hex_digit, uri_unescaped, digit_value.
  destruct (N.ltb_spec n 10) as [Hd|Hd].
  - split.
    + rewrite !orb_true_iff, !andb_true_iff, !N.leb_le, !N.eqb_eq. lia.
    + replace ((48 <=? 48 + n) && (48 + n <=? 57))%N with true
        by (symmetry; rewrite andb_true_iff, !N.leb_le; lia).
      replace (48 + n - 48 <? 16)%N with true by (symmetry; apply N.ltb_lt; lia).
      f_equal. lia.
  - split.
    + rewrite !orb_true_iff, !andb_true_iff, !N.leb_le, !N.eqb_eq. lia.
    + replace ((48 <=? 55 + n) && (55 + n <=? 57))%N with false
        by (symmetry; rewrite andb_false_iff, !N.leb_gt; lia).
      replace ((97 <=? 55 + n) && (55 + n <=? 102))%N with false
        by (symmetry; rewrite andb_false_iff, !N.leb_gt; lia).
      replace ((65 <=? 55 + n) && (55 + n <=? 70))%N with true
        by (symmetry; rewrite andb_true_iff, !N.leb_le; lia).
      replace (55 + n - 55 <? 16)%N with true by (symmetry; apply N.ltb_lt; lia).
      f_equal. lia.
Qed.

Lemma utf8_octets cp :
  (cp < 1114112)%N -> Forall (fun b => (b < 256)%N) (utf8 cp).
Proof.
  intros H. unfold utf8.
  destruct (N.ltb_spec cp 128); [|destruct (N.ltb_spec cp 2048); [|destruct (N.ltb_spec cp 65536)]];
    repeat (apply Forall_cons; [lia|]); apply Forall_nil.
Qed.

Lemma code_unit_is_code_point c : (c <? 65536)%N = true -> (c < 1114112)%N.
Proof. intros H. apply N.ltb_lt in H. lia. Qed.

Lemma pair_is_code_point c d :
  is_high_surrogate c = true -> is_low_surrogate d = true ->
  let cp := ((c - 55296) * 1024 + (d - 56320) + 65536)%N in
  (65536 <= cp < 1114112)%N /\ code_point_units cp = [c; d].
Proof.
  intros Hc Hd cp. unfold is_high_surrogate, is_low_surrogate in Hc, Hd.
  apply andb_prop in Hc as [Hc1 Hc2]. apply andb_prop in Hd as [Hd1 Hd2].
  rewrite N.leb_le in *.
  assert (Hcp : (65536 <= cp < 1114112)%N) by (unfold cp; lia).
  split; [exact Hcp|]. unfold code_point_units.
  destruct (N.ltb_spec cp 65536); [lia|].
  f_equal; [|f_equal]; unfold cp; lia.
Qed.

Lemma tokens_percent b r : (b < 256)%N -> tokens (percent b ++ r) = Octet b :: tokens r.
Proof.
  intros H. unfold percent.
  change (tokens ([37%N; hex_digit (b / 16); hex_digit (b mod 16)] ++ r))
    with (match digit_value 16 (hex_digit (b / 16)), digit_value 16 (hex_digit (b mod 16)) with
          | Some x, Some y => Octet (16 * x + y) :: tokens r
          | _, _ => Plain 37%N :: tokens (hex_digit (b / 16) :: hex_digit (b mod 16) :: r)
          end).
  destruct (@hex_digit_reads (b / 16)) as [_ ->]; [lia|].
  destruct (@hex_digit_reads (b mod 16)) as [_ ->]; [lia|].
  f_equal. f_equal. lia.
Qed.

Lemma tokens_octets bs r :
  Forall (fun b => (b < 256)%N) bs ->
  tokens (flat_map percent bs ++ r) = map Octet bs ++ tokens r.
Proof.
  induction 1 as [|b bs Hb _ IH]; [reflexivity|].
  cbn [flat_map map app]. rewrite <- app_assoc, tokens_percent, IH; auto.
Qed.

Lemma tokens_plain c r : c <> 37%N -> tokens (c :: r) = Plain c :: tokens r.
Proof. intros H. cbn [tokens]. apply N.eqb_neq in H. now rewrite H. Qed.

Lemma spell_utf8 cp ts :
  (cp < 1114112)%N ->
  spell (map Octet (utf8 cp) ++ ts) = code_point_units cp ++ spell ts.
Proof.
  intros H. unfold utf8, code_point_units.
  destruct (N.ltb_spec cp 128) as [H1|H1].
  { destruct (N.ltb_spec cp 65536); [|lia]. cbn [map app spell].
    destruct (N.ltb_spec cp 128); [reflexivity | lia]. }
  destruct (N.ltb_spec cp 2048) as [H2|H2].
  { destruct (N.ltb_spec cp 65536); [|lia]. cbn [map app spell].
    destruct (N.ltb_spec (192 + cp / 64) 128); [lia|].
    destruct (N.ltb_spec (192 + cp / 64) 224); [|lia].
    f_equal. lia. }
  destruct (N.ltb_spec cp 65536) as [H3|H3]; cbn [map app spell].
  - destruct (N.ltb_spec (224 + cp / 4096) 128); [lia|].
    destruct (N.ltb_spec (224 + cp / 4096) 224); [lia|].
    destruct (N.ltb_spec (224 + cp / 4096) 240); [|lia].
    f_equal. lia.
  - destruct (N.ltb_spec (240 + cp / 262144) 128); [lia|].
    destruct (N.ltb_spec (240 + cp / 262144) 224); [lia|].
    destruct (N.ltb_spec (240 + cp / 262144) 240); [lia|].
    replace ((240 + cp / 262144 - 240) * 262144 + (128 + (cp / 4096) mod 64 - 128) * 4096
             + (128 + (cp / 64) mod 64 - 128) * 64 + (128 + cp mod 64 - 128))%N
      with cp by lia.
    unfold code_point_units. destruct (N.ltb_spec cp 65536); [lia | reflexivity].
Qed.

(** What the service reads back from the encoded query is the query. *)
Lemma read_back_encoded n : forall s encoded,
  length s <= n ->
  utf16 s = true ->
  encodeURIComponent s = Normal encoded ->
  read_back encoded = s.
Proof.
  unfold read_back.
  induction n as [|n IH]; intros [|c rest] encoded Hlen H16 Henc; cbn in Hlen; try lia;
    try (injection Henc as <-; reflexivity).
  cbn [encodeURIComponent] in Henc. cbn [utf16 forallb] in H16.
  apply andb_prop in H16 as [Hc H16].
  assert (Hrest : length rest <= n) by lia.
  destruct (uri_unescaped c) eqn:Hu.
  - destruct (encodeURIComponent rest) as [r|] eqn:Er; [|discriminate].
    injection Henc as <-.
    destruct (unescaped_not_surrogate _ Hu) as (_ & _ & _ & H37).
    rewrite (tokens_plain _ H37). cbn [spell]. f_equal. now apply IH.
  - destruct (is_low_surrogate c); [discriminate|].
    destruct (is_high_surrogate c) eqn:Hhigh.
    + destruct rest as [|d rest']; [discriminate|].
      destruct (is_low_surrogate d) eqn:Hlow; [|discriminate].
      destruct (encodeURIComponent rest') as [r|] eqn:Er; [|discriminate].
      injection Henc as <-.
      destruct (pair_is_code_point _ _ Hhigh Hlow) as [Hcp Hunits].
      rewrite tokens_octets by (apply utf8_octets; lia).
      rewrite spell_utf8 by lia. rewrite Hunits. cbn [app]. do 2 f_equal.
      cbn [utf16 forallb] in H16. apply andb_prop in H16 as [_ H16].
      apply IH; auto. cbn in Hrest. lia.
    + destruct (encodeURIComponent rest) as [r|] eqn:Er; [|discriminate].
      injection Henc as <-.
      rewrite tokens_octets by (apply utf8_octets; now apply code_unit_is_code_point).
      rewrite spell_utf8 by (now apply code_unit_is_code_point).
      unfold code_point_units. rewrite Hc. cbn [app]. f_equal. now apply IH.
Qed.

(** The encoded query is made of unreserved characters and [%]. *)
Lemma encoded_alphabet n : forall s encoded,
  length s <= n ->
  utf16 s = true ->
  encodeURIComponent s = Normal encoded ->
  forallb (fun c => uri_unescaped c || (c =? 37)%N) encoded = true.
Proof.
  assert (Hoctets : forall bs, Forall (fun b => (b < 256)%N) bs ->
            forallb (fun c => uri_unescaped c || (c =? 37)%N) (flat_map percent bs) = true).
  { induction 1 as [|b bs Hb _ IHbs]; [reflexivity|].
    cbn [flat_map]. rewrite forallb_app, IHbs, andb_true_r. unfold percent. cbn [forallb].
    destruct (@hex_digit_reads (b / 16)) as [-> _]; [lia|].
    destruct (@hex_digit_reads (b mod 16)) as [-> _]; [lia|]. reflexivity. }
  induction n as [|n IH]; intros [|c rest] encoded Hlen H16 Henc; cbn in Hlen; try lia;
    try (injection Henc as <-; reflexivity).
  cbn [encodeURIComponent] in Henc. cbn [utf16 forallb] in H16.
  apply andb_prop in H16 as [Hc H16].
  assert (Hrest : length rest <= n) by lia.
  destruct (uri_unescaped c) eqn:Hu.
  - destruct (encodeURIComponent rest) as [r|] eqn:Er; [|discriminate].
    injection Henc as <-. cbn [forallb]. rewrite Hu. cbn [orb andb]. now apply (IH rest).
  - destruct (is_low_surrogate c); [discriminate|].
    destruct (is_high_surrogate c) eqn:Hhigh.
    + destruct rest as [|d rest']; [discriminate|].
      destruct (is_low_surrogate d) eqn:Hlow; [|discriminate].
      destruct (encodeURIComponent rest') as [r|] eqn:Er; [|discriminate].
      injection Henc as <-.
      destruct (pair_is_code_point _ _ Hhigh Hlow) as [Hcp _].
      rewrite forallb_app, Hoctets by (apply utf8_octets; lia). cbn [andb].
      cbn [utf16 forallb] in H16. apply andb_prop in H16 as [_ H16].
      apply (IH rest'); auto. cbn in Hrest. lia.
    + destruct (encodeURIComponent rest) as [r|] eqn:Er; [|discriminate].
      injection Henc as <-.
      rewrite forallb_app, Hoctets by (apply utf8_octets; now apply code_unit_is_code_point).
      cbn [andb]. now apply (IH rest).
Qed.

(** ** More on the search flow *)

(** X1.  A query that is not blank is dispatched exactly when it is well
    formed.  Then the search waits for the primary request, on the loading
    page; with a lone surrogate in the query [encodeURIComponent] throws,
    nothing is sent, and the search ends at once, back to idle, on the
    error message [URI malformed]. *)
Theorem query_sent_iff_well_formed q u :
  ToBoolean (VStr (trim q)) = true ->
  if well_formed q then
    exists encoded k,
      encodeURIComponent q = Normal encoded /\
      searchMemories q u = AwaitFetch (GET (cascading_url encoded)) (loading u) k
  else
    encodeURIComponent q = Abrupt URIError_malformed /\
    searchMemories q u = Done tt (idle (failed URIError_malformed (loading u))) /\
    memoriesContainer (page (searchMemories q u)) =
      [Html (div_open "error" ++ lit "Failed to search memories: URI malformed"
             ++ lit "</div>")] /\
    isSearching (page (searchMemories q u)) = false /\
    searchButton_disabled (page (searchMemories q u)) = false /\
    forall tr o', run (searchMemories q u) tr o' -> tr = [] /\ requests tr o' = [].
Proof.
  intros Hq.
  pose proof (@searchMemories_flow q u [] _ (run_here _)) as H.
  unfold search_flow in H. rewrite Hq in H. cbn [negb] in H.
  pose proof (@encodeURIComponent_well_formed (length q) q (le_n _)) as Hwf.
  destruct (well_formed q).
  - destruct Hwf as [encoded Henc]. rewrite Henc in H.
    destruct H as [[_ [k Hk]]|(? & ? & ? & [=] & _)]. eauto.
  - rewrite Hwf in H. destruct H as [_ Hdone]. rewrite Hdone.
    split; [exact Hwf|]. do 4 (split; [reflexivity|]).
    intros tr o' Hrun. apply run_done_inv in Hrun as [-> ->]. split; reflexivity.
Qed.

(** X2.  The encoded query holds unreserved characters and [%] only: none
    of the characters that end or split a query parameter. *)
Theorem encoded_query_is_url_safe q encoded c :
  utf16 q = true ->
  encodeURIComponent q = Normal encoded ->
  In c encoded ->
  (uri_unescaped c = true \/ c = 37%N) /\
  ~ In c (lit "&=?#/+ ").
Proof.
  intros H16 Henc Hin.
  pose proof (@encoded_alphabet (length q) q encoded (le_n _) H16 Henc) as Hall.
  rewrite forallb_forall in Hall. specialize (Hall c Hin).
  apply orb_prop in Hall as [Hall|Hall].
  - split; [now left|]. cbn. intros Hc.
    repeat (destruct Hc as [<-|Hc]; [discriminate Hall|]). exact Hc.
  - apply N.eqb_eq in Hall as ->. split; [now right|]. cbn.
    intros Hc. repeat (destruct Hc as [Hc|Hc]; [discriminate Hc|]). exact Hc.
Qed.

(** X3.  The request tells the query: what the service reads back from
    the parameter is the query as it was typed, so two queries that give
    the same URL are the same. *)
Theorem request_url_determines_query a b ea eb :
  utf16 a = true ->
  utf16 b = true ->
  encodeURIComponent a = Normal ea ->
  encodeURIComponent b = Normal eb ->
  cascading_url ea = cascading_url eb \/ semantic_url ea = semantic_url eb ->
  read_back ea = a /\ a = b.
Proof.
  intros Ha Hb Hea Heb Hurl.
  pose proof (@read_back_encoded (length a) a ea (le_n _) Ha Hea) as Ra.
  pose proof (@read_back_encoded (length b) b eb (le_n _) Hb Heb) as Rb.
  split; [exact Ra|].
  assert (E : ea = eb) by (destruct Hurl as [Hurl|Hurl]; now apply app_inv_head in Hurl).
  congruence.
Qed.

(** X4.  No search sends more than the two requests, the primary one and
    then the fallback one, for the same encoded query; and the fallback one
    is sent exactly when the primary response is a success whose body parses
    to an answer without results, never after a failure. *)
Theorem fallback_only_after_empty_answer q u tr o' :
  run (searchMemories q u) tr o' ->
  (requests tr o' = [] \/
   exists encoded,
     encodeURIComponent q = Normal encoded /\
     (requests tr o' = [GET (cascading_url encoded)] \/
      requests tr o' = [GET (cascading_url encoded); GET (semantic_url encoded)])) /\
  (length (requests tr o') = 2 <->
   exists req resp u1 resp' data u2 rest,
     tr = (FetchSettled req (Normal resp), u1)
          :: (JsonSettled resp' (Normal data), u2) :: rest /\
     ok resp = true /\ no_results data = Normal true).
Proof.
  intros H. apply searchMemories_flow in H. unfold search_flow in H.
  destruct (negb (ToBoolean (VStr (trim q)))).
  { destruct H as [-> ->]. split; [now left|].
    split; [discriminate|]. intros (? & ? & ? & ? & ? & ? & ? & E & _). discriminate E. }
  flow_cases H.
  all: split;
    [ first [ left; reflexivity
            | right; eexists; split; [reflexivity|];
              first [left; reflexivity | right; reflexivity] ] | ].
  all: split;
    [ intros Hlen; try discriminate Hlen; eauto 12
    | intros (? & ? & ? & ? & ? & ? & ? & E & Hok' & Hno'); try discriminate E;
      injection E; intros; subst; try congruence; reflexivity ].
Qed.

(** X5.  A failure ends the search: a settlement that is a rejection, or a
    response whose status is not a success, is the last of its run, and the
    run has finished, back to idle, on the error message for that failure.
    Nothing is retried and the fallback is not tried. *)
Theorem failure_ends_the_search q u tr o' ev u1 failure :
  run (searchMemories q u) tr o' ->
  In (ev, u1) tr ->
  settlement_error ev = Some failure ->
  last_settlement tr = Some ev /\
  last_page u tr = u1 /\
  o' = Done tt (idle (failed failure u1)) /\
  pending_request o' = [].
Proof.
  intros H Hin Hfail. apply searchMemories_flow in H. unfold search_flow in H.
  destruct (negb (ToBoolean (VStr (trim q)))); [destruct H as [-> _]; destruct Hin|].
  flow_cases H; cbn [In] in Hin;
    repeat match goal with
           | Hin : _ \/ _ |- _ => destruct Hin as [Hin|Hin]
           | Hin : False |- _ => destruct Hin
           | Hin : (_, _) = (ev, u1) |- _ => injection Hin as <- <-
           end;
    cbn [settlement_error] in Hfail;
    rewrite ?Hok, ?Hok0 in Hfail; try discriminate Hfail;
    injection Hfail as <-; repeat split.
Qed.

(** ** What an answer brings up *)

Lemma nothing_to_show data :
  Get data (lit "results") = Normal VUndefined \/
  Get data (lit "results") = Normal (VArr []) ->
  has_results data = Normal false.
Proof. unfold has_results. now intros [-> | ->]. Qed.

Lemma failed_container_flat e u :
  memoriesContainer (failed e u) =
  [Html (div_open "error" ++ lit "Failed to search memories: "
         ++ flat_map escape_unit (message e) ++ lit "</div>")].
Proof. exact (idle_failed_container e u). Qed.

(** The container once an answer has been dealt with: the error message,
    the empty state, or one card for each result. *)
Lemma shown_outcomes data u :
  (exists e, memoriesContainer (shown data u) =
             [Html (div_open "error" ++ lit "Failed to search memories: "
                    ++ flat_map escape_unit (message e) ++ lit "</div>")]) \/
  memoriesContainer (shown data u) =
    [Html (div_open "empty-state" ++ lit "No memories found for your search"
           ++ lit "</div>")] \/
  (exists items,
     Get data (lit "results") = Normal (VArr items) /\
     items <> [] /\
     rendered items 0 (created u) = (memoriesContainer (shown data u), None)).
Proof.
  unfold shown.
  destruct (has_results data) as [[|]|e] eqn:Hhas.
  - unfold has_results in Hhas.
    destruct (Get data (lit "results")) as [results|e]; [|discriminate].
    cbn [cbind] in Hhas.
    destruct results;
      try (left; eexists; cbn [displayMemories recovered]; apply failed_container_flat).
    rewrite displayMemories_array.
    destruct (rendered items 0 (created u)) as [cards [e|]] eqn:Hr; cbn [recovered page].
    + left. eexists. apply failed_container_flat.
    + right. right. exists items. split; [reflexivity|]. split; [|now rewrite Hr].
      intros ->. discriminate Hhas.
  - right. left. reflexivity.
  - left. eexists. apply failed_container_flat.
Qed.

(** When every record renders there is one card for each, in the order of
    the records. *)
Lemma rendered_all items id nodes :
  rendered items 0 id = (nodes, None) ->
  length nodes = length items /\
  forall i memory,
    nth_error items i = Some memory ->
    exists c,
      nth_error nodes i = Some (Card c) /\
      Browser.memory c = memory /\
      uid c = id + i /\
      memory_markup memory i = Normal (innerHTML c).
Proof.
  intros Hr.
  pose proof (rendered_length items 0 id) as Hlen.
  pose proof (@rendered_nth items 0 id) as Hnth.
  rewrite Hr in Hlen, Hnth. cbn [fst snd] in Hlen, Hnth.
  specialize (Hlen eq_refl). split; [exact Hlen|].
  intros i memory Hi.
  assert (Hlt : i < length nodes) by (rewrite Hlen; apply nth_error_Some; congruence).
  apply nth_error_Some in Hlt.
  destruct (nth_error nodes i) as [n|] eqn:Hn; [|congruence].
  destruct (Hnth i n Hn) as (memory' & markup & Hi' & Hm & ->).
  rewrite Hi in Hi'. injection Hi' as <-.
  eexists. split; [reflexivity|]. cbn. auto.
Qed.

(** X6.  A search that has finished leaves one of three things in the
    container: the error message of a failure, the empty state, or the
    results of the last answer, one card for each record and in their
    order.  Cards appended before a record that cannot be rendered do not
    stay: the error message takes their place. *)
Theorem search_shows_error_nothing_or_all q u tr o' :
  ToBoolean (VStr (trim q)) = true ->
  run (searchMemories q u) tr o' ->
  finished o' = true ->
  (exists e,
     memoriesContainer (page o') =
     [Html (div_open "error" ++ lit "Failed to search memories: "
            ++ flat_map escape_unit (message e) ++ lit "</div>")]) \/
  memoriesContainer (page o') =
    [Html (div_open "empty-state" ++ lit "No memories found for your search"
           ++ lit "</div>")] \/
  (exists resp data items,
     last_settlement tr = Some (JsonSettled resp (Normal data)) /\
     Get data (lit "results") = Normal (VArr items) /\
     items <> [] /\
     length (memoriesContainer (page o')) = length items /\
     forall i memory,
       nth_error items i = Some memory ->
       exists c,
         nth_error (memoriesContainer (page o')) i = Some (Card c) /\
         Browser.memory c = memory /\
         memory_markup memory i = Normal (innerHTML c)).
Proof.
  intros Hq H Hfin.
  apply searchMemories_flow in H. unfold search_flow in H.
  rewrite Hq in H. cbn [negb] in H.
  flow_cases H; try discriminate Hfin; cbn [page];
    try (left; eexists; apply idle_failed_container).
  all: match goal with
       | |- context [shown ?data ?v] =>
           change (memoriesContainer (idle (shown data v)))
             with (memoriesContainer (shown data v));
           destruct (shown_outcomes data v) as [[e He]|[He|(items & Hg & Hne & Hr)]];
           [ left; eauto | right; left; exact He | right; right ]
       end.
  all: apply rendered_all in Hr as [Hlen Hnth];
    eexists _, _, items; split; [reflexivity|];
    split; [exact Hg|]; split; [exact Hne|]; split; [exact Hlen|];
    intros i memory Hi; destruct (Hnth i memory Hi) as (c & H1 & H2 & _ & H4); eauto.
Qed.

(** X7.  When the fallback answers too that there is nothing, with
    [results] missing or empty, the search ends there: the empty state is
    shown, the popup is idle again, and the two requests are all that was
    sent. *)
Theorem nothing_found_anywhere q u tr o' req resp u1 resp1 data u2 req' resp' u3 resp2 data' u4 rest :
  run (searchMemories q u) tr o' ->
  tr = (FetchSettled req (Normal resp), u1) :: (JsonSettled resp1 (Normal data), u2)
       :: (FetchSettled req' (Normal resp'), u3) :: (JsonSettled resp2 (Normal data'), u4)
       :: rest ->
  Get data' (lit "results") = Normal VUndefined \/
  Get data' (lit "results") = Normal (VArr []) ->
  rest = [] /\
  requests tr o' = [req; req'] /\
  exists u',
    o' = Done tt u' /\
    memoriesContainer u' =
      [Html (div_open "empty-state" ++ lit "No memories found for your search"
             ++ lit "</div>")] /\
    isSearching u' = false /\
    searchButton_disabled u' = false /\
    searchButton_textContent u' = lit "Search Memories".
Proof.
  intros H Htr Hres. apply nothing_to_show in Hres.
  apply searchMemories_flow in H. unfold search_flow in H.
  destruct (negb (ToBoolean (VStr (trim q)))); [destruct H; subst; discriminate|].
  flow_cases H; try discriminate Htr;
    injection Htr; intros; subst; try discriminate.
  split; [reflexivity|]. split; [reflexivity|].
  eexists. split; [reflexivity|].
  unfold shown. rewrite Hres. repeat split.
Qed.

(** X8.  Results that come from the fallback are rendered as those of the
    primary request would be: the run ends with the body of the fallback
    response, on the page [displayMemories] leaves for its results, one card
    for each when every record renders. *)
Theorem fallback_results_rendered q u tr o' req resp u1 resp1 data u2 req' resp' u3 resp2 data' u4 rest first more :
  run (searchMemories q u) tr o' ->
  tr = (FetchSettled req (Normal resp), u1) :: (JsonSettled resp1 (Normal data), u2)
       :: (FetchSettled req' (Normal resp'), u3) :: (JsonSettled resp2 (Normal data'), u4)
       :: rest ->
  Get data' (lit "results") = Normal (VArr (first :: more)) ->
  let answered :=
    add_log (level_log, [LStr (lit "Semantic API Response:"); LVal data']) u4 in
  rest = [] /\
  requests tr o' = [req; req'] /\
  no_results data = Normal true /\
  o' = Done tt (idle (recovered (displayMemories (VArr (first :: more)) answered))) /\
  (forall cards,
     rendered (first :: more) 0 (created u4) = (cards, None) ->
     memoriesContainer (page o') = cards /\ length cards = S (length more)).
Proof.
  intros H Htr Hres answered.
  destruct (some_results _ Hres) as [_ Hhas].
  apply searchMemories_flow in H. unfold search_flow in H.
  destruct (negb (ToBoolean (VStr (trim q)))); [destruct H; subst; discriminate|].
  flow_cases H; try discriminate Htr;
    injection Htr; intros; subst; try discriminate.
  split; [reflexivity|]. split; [reflexivity|]. split; [assumption|].
  unfold shown. rewrite Hhas, Hres. fold answered.
  split; [reflexivity|].
  intros cards Hcards. rewrite displayMemories_array.
  pose proof (rendered_length (first :: more) 0 (created u4)) as Hlen.
  change (created answered) with (created u4).
  rewrite Hcards in *. cbn in Hlen |- *. auto.
Qed.

(** X9.  [results] that is truthy but no array, a number, [true] or a
    string: no fallback request is sent, since [results.length] is not 0;
    a string, which has a length above 0, is handed to [displayMemories],
    which throws as a string has no [forEach], and the error is shown;
    a number or [true] has no length, and the empty state is shown. *)
Theorem results_not_an_array q u tr o' req resp u1 resp1 data u2 rest results :
  run (searchMemories q u) tr o' ->
  tr = (FetchSettled req (Normal resp), u1) :: (JsonSettled resp1 (Normal data), u2)
       :: rest ->
  Get data (lit "results") = Normal results ->
  ToBoolean results = true ->
  primitive results = true ->
  rest = [] /\
  requests tr o' = [req] /\
  memoriesContainer (page o') =
    match results with
    | VStr _ =>
        [Html (div_open "error"
               ++ lit "Failed to search memories: memories.forEach is not a function"
               ++ lit "</div>")]
    | _ =>
        [Html (div_open "empty-state" ++ lit "No memories found for your search"
               ++ lit "</div>")]
    end.
Proof.
  intros H Htr Hres Htruthy Hprim.
  assert (Hno : no_results data = Normal false).
  { unfold no_results. rewrite Hres. cbn [cbind]. rewrite Htruthy. cbn [negb].
    destruct results as [| | | |[|c s]| |]; try discriminate; reflexivity. }
  assert (Hhas : has_results data =
                 Normal (match results with VStr _ => true | _ => false end)).
  { unfold has_results. rewrite Hres. cbn [cbind]. rewrite Htruthy.
    destruct results as [| | | |[|c s]| |]; try discriminate; reflexivity. }
  apply searchMemories_flow in H. unfold search_flow in H.
  destruct (negb (ToBoolean (VStr (trim q)))); [destruct H; subst; discriminate|].
  flow_cases H; try discriminate Htr;
    injection Htr; intros; subst; try congruence.
  split; [reflexivity|]. split; [reflexivity|].
  cbn [page]. unfold shown. rewrite Hhas, ?Hres.
  destruct results; try discriminate; reflexivity.
Qed.

(** X10.  A body that is the JSON value [null], from either endpoint, ends
    the search with an error: [null] has no [results] to read, the read
    throws, the message of the [TypeError] is shown, and the popup is idle
    again.  After a primary response with such a body the fallback is not
    tried. *)
Theorem null_body_is_an_error q u tr o' resp u1 :
  run (searchMemories q u) tr o' ->
  In (JsonSettled resp (Normal VNull), u1) tr ->
  last_settlement tr = Some (JsonSettled resp (Normal VNull)) /\
  finished o' = true /\
  isSearching (page o') = false /\
  memoriesContainer (page o') =
  [Html (div_open "error"
         ++ lit "Failed to search memories: Cannot read properties of null (reading 'results')"
         ++ lit "</div>")].
Proof.
  intros H Hin. apply searchMemories_flow in H. unfold search_flow in H.
  destruct (negb (ToBoolean (VStr (trim q)))); [destruct H as [-> _]; destruct Hin|].
  flow_cases H; cbn [In] in Hin;
    repeat match type of Hin with
           | _ \/ _ => destruct Hin as [Hin|Hin]
           | False => destruct Hin
           end;
    try discriminate Hin; injection Hin; intros; subst;
    try match goal with
        | Hno : no_results VNull = Normal _ |- _ => discriminate Hno
        | Hno : no_results VNull = Abrupt _ |- _ => injection Hno as <-
        end;
    repeat split.
Qed.

(** ** Records that render, and records that do not *)

Lemma primitive_ToString v : primitive v = true -> exists s, ToString v = Normal s.
Proof. destruct v as [| |[|]| | | |]; try discriminate; cbn; eauto. Qed.

Lemma primitive_ToNumber v : primitive v = true -> exists x, ToNumber v = Normal x.
Proof. destruct v as [| |[|]| | | |]; try discriminate; cbn; eauto. Qed.

Lemma primitive_escapeHtml v : primitive v = true -> exists s, escapeHtml v = Normal s.
Proof.
  intros H. rewrite escapeHtml_value.
  destruct v as [| |[|]| | | |]; try discriminate; cbn; eauto.
Qed.

Lemma plain_record_markup memory index :
  plain_record memory = true -> exists markup, memory_markup memory index = Normal markup.
Proof.
  unfold plain_record, plain_field. intros H.
  apply andb_prop in H as [H Hscore]. apply andb_prop in H as [Hchunk Htext].
  unfold memory_markup, memory_text, score_percent, or_else.
  destruct (Get memory (lit "chunk_text")) as [chunk|]; [|discriminate].
  destruct (Get memory (lit "text")) as [text|]; [|discriminate].
  destruct (Get memory (lit "score")) as [score|]; [|discriminate].
  cbn [cbind].
  assert (Hshown : exists s,
            cbind (if ToBoolean chunk then Normal chunk
                   else if ToBoolean text then Normal text
                   else Normal (VStr (lit "No text available"))) escapeHtml = Normal s).
  { destruct (ToBoolean chunk); [now apply primitive_escapeHtml|].
    destruct (ToBoolean text); now apply primitive_escapeHtml. }
  destruct Hshown as [s Hs].
  destruct (primitive_ToNumber _ Hscore) as [x Hx].
  destruct (ToBoolean chunk); [|destruct (ToBoolean text)];
    cbn [cbind] in Hs |- *; rewrite Hs, Hx; cbn [cbind]; eauto.
Qed.

Lemma plain_records_rendered items : forall index id,
  forallb plain_record items = true ->
  exists cards, rendered items index id = (cards, None) /\ length cards = length items.
Proof.
  induction items as [|memory rest IH]; intros index id Hall; cbn [rendered].
  - exists []. auto.
  - cbn [forallb] in Hall. apply andb_prop in Hall as [Hm Hrest].
    destruct (plain_record_markup memory index Hm) as [markup ->].
    destruct (IH (S index) (S id) Hrest) as (cards & -> & Hlen).
    eexists. split; [reflexivity|]. cbn. now rewrite Hlen.
Qed.

(** X11.  Records whose [chunk_text], [text] and [score] are primitive
    values, or missing, always render: [displayMemories] does not throw on
    an array of such records and leaves one card for each, whatever the
    container held before. *)
Theorem plain_records_render items u :
  forallb plain_record items = true ->
  exists cards,
    displayMemories (VArr items) u = Done tt (displayed cards (length items) u) /\
    length cards = length items /\
    rendered items 0 (created u) = (cards, None) /\
    forall held, memoriesContainer (page (displayMemories (VArr items) (set_container held u)))
                 = cards.
Proof.
  intros Hall.
  destruct (plain_records_rendered items 0 (created u) Hall) as (cards & Hr & Hlen).
  exists cards. rewrite displayMemories_array, Hr, <- Hlen.
  cbn [thrown_count]. rewrite Nat.add_0_r.
  split; [reflexivity|]. split; [reflexivity|]. split; [reflexivity|].
  intros held. rewrite displayMemories_array.
  change (created (set_container held u)) with (created u). now rewrite Hr.
Qed.

Lemma rendered_app before : forall after index id cards,
  rendered before index id = (cards, None) ->
  rendered (before ++ after) index id =
  let (more, e) := rendered after (index + length before) (id + length before) in
  (cards ++ more, e).
Proof.
  induction before as [|memory rest IH]; intros after index id cards; cbn [rendered app length].
  - intros [= <-]. rewrite !Nat.add_0_r. now destruct (rendered after index id).
  - destruct (memory_markup memory index) as [markup|e]; [|discriminate].
    destruct (rendered rest (S index) (S id)) as [cards' [e|]] eqn:Hr; [discriminate|].
    intros [= <-]. rewrite (IH after (S index) (S id) cards' Hr).
    rewrite <- !plus_n_Sm. cbn [Nat.add].
    now destruct (rendered after (S (index + length rest)) (S (id + length rest))).
Qed.

(** X12.  A record that is [null] cannot be rendered: [displayMemories]
    throws when it comes to it, with the cards of the records before it
    already in the container, and the [catch] block of [searchMemories] then
    puts the error message in their place. *)
Theorem null_record_stops_rendering before after u :
  forallb plain_record before = true ->
  let e := TypeError (lit "Cannot read properties of null (reading 'chunk_text')") in
  exists cards,
    length cards = length before /\
    displayMemories (VArr (before ++ VNull :: after)) u =
      Thrown e (displayed cards (S (length before)) u) /\
    memoriesContainer (recovered (displayMemories (VArr (before ++ VNull :: after)) u)) =
      [Html (div_open "error"
             ++ lit "Failed to search memories: Cannot read properties of null (reading 'chunk_text')"
             ++ lit "</div>")].
Proof.
  intros Hall e.
  destruct (plain_records_rendered before 0 (created u) Hall) as (cards & Hr & Hlen).
  exists cards. split; [exact Hlen|].
  rewrite displayMemories_array, (@rendered_app before (VNull :: after) 0 (created u) cards Hr).
  cbn [rendered memory_markup memory_text or_else Get cbind thrown_count length app].
  rewrite app_nil_r, Hlen, Nat.add_1_r. split; reflexivity.
Qed.

(** ** Cards and their clicks *)

Lemma memory_text_any_fallback record text fallback :
  memory_text record [] = Normal text ->
  ToBoolean text = true ->
  memory_text record fallback = Normal text.
Proof.
  unfold memory_text, or_else.
  destruct (Get record (lit "chunk_text")) as [a|e]; cbn [cbind]; [|discriminate].
  destruct (ToBoolean a); [auto|].
  destruct (Get record (lit "text")) as [b|e]; cbn [cbind]; [|discriminate].
  destruct (ToBoolean b); [auto|].
  intros [= <-]. discriminate.
Qed.

(** X13.  A card whose record has a text copies what it shows.  The
    markup of a card that [displayMemories] has rendered begins with the
    [div] of class [memory-text], whose content is the text of the record
    escaped; a click hands to the clipboard, and to nothing else, that very
    text, raw and not in its escaped form.  If the write is rejected the
    rejection is logged and the page is otherwise as it was.  If it goes
    through, the background colour of the card, and of no other node,
    becomes [#34a853] on the page as it is by then, nothing else changes,
    and a timer of 500 ms is pending; when the timer fires the background
    colour of the card is set back to the empty string, on the page as it
    is by then, and the run is over. *)
Theorem card_copies_what_it_shows memories u0 c u tr o' text t :
  In (Card c) (memoriesContainer (page (displayMemories memories u0))) ->
  memory_text (memory c) [] = Normal text ->
  ToBoolean text = true ->
  ToString text = Normal t ->
  run (memory_click c u) tr o' ->
  (exists score ordinal,
     innerHTML c =
      [10%N] ++ lit "        <div class=" ++ [34%N] ++ lit "memory-text" ++ [34%N] ++ lit ">"
      ++ flat_map escape_unit t ++ lit "</div>"
      ++ [10%N] ++ lit "        <div class=" ++ [34%N] ++ lit "memory-meta" ++ [34%N] ++ lit ">"
      ++ [10%N] ++ lit "          <span>Score: " ++ score ++ lit "%</span>"
      ++ [10%N] ++ lit "          <span>Memory #" ++ ordinal ++ lit "</span>"
      ++ [10%N] ++ lit "        </div>"
      ++ [10%N] ++ lit "      ") /\
  decode_references 0 (flat_map escape_unit t) = t /\
  clipboard_writes tr o' = [t] /\
  requests tr o' = [] /\
  length tr <= 2 /\
  (forall err u1,
     In (ClipboardSettled t (Abrupt err), u1) tr ->
     o' = Done tt (mkUI (isSearching u1) (searchInput_value u1) (searchButton_disabled u1)
                        (searchButton_textContent u1) (memoriesContainer u1)
                        (console u1 ++ [(level_error,
                                         [LStr (lit "Failed to copy text: "); LErr err])])
                        (created u1))) /\
  (forall u1,
     tr = [(ClipboardSettled t (Normal tt), u1)] ->
     exists k,
       o' = AwaitTimeout 500
              (mkUI (isSearching u1) (searchInput_value u1) (searchButton_disabled u1)
                    (searchButton_textContent u1)
                    (map (fun n =>
                            match n with
                            | Card c' =>
                                if Nat.eqb (uid c') (uid c)
                                then Card (mkCard (uid c') (className c') (innerHTML c')
                                                  (lit "#34a853") (memory c'))
                                else n
                            | Html _ => n
                            end)
                         (memoriesContainer u1))
                    (console u1) (created u1))
              k) /\
  (forall u1 u2,
     tr = [(ClipboardSettled t (Normal tt), u1); (TimeoutFired 500, u2)] ->
     o' = Done tt
            (mkUI (isSearching u2) (searchInput_value u2) (searchButton_disabled u2)
                  (searchButton_textContent u2)
                  (map (fun n =>
                          match n with
                          | Card c' =>
                              if Nat.eqb (uid c') (uid c)
                              then Card (mkCard (uid c') (className c') (innerHTML c')
                                                [] (memory c'))
                              else n
                          | Html _ => n
                          end)
                       (memoriesContainer u2))
                  (console u2) (created u2))).
Proof.
  intros Hin Htext Htruthy Ht H.
  split.
  { apply In_nth_error in Hin as [i Hi].
    apply displayMemories_nth in Hi as (items & record & markup & _ & _ & Hmarkup & [= ->]).
    cbn [Browser.memory Browser.innerHTML] in *.
    apply memory_markup_parts in Hmarkup
      as (text' & t' & score & x & Htext' & _ & Ht' & _ & _ & ->).
    rewrite (memory_text_any_fallback _ _ Htext Htruthy) in Htext'.
    injection Htext' as <-. rewrite Ht in Ht'. injection Ht' as <-.
    eexists _, _. reflexivity. }
  split; [apply decode_escape|].
  destruct (memory_click_flow c u Htext Ht H)
    as [[-> [k ->]]|[(err & u1 & -> & ->)|[(u1 & k & -> & ->)|(u1 & u2 & -> & ->)]]].
  all: split; [reflexivity|]; split; [reflexivity|]; split; [cbn; lia|].
  all: split;
    [ intros err' v Hin'; cbn [In] in Hin';
      repeat match type of Hin' with
             | _ \/ _ => destruct Hin' as [Hin'|Hin']
             | False => destruct Hin'
             end;
      try discriminate Hin'; injection Hin' as <- <-; reflexivity
    | split;
      [ intros v1 E; try discriminate E; injection E as <-; eexists; reflexivity
      | intros v1 v2 E; try discriminate E; injection E as <- <-; reflexivity ] ].
Qed.

Lemma paint_back id colour nodes :
  (forall c, In (Card c) nodes -> uid c = id -> backgroundColor c = []) ->
  map (paint id []) (map (paint id colour) nodes) = nodes.
Proof.
  induction nodes as [|n nodes IH]; intros Hclear; [reflexivity|].
  cbn [map]. rewrite IH by (intros c Hc; apply Hclear; now right). f_equal.
  destruct n as [markup|c]; [reflexivity|]. cbn [paint].
  destruct (Nat.eqb (uid c) id) eqn:E; cbn [paint uid]; rewrite E; [|reflexivity].
  apply Nat.eqb_eq in E. rewrite <- (Hclear c (or_introl eq_refl) E). now destruct c.
Qed.

(** X14.  The flash of a copy leaves no trace.  When the write to the
    clipboard goes through and nothing else touches the page before the
    timer fires, the page after the 500 ms is the page as it was before the
    click: the card, created unpainted, is unpainted again, and nothing
    else has changed. *)
Theorem copy_flash_is_undone c u text t tr o' :
  memory_text (memory c) [] = Normal text ->
  ToString text = Normal t ->
  (forall c', In (Card c') (memoriesContainer u) -> backgroundColor c' = []) ->
  run (memory_click c u) tr o' ->
  tr = [(ClipboardSettled t (Normal tt), u);
        (TimeoutFired 500, painted (uid c) (lit "#34a853") u)] ->
  o' = Done tt u.
Proof.
  intros Htext Ht Hclear H Htr.
  destruct (memory_click_flow c u Htext Ht H)
    as [[-> _]|[(err & u1 & -> & _)|[(u1 & k & -> & _)|(u1 & u2 & -> & ->)]]];
    try discriminate Htr.
  injection Htr as -> ->. f_equal.
  unfold painted. cbn [set_container memoriesContainer].
  rewrite paint_back by (intros c' Hc' _; now apply Hclear).
  now destruct u.
Qed.

(** ** The page stays in order *)

Lemma rendered_uids items : forall index id,
  map uid (flat_map card_of (fst (rendered items index id)))
  = seq id (length (fst (rendered items index id))).
Proof.
  induction items as [|record rest IH]; intros index id; cbn [rendered]; [reflexivity|].
  destruct (memory_markup record index) as [markup|e]; [|reflexivity].
  specialize (IH (S index) (S id)).
  destruct (rendered rest (S index) (S id)) as [nodes e]. cbn in *. now rewrite IH.
Qed.

Lemma no_cards_identified u : cards u = [] -> identified u.
Proof. unfold identified. intros ->. split; constructor. Qed.

Lemma identified_displayed items u n :
  length (fst (rendered items 0 (created u))) <= n ->
  identified (displayed (fst (rendered items 0 (created u))) n u).
Proof.
  intros Hn. unfold identified, cards.
  cbn [displayed set_container set_created memoriesContainer created].
  pose proof (rendered_uids items 0 (created u)) as Huids.
  split.
  - rewrite Huids. apply seq_NoDup.
  - apply Forall_forall. intros c Hc.
    apply (in_map uid) in Hc. rewrite Huids in Hc. apply in_seq in Hc. lia.
Qed.

Lemma identified_shown data u : identified (shown data u).
Proof.
  unfold shown.
  destruct (has_results data) as [[|]|e]; try (now apply no_cards_identified).
  destruct (Get data (lit "results")) as [results|e]; [|now apply no_cards_identified].
  destruct results; try (now apply no_cards_identified).
  rewrite displayMemories_array.
  pose proof (@identified_displayed items u) as H.
  destruct (rendered items 0 (created u)) as [nodes [e|]]; cbn [recovered page fst] in *.
  - now apply no_cards_identified.
  - apply H. lia.
Qed.

Lemma tidy_loading u : tidy (loading u).
Proof.
  split; [now apply no_cards_identified|].
  split; [reflexivity|]. split; reflexivity.
Qed.

Lemma tidy_idle_failed e u : tidy (idle (failed e u)).
Proof.
  split; [now apply no_cards_identified|].
  split; [reflexivity|]. split; [discriminate|].
  intros H. now apply failed_not_loading in H.
Qed.

Lemma tidy_idle_shown data u : tidy (idle (shown data u)).
Proof.
  split; [exact (identified_shown data u)|].
  split; [reflexivity|]. split; [discriminate|].
  intros H. now apply shown_not_loading in H.
Qed.

Lemma tidy_log entry u : tidy u -> tidy (add_log entry u).
Proof. intros H. exact H. Qed.

Lemma tidy_typed text u : tidy u -> tidy (typed text u).
Proof. intros H. exact H. Qed.

Lemma tidy_message markup u :
  markup <> loading_markup -> tidy u -> tidy (set_container [Html markup] u).
Proof.
  intros Hm (_ & Hb & Hl & _).
  split; [now apply no_cards_identified|].
  split; [exact Hb|]. split; [exact Hl|].
  cbn [set_container memoriesContainer In]. intros [E|[]].
  injection E as E. now destruct (Hm E).
Qed.

Lemma paint_card_of id colour n : map uid (card_of (paint id colour n)) = map uid (card_of n).
Proof.
  destruct n as [markup|c]; [reflexivity|]. cbn [paint].
  now destruct (Nat.eqb (uid c) id).
Qed.

Lemma painted_uids id colour nodes :
  map uid (flat_map card_of (map (paint id colour) nodes)) = map uid (flat_map card_of nodes).
Proof.
  induction nodes as [|n nodes IH]; [reflexivity|].
  cbn [map flat_map]. now rewrite !map_app, paint_card_of, IH.
Qed.

Lemma painted_markup id colour nodes markup :
  In (Html markup) (map (paint id colour) nodes) -> In (Html markup) nodes.
Proof.
  rewrite in_map_iff. intros ([m|c] & E & Hin); cbn [paint] in E.
  - now rewrite <- E.
  - destruct (Nat.eqb (uid c) id); discriminate E.
Qed.

Lemma tidy_painted id colour u : tidy u -> tidy (painted id colour u).
Proof.
  intros ((Hnodup & Hlt) & Hb & Hl & Hload).
  split; [|split; [exact Hb|split; [exact Hl|]]].
  - unfold identified, cards in *.
    cbn [painted set_container memoriesContainer created].
    split; [now rewrite painted_uids|].
    apply Forall_forall. intros c Hc.
    apply (in_map uid) in Hc. rewrite painted_uids in Hc.
    apply in_map_iff in Hc as (c' & <- & Hc').
    rewrite Forall_forall in Hlt. now apply Hlt.
  - intros H. apply Hload. exact (painted_markup _ _ _ _ H).
Qed.

(** Each coroutine hands on a page in order when it is resumed in one. *)
Lemma search_tidy q u tr o' :
  run (searchMemories q u) tr o' -> tidy (last_page u tr) -> tidy (page o').
Proof.
  intros H. apply searchMemories_flow in H. unfold search_flow in H.
  destruct (negb (ToBoolean (VStr (trim q)))).
  { destruct H as [-> ->]. cbn [last_page page]. now apply tidy_message. }
  flow_cases H; cbn [page last_page]; intros Htidy;
    auto using tidy_loading, tidy_idle_failed, tidy_idle_shown.
Qed.

Lemma check_tidy u tr o' :
  run (checkServiceStatus u) tr o' -> tidy (last_page u tr) -> tidy (page o').
Proof.
  intros H.
  apply checkServiceStatus_flow in H as [[-> [k ->]]|(r & u1 & -> & ->)];
    cbn [page last_page]; [auto|].
  destruct r as [resp|e]; cbn [page]; intros Htidy; [exact Htidy|].
  apply tidy_message; [discriminate | exact Htidy].
Qed.

Lemma copy_tidy c u tr o' :
  run (memory_click c u) tr o' -> tidy (last_page u tr) -> tidy (page o').
Proof.
  intros H. unfold memory_click in H.
  destruct (memory_text (memory c) []) as [text|e]; [|settle H; subst; auto].
  sync H. destruct (ToString text) as [s|e]; [|settle H; subst; auto].
  settle H as r u1 tr1; [subst; auto|].
  destruct r as [[]|err]; [|settle H; subst; auto].
  settle H as r2 u2 tr2; [subst; cbn [page last_page]; apply tidy_painted|].
  settle H. subst. cbn [page last_page]. apply tidy_painted.
Qed.

Lemma opened_reachable u p : opened_on u p -> reachable p.
Proof. induction 1; [constructor | eapply reach_react; eauto]. Qed.

Lemma fresh_tidy u : fresh_page u -> tidy (set_isSearching false u).
Proof.
  intros (Hb & Hc & Hl).
  split; [now apply no_cards_identified|].
  split; [exact Hb|]. split; [discriminate|].
  intros H. now apply Hl in H.
Qed.

(** The page of the popup opened on a fresh page is in order at all
    times. *)
Lemma opened_tidy u p : fresh_page u -> opened_on u p -> tidy (dom p).
Proof.
  intros Hfresh. induction 1 as [|p p' Hopen IH Hreact].
  - exact (fresh_tidy Hfresh).
  - apply opened_reachable, reachable_consistent in Hopen as [Hgen _].
    destruct Hreact as [p text|p|p key|p c Hc|p before t after ev t' Htasks Hres];
      cbn [dom spawn task_page].
    + now apply tidy_typed.
    + unfold searchButton_click, bind, read. cbn [obind].
      destruct (isSearching (dom p)); cbn [negb obind page]; [exact IH|].
      exact (@search_tidy _ _ [] _ (run_here _) IH).
    + unfold searchInput_keypress, bind, read. cbn [obind].
      destruct (str_eqb key (lit "Enter") && negb (isSearching (dom p)));
        cbn [obind page]; [|exact IH].
      exact (@search_tidy _ _ [] _ (run_here _) IH).
    + exact (@copy_tidy _ _ [] _ (run_here _) IH).
    + rewrite Htasks in Hgen. apply Forall_app in Hgen as [_ Hgen].
      inversion Hgen as [|t0 after0 [_ Ht] _]; subst.
      destruct Hres as [o ev u1 o' Hres|o ev u1 o' Hres|o ev u1 o' Hres];
        cbn [task_page].
      * destruct Ht as (q & u0 & tr & _ & Hrun).
        apply (@search_tidy _ _ _ _ (run_snoc Hrun Hres)). now rewrite last_page_snoc.
      * destruct Ht as (u0 & tr & Hrun).
        apply (@check_tidy _ _ _ (run_snoc Hrun Hres)). now rewrite last_page_snoc.
      * destruct Ht as (c & u0 & tr & Hrun).
        apply (@copy_tidy _ _ _ _ (run_snoc Hrun Hres)). now rewrite last_page_snoc.
Qed.

(** ** The popup at all times *)

Lemma nodup_map_eq (A B : Type) (f : A -> B) (l : list A) x y :
  NoDup (map f l) -> In x l -> In y l -> f x = f y -> x = y.
Proof.
  induction l as [|a l IH]; cbn [map In]; [tauto|].
  intros Hnd Hx Hy E. inversion Hnd as [|b m Hnotin Hnd']; subst.
  destruct Hx as [<-|Hx], Hy as [<-|Hy]; auto.
  - destruct Hnotin. rewrite E. now apply in_map.
  - destruct Hnotin. rewrite <- E. now apply in_map.
Qed.

Lemma card_in_cards c u : In (Card c) (memoriesContainer u) -> In c (cards u).
Proof.
  intros H. unfold cards. apply in_flat_map. exists (Card c). split; [exact H | now left].
Qed.

(** X15.  The cards of the container are elements of their own at all
    times, none of them created twice: so the click listener of a card, when
    it paints its card and when it paints it back, changes this card and no
    other node of the container. *)
Theorem click_paints_its_card_only u p c colour :
  fresh_page u ->
  opened_on u p ->
  In (Card c) (memoriesContainer (dom p)) ->
  NoDup (map uid (cards (dom p))) /\
  uid c < created (dom p) /\
  forall n, In n (memoriesContainer (dom p)) -> n <> Card c -> paint (uid c) colour n = n.
Proof.
  intros Hfresh Hopen Hc.
  destruct (opened_tidy Hfresh Hopen) as ((Hnd & Hlt) & _).
  split; [exact Hnd|]. split.
  - rewrite Forall_forall in Hlt. now apply Hlt, card_in_cards.
  - intros [markup|c'] Hn Hne; cbn [paint]; [reflexivity|].
    destruct (Nat.eqb_spec (uid c') (uid c)) as [E|_]; [|reflexivity].
    destruct Hne. f_equal.
    apply (nodup_map_eq uid (cards (dom p))); auto using card_in_cards.
Qed.

(** X16.  The search button tells the state of the popup at all times: it
    is disabled exactly while a search is in flight, it then reads
    [Searching...], and the loading indicator is in the container at such
    times only. *)
Theorem button_tracks_search u p :
  fresh_page u ->
  opened_on u p ->
  searchButton_disabled (dom p) = isSearching (dom p) /\
  (searchButton_disabled (dom p) = true <-> searches p <> []) /\
  (searches p <> [] -> searchButton_textContent (dom p) = lit "Searching...") /\
  (In (Html loading_markup) (memoriesContainer (dom p)) -> searches p <> []).
Proof.
  intros Hfresh Hopen.
  destruct (opened_tidy Hfresh Hopen) as (_ & Hb & Hl & Hload).
  apply opened_reachable, reachable_consistent in Hopen as [_ Hcount].
  assert (Hiff : searches p <> [] <-> isSearching (dom p) = true).
  { destruct (searches p), (isSearching (dom p)); cbn in Hcount; split;
      congruence || discriminate || auto. }
  split; [exact Hb|]. rewrite Hb.
  split; [now symmetry|]. split; intros H.
  - now apply Hl, Hiff.
  - now apply Hiff, Hload.
Qed.

Lemma searches_tasks (a b : list task) :
  flat_map (fun t => match t with Search o => [o] | _ => [] end) (a ++ b)
  = flat_map (fun t => match t with Search o => [o] | _ => [] end) a
    ++ flat_map (fun t => match t with Search o => [o] | _ => [] end) b.
Proof. apply flat_map_app. Qed.

(** X17.  Nothing but the settlement of its own call ends a search or moves
    it on: whatever else happens to the popup, typing, clicks, key presses,
    copies, the settlement of other calls, the search stays as it is and
    [isSearching] stays true.  There is no timeout and no way to cancel. *)
Theorem search_waits_for_its_call p p' o :
  reachable p ->
  searches p = [o] ->
  react p p' ->
  (searches p' = [o] /\ isSearching (dom p') = true) \/
  (exists ev o1,
     resume o ev (dom p) o1 /\
     searches p' = (if finished o1 then [] else [o1])).
Proof.
  intros Hreach Hone Hreact.
  pose proof (reachable_consistent (reach_react Hreach Hreact)) as [_ Hcount'].
  pose proof (reachable_consistent Hreach) as [_ Hcount].
  rewrite Hone in Hcount. cbn [length] in Hcount.
  assert (Hbusy : isSearching (dom p) = true)
    by (destruct (isSearching (dom p)); [reflexivity | discriminate]).
  assert (Hstay : searches p' = [o] ->
                  searches p' = [o] /\ isSearching (dom p') = true).
  { intros E. split; [exact E|]. rewrite E in Hcount'. cbn [length] in Hcount'.
    destruct (isSearching (dom p')); [reflexivity | discriminate]. }
  unfold searches in *.
  destruct Hreact as [p text|p|p key|p c Hc|p before t after ev t' Htasks Hres].
  - left. apply Hstay. exact Hone.
  - left. apply Hstay. cbn [spawn tasks]. rewrite searches_tasks, Hone.
    pose proof (@submission (dom p) _ (or_introl eq_refl)) as Hs.
    rewrite Hbusy in Hs. unfold still_waiting. now rewrite Hs.
  - left. apply Hstay. cbn [spawn tasks]. rewrite searches_tasks, Hone.
    pose proof (@submission (dom p) _ (or_intror (ex_intro _ key eq_refl))) as Hs.
    rewrite Hbusy in Hs. unfold still_waiting. now rewrite Hs.
  - left. apply Hstay. cbn [spawn tasks]. rewrite searches_tasks, Hone.
    unfold still_waiting. now destruct (task_finished (Copy (memory_click c (dom p)))).
  - rewrite Htasks in Hone. cbn [tasks].
    rewrite searches_tasks in Hone. cbn [flat_map] in Hone.
    destruct Hres as [o0 ev u1 o1 Hres|o0 ev u1 o1 Hres|o0 ev u1 o1 Hres].
    + right. exists ev, o1. rewrite !searches_tasks.
      destruct (flat_map _ before) as [|x xs]; cbn [app] in Hone |- *.
      * injection Hone as <- Hafter. rewrite Hafter in *. split; [exact Hres|].
        unfold still_waiting. cbn [task_finished].
        destruct (finished o1); cbn; now rewrite ?app_nil_r.
      * injection Hone as _ Hrest. destruct xs; discriminate Hrest.
    + left. apply Hstay. cbn [tasks]. rewrite !searches_tasks.
      cbn [app] in Hone. rewrite <- Hone. f_equal.
      unfold still_waiting. now destruct (task_finished (Check o1)).
    + left. apply Hstay. cbn [tasks]. rewrite !searches_tasks.
      cbn [app] in Hone. rewrite <- Hone. f_equal.
      unfold still_waiting. now destruct (task_finished (Copy o1)).
Qed.

(** ** Numerals *)

Lemma digits_value_units d : forall acc,
  digits_value 10 acc (uint_units d) =
  Some (match acc with
        | N0 => Pos.of_uint d
        | Npos a => Npos (Pos.of_uint_acc d a)
        end).
Proof.
  induction d as [|d IH|d IH|d IH|d IH|d IH|d IH|d IH|d IH|d IH|d IH]; intros acc;
    cbn [uint_units digits_value]; [now destruct acc|..];
    match goal with
    | |- context [digit_value 10 ?c] =>
        let v := eval vm_compute in (digit_value 10 c) in
        change (digit_value 10 c) with v
    end;
    cbv beta iota; rewrite IH; destruct acc as [|a]; cbn [N.mul N.add Pos.of_uint Pos.of_uint_acc];
    rewrite ?(Pos.mul_comm a 10), ?(Pos.add_comm (10 * a)); reflexivity.
Qed.

Lemma units_are_digits d : forallb is_digit (uint_units d) = true.
Proof. induction d; cbn [uint_units forallb]; auto. Qed.

(** X18.  A number is written in decimal in the text of the page: the
    digits of [decimal n], which the script writes for the status of a
    response in an error message and for the ordinal of a card, are decimal
    digits, at least one, and read back as [n]; so [decimal] tells numbers
    apart. *)
Theorem numerals_read_back n :
  digits_value 10 0 (decimal n) = Some n /\
  forallb is_digit (decimal n) = true /\
  decimal n <> [] /\
  forall m, decimal m = decimal n -> m = n.
Proof.
  assert (Hread : forall k, digits_value 10 0 (decimal k) = Some k).
  { intros k. unfold decimal. rewrite digits_value_units.
    f_equal. apply DecimalN.Unsigned.of_to. }
  split; [apply Hread|]. split; [apply units_are_digits|]. split.
  - intros E. pose proof (Hread n) as H. rewrite E in H. cbn in H.
    injection H as <-. discriminate E.
  - intros m E. pose proof (Hread m) as H. rewrite E, Hread in H. now injection H.
Qed.

(** ** The two ways to submit *)

Lemma str_eqb_true a : forall b, str_eqb a b = true -> a = b.
Proof.
  induction a as [|x a IH]; intros [|y b]; cbn [str_eqb]; try discriminate; [reflexivity|].
  intros H. apply andb_prop in H as [Hx Hab]. apply N.eqb_eq in Hx. f_equal; auto.
Qed.

(** X19.  Enter in the search input does what a click on the button does,
    on every page; any other key does nothing at all. *)
Theorem enter_is_a_click u key :
  searchInput_keypress (lit "Enter") u = searchButton_click u /\
  (key <> lit "Enter" -> searchInput_keypress key u = Done tt u) /\
  (searchInput_keypress key u <> Done tt u -> key = lit "Enter").
Proof.
  unfold searchInput_keypress, searchButton_click, bind, read. cbn [obind].
  split; [reflexivity|].
  destruct (str_eqb key (lit "Enter")) eqn:E.
  - apply str_eqb_true in E. split; [intros Hne; now destruct Hne | intros _; exact E].
  - cbn [andb obind]. split; [reflexivity | intros Hne; now destruct Hne].
Qed.

(** X20.  A search asks for the query that was in the input when it was
    submitted: the requests of a click on the idle popup, the fallback one
    too, carry the value the input had at the click, whatever is typed into
    the input while the search is under way. *)
Theorem submitted_query_is_kept u tr o' req :
  isSearching u = false ->
  run (searchButton_click u) tr o' ->
  In req (requests tr o') ->
  exists encoded,
    encodeURIComponent (searchInput_value u) = Normal encoded /\
    (req = GET (cascading_url encoded) \/ req = GET (semantic_url encoded)).
Proof.
  intros Hidle H Hin.
  unfold searchButton_click, bind, read in H. cbn [obind] in H.
  rewrite Hidle in H. cbn [negb obind] in H.
  apply searchMemories_flow in H. unfold search_flow in H.
  destruct (negb (ToBoolean (VStr (trim (searchInput_value u))))).
  { destruct H as [-> ->]. destruct Hin. }
  flow_cases H; cbn in Hin;
    repeat match type of Hin with
           | _ \/ _ => destruct Hin as [Hin|Hin]
           | False => destruct Hin
           end;
    subst req; eauto.
Qed.

(** ** White space around the query *)

Lemma trimStart_split s :
  exists pre, s = pre ++ trimStart s /\ forallb is_whitespace pre = true.
Proof.
  induction s as [|c s (pre & E & Hpre)]; cbn [trimStart].
  - exists []. auto.
  - destruct (is_whitespace c) eqn:Hc.
    + exists (c :: pre). cbn. rewrite Hc, Hpre. split; [congruence | reflexivity].
    + exists []. auto.
Qed.

Lemma trimStart_fixed s c t : s = c :: t -> is_whitespace c = false -> trimStart s = s.
Proof. intros -> H. cbn. now rewrite H. Qed.

Lemma trimStart_app_solid a c b :
  is_whitespace c = false -> trimStart (a ++ c :: b) = trimStart a ++ c :: b.
Proof.
  intros Hc. induction a as [|x a IH]; cbn [app trimStart]; [now rewrite Hc|].
  now destruct (is_whitespace x).
Qed.

(** X21.  [trim], by which the script tells a blank query, strips white
    space from the two ends and nothing else: the string is its trimmed
    part between two runs of white space, the trimmed part neither begins
    nor ends with white space, and trimming again changes nothing. *)
Theorem trim_strips_the_ends s :
  (exists pre post,
     s = pre ++ trim s ++ post /\
     forallb is_whitespace pre = true /\
     forallb is_whitespace post = true) /\
  (forall c rest, trim s = c :: rest -> is_whitespace c = false) /\
  (forall c rest, rev (trim s) = c :: rest -> is_whitespace c = false) /\
  trim (trim s) = trim s.
Proof.
  unfold trim, trimEnd.
  destruct (trimStart_split s) as (pre & Es & Hpre).
  destruct (trimStart_split (rev (trimStart s))) as (tail & Et & Htail).
  set (body := trimStart (rev (trimStart s))) in *.
  assert (Hlast : forall c rest, rev (rev body) = c :: rest -> is_whitespace c = false).
  { intros c rest E. rewrite rev_involutive in E. exact (trimStart_head _ E). }
  assert (Hstart : trimStart s = rev body ++ rev tail).
  { apply (f_equal (@rev _)) in Et. now rewrite rev_involutive, rev_app_distr in Et. }
  assert (Hfirst : forall c rest, rev body = c :: rest -> is_whitespace c = false).
  { intros c rest E.
    apply (trimStart_head s (t := rest ++ rev tail)). rewrite Hstart, E. reflexivity. }
  split; [|split; [exact Hfirst|split; [exact Hlast|]]].
  - exists pre, (rev tail). rewrite <- Hstart. split; [exact Es|]. split; [exact Hpre|].
    now rewrite forallb_reverse.
  - destruct (rev body) as [|c rest] eqn:Eb; [reflexivity|].
    rewrite (trimStart_fixed eq_refl (Hfirst c rest eq_refl)).
    rewrite <- Eb, rev_involutive.
    destruct body as [|d body'] eqn:Ebody; [reflexivity|].
    rewrite (trimStart_fixed eq_refl (trimStart_head _ Ebody)). reflexivity.
Qed.

(** ** Queries that need no encoding *)

Lemma unreserved_encoded s :
  forallb uri_unescaped s = true -> encodeURIComponent s = Normal s.
Proof.
  induction s as [|c s IH]; cbn [forallb encodeURIComponent]; [reflexivity|].
  intros H. apply andb_prop in H as [Hc Hs]. now rewrite Hc, IH.
Qed.

Lemma unescaped_not_white c : uri_unescaped c = true -> is_whitespace c = false.
Proof.
  unfold uri_unescaped, is_whitespace. intros H.
  assert (Hc : (33 <= c <= 126)%N).
  { repeat match type of H with
           | (_ || _)%bool = true => apply orb_prop in H as [H|H]
           | (_ && _)%bool = true => apply andb_prop in H as [? H]
           end;
      rewrite ?N.leb_le, ?N.eqb_eq in *; lia. }
  repeat (apply orb_false_iff; split);
    try (apply N.eqb_neq; lia);
    apply andb_false_iff; (left; apply N.leb_gt; lia) || (right; apply N.leb_gt; lia).
Qed.

(** X22.  A query made of letters, digits and the marks [-_.!~*'()] is
    sent as it is typed: it is its own encoding, it is not blank unless it
    is empty, and the URL of the primary request ends with it. *)
Theorem unreserved_query_is_sent_as_typed q u :
  forallb uri_unescaped q = true ->
  q <> [] ->
  encodeURIComponent q = Normal q /\
  trim q = q /\
  exists k, searchMemories q u = AwaitFetch (GET (cascading_url q)) (loading u) k.
Proof.
  intros Hq Hne.
  pose proof (unreserved_encoded q Hq) as Henc.
  assert (Htrim : trim q = q).
  { unfold trim, trimEnd.
    destruct q as [|c q']; [now destruct Hne|].
    cbn [forallb] in Hq. apply andb_prop in Hq as [Hc Hq'].
    rewrite (trimStart_fixed eq_refl (unescaped_not_white _ Hc)).
    destruct (rev (c :: q')) as [|d r] eqn:Er.
    { apply (f_equal (@length _)) in Er. rewrite length_rev in Er. discriminate Er. }
    assert (Hd : uri_unescaped d = true).
    { assert (Hin : In d (c :: q')) by (apply in_rev; rewrite Er; now left).
      assert (Hall : forallb uri_unescaped (c :: q') = true) by (cbn; now rewrite Hc, Hq').
      rewrite forallb_forall in Hall. now apply Hall. }
    rewrite (trimStart_fixed eq_refl (unescaped_not_white _ Hd)).
    now rewrite <- Er, rev_involutive. }
  split; [exact Henc|]. split; [exact Htrim|].
  pose proof (@searchMemories_flow q u [] _ (run_here _)) as H.
  unfold search_flow in H. rewrite Htrim, Henc in H.
  destruct q as [|c q']; [now destruct Hne|]. cbn [ToBoolean negb] in H.
  destruct H as [[_ [k Hk]]|(? & ? & ? & [=] & _)]. eauto.
Qed.

(** ** The markup of a card *)

Lemma bracket_free_app a b : bracket_free (a ++ b) = bracket_free a && bracket_free b.
Proof. apply forallb_app. Qed.

Lemma digits_bracket_free s : forallb is_digit s = true -> bracket_free s = true.
Proof.
  unfold bracket_free. rewrite !forallb_forall. intros H c Hc. specialize (H c Hc).
  unfold is_digit in H. apply andb_prop in H as [H1 H2]. rewrite N.leb_le in *.
  unfold bracket. apply negb_true_iff, orb_false_iff. split; apply N.eqb_neq; lia.
Qed.

Lemma decimal_bracket_free n : bracket_free (decimal n) = true.
Proof. apply digits_bracket_free, units_are_digits. Qed.

Lemma zeros_bracket_free k : bracket_free (zeros k) = true.
Proof.
  unfold zeros. induction (Z.to_nat k) as [|n IH]; [reflexivity|]. cbn. exact IH.
Qed.

Lemma firstn_skipn_bracket_free n s :
  bracket_free s = true ->
  bracket_free (firstn n s) = true /\ bracket_free (skipn n s) = true.
Proof.
  intros H. rewrite <- (firstn_skipn n s), bracket_free_app in H.
  now apply andb_prop in H.
Qed.

Lemma escaped_bracket_free t : bracket_free (flat_map escape_unit t) = true.
Proof.
  unfold bracket_free. apply forallb_forall. intros c Hc.
  destruct (escape_no_bracket _ _ Hc) as [H1 H2].
  unfold bracket. apply negb_true_iff, orb_false_iff. split; now apply N.eqb_neq.
Qed.

Lemma positive_to_string_bracket_free m e : bracket_free (positive_to_string m e) = true.
Proof.
  unfold positive_to_string.
  destruct (shortest_from 400 m e (exponent_bound m e)) as [s p].
  pose proof (decimal_bracket_free (Z.to_N s)) as Hd.
  set (digits := decimal (Z.to_N s)) in *.
  set (n := (Z.of_nat (length digits) + p)%Z).
  destruct ((Z.of_nat (length digits) <=? n)%Z && (n <=? 21)%Z).
  { now rewrite bracket_free_app, Hd, zeros_bracket_free. }
  destruct ((0 <? n)%Z && (n <=? 21)%Z).
  { destruct (firstn_skipn_bracket_free (Z.to_nat n) _ Hd) as [H1 H2].
    now rewrite !bracket_free_app, H1, H2. }
  destruct ((-6 <? n)%Z && (n <=? 0)%Z).
  { now rewrite !bracket_free_app, zeros_bracket_free, Hd. }
  assert (He : bracket_free
                 ((if (n - 1 <? 0)%Z then lit "e-" else lit "e+")
                  ++ decimal (Z.abs_N (n - 1))) = true).
  { rewrite bracket_free_app, decimal_bracket_free. now destruct (n - 1 <? 0)%Z. }
  destruct digits as [|d [|d' more]]; [exact He| |].
  - now rewrite (bracket_free_app [d]), He, Hd.
  - change (d :: d' :: more) with ([d] ++ d' :: more) in Hd.
    rewrite bracket_free_app in Hd. apply andb_prop in Hd as [H1 H2].
    now rewrite (bracket_free_app [d]), (bracket_free_app (lit ".")),
      (bracket_free_app (d' :: more)), He, H1, H2.
Qed.

Lemma toFixed1_bracket_free x : bracket_free (toFixed1 x) = true.
Proof.
  unfold toFixed1.
  destruct (Prim2SF x) as [[|]|[|]| |sign m e]; try reflexivity.
  assert (Hs : bracket_free (if sign then lit "-" else []) = true) by now destruct sign.
  destruct (Qle_bool (Qpow10 21) (dyadic m e)).
  - now rewrite bracket_free_app, Hs, positive_to_string_bracket_free.
  - now rewrite !bracket_free_app, Hs, !decimal_bracket_free.
Qed.

(** X23.  Nothing the service sends can add markup to a card.  The markup
    of every card in the container is the template of the script around
    three texts, the text of the record, its score and its ordinal, and
    none of the three holds an angle bracket: the text is escaped, the
    score is what [toFixed] writes for a number, the ordinal is a
    numeral. *)
Theorem card_markup_is_safe memories u n :
  In n (memoriesContainer (page (displayMemories memories u))) ->
  exists c text score ordinal,
    n = Card c /\
    className c = lit "memory-item" /\
    innerHTML c = card_markup text score ordinal /\
    bracket_free text = true /\
    bracket_free score = true /\
    bracket_free ordinal = true.
Proof.
  intros Hin. apply In_nth_error in Hin as [i Hi].
  apply displayMemories_nth in Hi as (items & record & markup & -> & _ & Hmarkup & ->).
  apply memory_markup_parts in Hmarkup as (text & t & score & x & _ & _ & _ & _ & _ & ->).
  eexists _, _, _, _. split; [reflexivity|]. cbn [Browser.className Browser.innerHTML].
  split; [reflexivity|]. split; [reflexivity|].
  split; [apply escaped_bracket_free|].
  split; [apply toFixed1_bracket_free | apply decimal_bracket_free].
Qed.

(** ** The further statements at work *)

Lemma query_sent_iff_well_formed_witness :
  searchMemories [55296%N] sample_page
  = Done tt (idle (failed URIError_malformed (loading sample_page))).
Proof.
  exact (proj1 (proj2 (@query_sent_iff_well_formed [55296%N] sample_page eq_refl))).
Defined.

Lemma encoded_query_is_url_safe_witness :
  (uri_unescaped 37%N = true \/ 37%N = 37%N) /\ ~ In 37%N (lit "&=?#/+ ").
Proof.
  apply (@encoded_query_is_url_safe sample_query (lit "cats%20%26%20dogs") 37%N).
  - reflexivity.
  - reflexivity.
  - vm_compute. tauto.
Defined.

Lemma request_url_determines_query_witness :
  read_back (lit "cats%20%26%20dogs") = sample_query /\ sample_query = sample_query.
Proof.
  apply (@request_url_determines_query sample_query sample_query
           (lit "cats%20%26%20dogs") (lit "cats%20%26%20dogs"));
    try reflexivity.
  left. reflexivity.
Defined.

Lemma fallback_only_after_empty_answer_witness :
  length (requests (fst (exec (service_with []) (searchMemories sample_query sample_page)))
                   (snd (exec (service_with []) (searchMemories sample_query sample_page))))
  = 2.
Proof.
  apply (proj2 (@fallback_only_after_empty_answer sample_query sample_page _ _
                   (proj1 (exec_run (service_with []) _)))).
  vm_compute. do 7 eexists. repeat split.
Defined.

Lemma failure_ends_the_search_witness :
  snd (exec service_down (searchMemories sample_query sample_page))
  = Done tt (idle (failed (Error (lit "HTTP error! status: 503")) (loading sample_page))).
Proof.
  apply (@failure_ends_the_search sample_query sample_page _ _
           (FetchSettled (GET (cascading_url (lit "cats%20%26%20dogs")))
                         (Normal (mkResponse 503)))
           (loading sample_page) _
           (proj1 (exec_run service_down _))).
  - left. reflexivity.
  - reflexivity.
Defined.

Lemma search_shows_error_nothing_or_all_witness :
  length (memoriesContainer
            (page (snd (exec (service_with [sample_record; textless_record])
                             (searchMemories sample_query sample_page)))))
  = 2.
Proof.
  destruct (@search_shows_error_nothing_or_all sample_query sample_page _ _ eq_refl
              (proj1 (exec_run (service_with [sample_record; textless_record]) _))
              (proj2 (exec_run (service_with [sample_record; textless_record]) _)))
    as [[e He]|[He|(resp & data & items & Hlast & _ & _ & Hlen & _)]].
  - vm_compute in He. discriminate He.
  - vm_compute in He. discriminate He.
  - vm_compute. reflexivity.
Defined.

Lemma nothing_found_anywhere_witness :
  memoriesContainer
    (page (snd (exec (service_with []) (searchMemories sample_query sample_page))))
  = [Html (div_open "empty-state" ++ lit "No memories found for your search"
           ++ lit "</div>")].
Proof.
  destruct (@nothing_found_anywhere sample_query sample_page _ _ _ _ _ _ _ _ _ _ _ _ _ _ _
              (proj1 (exec_run (service_with []) _)) eq_refl (or_intror eq_refl))
    as (_ & _ & u' & Ho & Hc & _).
  rewrite Ho. exact Hc.
Defined.

Lemma fallback_results_rendered_witness :
  requests (fst (exec (service_with_fallback [sample_record])
                      (searchMemories sample_query sample_page)))
           (snd (exec (service_with_fallback [sample_record])
                      (searchMemories sample_query sample_page)))
  = [GET (cascading_url (lit "cats%20%26%20dogs"));
     GET (semantic_url (lit "cats%20%26%20dogs"))].
Proof.
  exact (proj1 (proj2 (@fallback_results_rendered sample_query sample_page _ _
                         _ _ _ _ _ _ _ _ _ _ _ _ _ _ _
                         (proj1 (exec_run (service_with_fallback [sample_record]) _))
                         eq_refl eq_refl))).
Defined.

Lemma null_body_is_an_error_witness :
  memoriesContainer
    (page (snd (exec (service_answering VNull) (searchMemories sample_query sample_page))))
  = [Html (div_open "error"
           ++ lit "Failed to search memories: Cannot read properties of null (reading 'results')"
           ++ lit "</div>")].
Proof.
  apply (@null_body_is_an_error sample_query sample_page _ _ (mkResponse 200)
           (loading sample_page) (proj1 (exec_run (service_answering VNull) _))).
  right. left. reflexivity.
Defined.

Lemma results_not_an_array_witness :
  memoriesContainer
    (page (snd (exec (service_answering (VObj [(lit "results", VStr (lit "none"))]))
                     (searchMemories sample_query sample_page))))
  = [Html (div_open "error"
           ++ lit "Failed to search memories: memories.forEach is not a function"
           ++ lit "</div>")].
Proof.
  exact (proj2 (proj2 (@results_not_an_array sample_query sample_page _ _ _ _ _ _ _ _ _ _
                         (proj1 (exec_run (service_answering
                                             (VObj [(lit "results", VStr (lit "none"))])) _))
                         eq_refl eq_refl eq_refl eq_refl))).
Defined.

Lemma plain_records_render_witness :
  exists cards,
    displayMemories (VArr [sample_record; textless_record]) sample_page
    = Done tt (displayed cards 2 sample_page) /\
    length cards = 2.
Proof.
  destruct (@plain_records_render [sample_record; textless_record] sample_page eq_refl)
    as (cards & Hd & Hlen & _).
  exists cards. split; [exact Hd | exact Hlen].
Defined.

Lemma null_record_stops_rendering_witness :
  memoriesContainer (recovered (displayMemories (VArr ([sample_record] ++ VNull :: []))
                                                sample_page))
  = [Html (div_open "error"
           ++ lit "Failed to search memories: Cannot read properties of null (reading 'chunk_text')"
           ++ lit "</div>")].
Proof.
  destruct (@null_record_stops_rendering [sample_record] [] sample_page eq_refl)
    as (cards & _ & _ & H).
  exact H.
Defined.

Lemma card_copies_what_it_shows_witness :
  exists c o',
    c = (mkCard 0 (lit "memory-item")
           ([10%N] ++ lit "        <div class=" ++ [34%N] ++ lit "memory-text" ++ [34%N] ++ lit ">"
            ++ lit "&lt;script&gt;alert(1)&lt;/script&gt;" ++ lit "</div>"
            ++ [10%N] ++ lit "        <div class=" ++ [34%N] ++ lit "memory-meta" ++ [34%N] ++ lit ">"
            ++ [10%N] ++ lit "          <span>Score: " ++ lit "95.3" ++ lit "%</span>"
            ++ [10%N] ++ lit "          <span>Memory #" ++ lit "1" ++ lit "</span>"
            ++ [10%N] ++ lit "        </div>"
            ++ [10%N] ++ lit "      ")
           [] sample_record) /\
    In (Card c) (memoriesContainer
                   (page (displayMemories (VArr [sample_record]) sample_page))) /\
    run (memory_click c (set_container [Card c] sample_page))
        [(ClipboardSettled (lit "<script>alert(1)</script>") (Normal tt),
          set_container [Card c] sample_page)] o' /\
    clipboard_writes [(ClipboardSettled (lit "<script>alert(1)</script>") (Normal tt),
                       set_container [Card c] sample_page)] o'
    = [lit "<script>alert(1)</script>"] /\
    memoriesContainer (page o') =
    [Card (mkCard 0 (lit "memory-item")
             ([10%N] ++ lit "        <div class=" ++ [34%N] ++ lit "memory-text" ++ [34%N] ++ lit ">"
              ++ lit "&lt;script&gt;alert(1)&lt;/script&gt;" ++ lit "</div>"
              ++ [10%N] ++ lit "        <div class=" ++ [34%N] ++ lit "memory-meta" ++ [34%N] ++ lit ">"
              ++ [10%N] ++ lit "          <span>Score: " ++ lit "95.3" ++ lit "%</span>"
              ++ [10%N] ++ lit "          <span>Memory #" ++ lit "1" ++ lit "</span>"
              ++ [10%N] ++ lit "        </div>"
              ++ [10%N] ++ lit "      ")
             (lit "#34a853") sample_record)].
Proof.
  eexists _, _. split; [reflexivity|].
  split; [vm_compute; left; reflexivity|].
  split; [eapply run_step; [apply resume_clipboard | apply run_here]|].
  match goal with
  | |- clipboard_writes ?tr ?o = _ /\ memoriesContainer (page ?o) = [Card ?painted] =>
      match tr with
      | [(_, set_container [Card ?c] _)] =>
          assert (Hin : In (Card c)
                           (memoriesContainer
                              (page (displayMemories (VArr [sample_record]) sample_page))))
            by (vm_compute; left; reflexivity);
          assert (Hrun : run (memory_click c (set_container [Card c] sample_page)) tr o)
            by (eapply run_step; [apply resume_clipboard | apply run_here]);
          destruct (@card_copies_what_it_shows _ _ _ _ _ _
                      (VStr (lit "<script>alert(1)</script>"))
                      (lit "<script>alert(1)</script>")
                      Hin eq_refl eq_refl eq_refl Hrun)
            as (_ & _ & Hwrites & _ & _ & _ & Hpaint & _)
      end
  end.
  destruct (Hpaint _ eq_refl) as [k Hk].
  split; [exact Hwrites|].
  apply (f_equal (fun o => memoriesContainer (page o))) in Hk. exact Hk.
Defined.

Lemma button_tracks_search_witness :
  searchButton_disabled (dom searching) = true /\
  searchButton_textContent (dom searching) = lit "Searching...".
Proof.
  assert (Hfresh : fresh_page (typed sample_query sample_page))
    by (split; [reflexivity | split; [reflexivity | intros []]]).
  assert (Hopen : opened_on (typed sample_query sample_page) searching)
    by (eapply opened_react; [apply opened_first | apply react_click]).
  destruct (button_tracks_search Hfresh Hopen) as (Hb & _ & Hl & _).
  split.
  - rewrite Hb. reflexivity.
  - apply Hl. discriminate.
Defined.

Lemma search_waits_for_its_call_witness :
  (searches (mkPopup (typed (lit "dogs") (dom searching)) (tasks searching))
   = [searchButton_click (dom opened)] /\
   isSearching (dom (mkPopup (typed (lit "dogs") (dom searching)) (tasks searching))) = true) \/
  (exists ev o1,
     resume (searchButton_click (dom opened)) ev (dom searching) o1 /\
     searches (mkPopup (typed (lit "dogs") (dom searching)) (tasks searching))
     = (if finished o1 then [] else [o1])).
Proof.
  apply (@search_waits_for_its_call searching _ (searchButton_click (dom opened))).
  - eapply reach_react; [apply reach_opened | apply react_click].
  - reflexivity.
  - apply react_input.
Defined.

Lemma click_paints_its_card_only_witness :
  exists p c,
    opened_on (typed sample_query sample_page) p /\
    In (Card c) (memoriesContainer (dom p)) /\
    uid c < created (dom p) /\
    forall n, In n (memoriesContainer (dom p)) -> n <> Card c ->
              paint (uid c) (lit "#34a853") n = n.
Proof.
  assert (Hfresh : fresh_page (typed sample_query sample_page))
    by (split; [reflexivity | split; [reflexivity | intros []]]).
  assert (Hopen : exists p,
            opened_on (typed sample_query sample_page) p /\
            exists c, In (Card c) (memoriesContainer (dom p))).
  { eexists. split.
    - eapply opened_react.
      + eapply opened_react.
        * eapply opened_react; [apply opened_first | apply react_click].
        * eapply (@react_settle _ [_] (Search _) []
                    (FetchSettled _ (Normal (mkResponse 200))));
            [reflexivity | apply resume_search; apply resume_fetch].
      + eapply (@react_settle _ [_] (Search _) []
                  (JsonSettled _ (Normal (VObj [(lit "results", VArr [sample_record])]))));
          [reflexivity | apply resume_search; apply resume_json].
    - eexists. vm_compute. left. reflexivity. }
  destruct Hopen as (p & Hopen & c & Hc).
  exists p, c.
  destruct (@click_paints_its_card_only _ p c (lit "#34a853") Hfresh Hopen Hc)
    as (_ & Hlt & Hpaint).
  auto.
Defined.

Lemma enter_is_a_click_witness :
  searchInput_keypress (lit "Tab") (typed sample_query sample_page)
  = Done tt (typed sample_query sample_page).
Proof.
  apply (proj1 (proj2 (enter_is_a_click (typed sample_query sample_page) (lit "Tab")))).
  discriminate.
Defined.

Lemma submitted_query_is_kept_witness :
  exists encoded,
    encodeURIComponent (searchInput_value (typed sample_query sample_page)) = Normal encoded /\
    (GET (semantic_url (lit "cats%20%26%20dogs")) = GET (cascading_url encoded) \/
     GET (semantic_url (lit "cats%20%26%20dogs")) = GET (semantic_url encoded)).
Proof.
  apply (@submitted_query_is_kept (typed sample_query sample_page) _ _ _ eq_refl
           (proj1 (exec_run (service_with []) _))).
  vm_compute. right. left. reflexivity.
Defined.

Lemma copy_flash_is_undone_witness :
  snd (exec (service_with [])
            (memory_click sample_card (set_container [Card sample_card] sample_page)))
  = Done tt (set_container [Card sample_card] sample_page).
Proof.
  apply (@copy_flash_is_undone sample_card (set_container [Card sample_card] sample_page)
           (VStr (lit "<script>alert(1)</script>")) (lit "<script>alert(1)</script>")
           (fst (exec (service_with [])
                      (memory_click sample_card
                                    (set_container [Card sample_card] sample_page))))).
  - reflexivity.
  - reflexivity.
  - intros c' [[= <-]|[]]. reflexivity.
  - apply exec_run.
  - reflexivity.
Defined.

Lemma unreserved_query_is_sent_as_typed_witness :
  encodeURIComponent (lit "cats") = Normal (lit "cats") /\
  trim (lit "cats") = lit "cats" /\
  exists k,
    searchMemories (lit "cats") sample_page
    = AwaitFetch (GET (cascading_url (lit "cats"))) (loading sample_page) k.
Proof.
  apply unreserved_query_is_sent_as_typed.
  - reflexivity.
  - discriminate.
Defined.

Lemma card_markup_is_safe_witness :
  exists c text score ordinal,
    Card (mkCard 0 (lit "memory-item")
            (card_markup (lit "&lt;script&gt;alert(1)&lt;/script&gt;") (lit "95.3") (lit "1"))
            [] sample_record) = Card c /\
    className c = lit "memory-item" /\
    innerHTML c = card_markup text score ordinal /\
    bracket_free text = true /\
    bracket_free score = true /\
    bracket_free ordinal = true.
Proof.
  apply (@card_markup_is_safe (VArr [sample_record]) sample_page).
  vm_compute. left. reflexivity.
Defined.

End PopupSpec.


(* ===================================================================== *)
(** * Properties of the background script                                 *)
(* ===================================================================== *)

Module BackgroundSpec.
Import JS Background.

Lemma str_eqb_eq a : forall b, str_eqb a b = true <-> a = b.
Proof.
  induction a as [|x a IH]; intros [|y b]; cbn [str_eqb]; try (split; (reflexivity || discriminate)).
  rewrite andb_true_iff, N.eqb_eq, IH. split; [intros [-> ->]; reflexivity | intros [= -> ->]; auto].
Qed.

Lemma is_string_eq v s : is_string v s = true <-> v = VStr s.
Proof.
  destruct v; cbn [is_string]; try (split; discriminate).
  rewrite str_eqb_eq. split; [now intros -> | now intros [= ->]].
Qed.

(** ** The storage area *)

Lemma own_put_same key v area : own (put key v area) key = Some v.
Proof.
  induction area as [|[k w] rest IH]; cbn [put own].
  - assert (E : str_eqb key key = true) by now apply str_eqb_eq.
    now rewrite E.
  - destruct (str_eqb k key) eqn:E; cbn [own]; rewrite E; auto.
Qed.

Lemma own_put_other key v area other :
  other <> key -> own (put key v area) other = own area other.
Proof.
  intros Hne. induction area as [|[k w] rest IH]; cbn [put own].
  - destruct (str_eqb key other) eqn:E; [|reflexivity].
    apply str_eqb_eq in E. congruence.
  - destruct (str_eqb k key) eqn:E; cbn [own].
    + apply str_eqb_eq in E. subst k.
      destruct (str_eqb key other) eqn:E'; [|reflexivity].
      apply str_eqb_eq in E'. congruence.
    + now rewrite IH.
Qed.

(** X24.  Installing or updating the extension turns the memory on: once
    the write has gone through, [memory_enabled] reads [true] in the synced
    storage whatever it held, every other key reads as before, and a second
    install changes nothing more.  Neither a tab nor a message comes of it.
    The line in the console is written by the callback, which does not look
    at the outcome: it is written also when the write has failed and the
    storage is as it was. *)
Theorem install_enables_memory written b :
  let b' := perform_all written onInstalled b in
  (written = true -> own (storage b') (lit "memory_enabled") = Some (VBool true)) /\
  (written = false -> storage b' = storage b) /\
  (forall key, key <> lit "memory_enabled" -> own (storage b') key = own (storage b) key) /\
  (forall key, own (storage (perform_all written onInstalled b')) key = own (storage b') key) /\
  console b' = console b ++ [[VStr (lit "Memory enabled set to true on install/update")]] /\
  messages b' = messages b /\
  tabs b' = tabs b.
Proof.
  destruct written; cbn.
  - split; [intros _; apply own_put_same|]. split; [discriminate|].
    split; [intros key Hne; now apply own_put_other|].
    split; [|repeat split].
    intros key.
    destruct (str_eqb key (lit "memory_enabled")) eqn:E.
    + apply str_eqb_eq in E. subst key. now rewrite !own_put_same.
    + rewrite own_put_other; [reflexivity|]. intros ->.
      vm_compute in E. discriminate E.
  - split; [discriminate|]. repeat split.
Qed.

(** X25.  Of all the messages the background script receives only one whose
    [action] is the string [openDashboard] has an effect, and the effect is
    one tab, opened on the [url] of the message as it is, present or not:
    the storage, the console and the messages to tabs are as before. *)
Theorem only_a_dashboard_request_opens_a_tab request sender calls written b :
  onMessage request sender = Normal calls ->
  let b' := perform_all written calls b in
  storage b' = storage b /\
  messages b' = messages b /\
  console b' = console b /\
  ((Get request (lit "action") = Normal (VStr (lit "openDashboard")) /\
    exists url,
      Get request (lit "url") = Normal url /\
      tabs b' = tabs b ++ [VObj [(lit "url", url)]]) \/
   (Get request (lit "action") <> Normal (VStr (lit "openDashboard")) /\
    tabs b' = tabs b)).
Proof.
  unfold onMessage. intros H.
  destruct (Get request (lit "action")) as [action|e] eqn:Ha; [|discriminate].
  cbn [cbind] in H.
  destruct (is_string action (lit "openDashboard")) eqn:Hs.
  - apply is_string_eq in Hs. subst action.
    destruct (Get request (lit "url")) as [url|e]; [|discriminate].
    injection H as <-. cbn. repeat split. left. eauto.
  - injection H as <-. cbn. repeat split. right. split; [|reflexivity].
    intros [= E]. subst action. discriminate Hs.
Qed.

(** X26.  A click on the icon of the extension sends one message to the tab
    clicked in, [{action: "toggleSidebar"}] to the [id] of the tab, and does
    nothing else; this message, should the background script receive it
    itself, opens no tab. *)
Theorem icon_click_toggles_the_sidebar tab calls written b sender :
  onClicked tab = Normal calls ->
  exists id message,
    Get tab (lit "id") = Normal id /\
    message = VObj [(lit "action", VStr (lit "toggleSidebar"))] /\
    calls = [tabs_sendMessage id message] /\
    perform_all written calls b =
      mkExtension (storage b) (messages b ++ [(id, message)]) (tabs b) (console b) /\
    onMessage message sender = Normal [].
Proof.
  unfold onClicked. intros H.
  destruct (Get tab (lit "id")) as [id|e]; [|discriminate].
  injection H as <-. eexists _, _. repeat split.
Qed.

Lemma install_enables_memory_witness :
  own (storage (perform_all true onInstalled
                  (mkExtension [(lit "memory_enabled", VBool false)] [] [] [])))
      (lit "memory_enabled") = Some (VBool true).
Proof.
  exact (proj1 (install_enables_memory true
                  (mkExtension [(lit "memory_enabled", VBool false)] [] [] [])) eq_refl).
Defined.

Lemma only_a_dashboard_request_opens_a_tab_witness :
  tabs (perform_all true
          [tabs_create (VObj [(lit "url", VStr (lit "http://localhost:8000/docs"))])]
          (mkExtension [] [] [] []))
  = [VObj [(lit "url", VStr (lit "http://localhost:8000/docs"))]].
Proof.
  destruct (@only_a_dashboard_request_opens_a_tab
              (VObj [(lit "action", VStr (lit "openDashboard"));
                     (lit "url", VStr (lit "http://localhost:8000/docs"))])
              VUndefined _ true (mkExtension [] [] [] []) eq_refl)
    as (_ & _ & _ & [(_ & url & Hurl & Htabs)|(Hne & _)]).
  - injection Hurl as <-. exact Htabs.
  - destruct Hne. reflexivity.
Defined.

Lemma icon_click_toggles_the_sidebar_witness :
  exists id message,
    Get (VObj [(lit "id", VNum 7)]) (lit "id") = Normal id /\
    message = VObj [(lit "action", VStr (lit "toggleSidebar"))] /\
    [tabs_sendMessage (VNum 7) (VObj [(lit "action", VStr (lit "toggleSidebar"))])]
      = [tabs_sendMessage id message] /\
    perform_all true [tabs_sendMessage (VNum 7) (VObj [(lit "action", VStr (lit "toggleSidebar"))])]
                (mkExtension [] [] [] []) =
      mkExtension [] ([] ++ [(id, message)]) [] [] /\
    onMessage message VUndefined = Normal [].
Proof.
  exact (@icon_click_toggles_the_sidebar (VObj [(lit "id", VNum 7)]) _ true
           (mkExtension [] [] [] []) VUndefined eq_refl).
Defined.

End BackgroundSpec.

